(** * Order re-entry service: the tolerant extraction pipeline of facture_v1.py

    A shallow embedding of the functions that turn the text returned by the
    vision model into normalised order lines:

      clean_markdown_json, extract_first_json_candidate,
      remove_trailing_commas, try_json_loads, try_ast_literal_eval,
      tolerant_parse_json_from_text, normalize_number, parse_llm_response
      and the normalisation loop of extract_order_data,

    and of the functions that take the uploaded file in and print the
    amounts out:

      allowed_file, encode_file_to_dataurl and format_fr_pdf.

    Python values are modelled as they are at run time: [str] is a sequence
    of Unicode code points, [int] is unbounded, [float] is IEEE 754 binary64
    (round to nearest, ties to even), [dict] keeps insertion order, and a
    raised exception is an explicit result.  The calls into Python's
    standard library the functions make ([str.strip], [str.replace],
    [re.sub], [re.search], [float], [int], [json.loads]) are modelled next to
    them; what depends on tables or code outside the repository (the Unicode
    database, [repr], [json.dumps], [ast.literal_eval]) is a field of
    [PyHost], over which every result is universally quantified; the
    lower-case mapping of text that is not ASCII and the content of the
    file system are variables of the sections that use them. *)

From Stdlib Require Import ZArith List Bool Lia String Ascii ZifyBool.
From Stdlib Require Import Floats.SpecFloat.
From Stdlib Require Strings.Byte.
Import ListNotations.
Open Scope Z_scope.
Set Warnings "-register-all".

(** ** Text *)

(** A Python [str]: its code points, in order. *)
Definition pystr := list Z.

Definition byte_of (a : ascii) : Z := Z.of_N (N_of_ascii a).

(** UTF-8 decoding of well-formed input, used only to write [str] literals
    in this file (its source is UTF-8). *)
Fixpoint utf8_decode (fuel : nat) (bs : list Z) : pystr :=
  match fuel with
  | O => []
  | S n =>
    match bs with
    | [] => []
    | b :: r =>
      if b <? 128 then b :: utf8_decode n r
      else if b <? 224 then
        match r with
        | b1 :: r1 => ((b mod 32) * 64 + b1 mod 64) :: utf8_decode n r1
        | _ => [b]
        end
      else if b <? 240 then
        match r with
        | b1 :: b2 :: r2 =>
          ((b mod 16) * 4096 + (b1 mod 64) * 64 + b2 mod 64) :: utf8_decode n r2
        | _ => b :: r
        end
      else
        match r with
        | b1 :: b2 :: b3 :: r3 =>
          ((b mod 8) * 262144 + (b1 mod 64) * 4096 + (b2 mod 64) * 64 + b3 mod 64)
            :: utf8_decode n r3
        | _ => b :: r
        end
    end
  end.

Definition bytes_of_string (s : string) : list Z :=
  List.map byte_of (list_ascii_of_string s).

(** [py "abc"] is the Python literal ['abc']. *)
Definition py (s : string) : pystr :=
  let bs := bytes_of_string s in utf8_decode (List.length bs) bs.

(** [pyq] is [py] with every [~] standing for a double quote, so that JSON
    text can be written down: [pyq "{~a~: 1}"] is the text [{"a": 1}]. *)
Definition pyq (s : string) : pystr :=
  List.map (fun c => if c =? 126 then 34 else c) (py s).

Fixpoint str_eqb (a b : pystr) : bool :=
  match a, b with
  | [], [] => true
  | x :: a', y :: b' => (x =? y) && str_eqb a' b'
  | _, _ => false
  end.

(** [str.isspace] on one code point (CPython's [Py_UNICODE_ISSPACE]); the
    regular-expression class [\s] on [str] patterns is the same set. *)
Definition is_space (c : Z) : bool :=
  ((9 <=? c) && (c <=? 13)) || ((28 <=? c) && (c <=? 32))
  || (c =? 133) || (c =? 160) || (c =? 5760)
  || ((8192 <=? c) && (c <=? 8202))
  || (c =? 8232) || (c =? 8233) || (c =? 8239) || (c =? 8287) || (c =? 12288).

Fixpoint lstrip (s : pystr) : pystr :=
  match s with
  | c :: r => if is_space c then lstrip r else s
  | [] => []
  end.

Definition rstrip (s : pystr) : pystr := rev (lstrip (rev s)).

(** [s.strip()] *)
Definition strip (s : pystr) : pystr := rstrip (lstrip s).

Fixpoint starts_with (p s : pystr) : bool :=
  match p, s with
  | [], _ => true
  | x :: p', y :: s' => (x =? y) && starts_with p' s'
  | _ :: _, [] => false
  end.

(** [c in s] for a one-character [c]. *)
Definition contains (c : Z) (s : pystr) : bool := existsb (Z.eqb c) s.

(** [s.replace(c, new)] for a one-character [c]. *)
Definition replace_char (c : Z) (new : pystr) (s : pystr) : pystr :=
  flat_map (fun x => if x =? c then new else [x]) s.

Definition is_ascii_digit (c : Z) : bool := (48 <=? c) && (c <=? 57).

(** ** Floats: IEEE 754 binary64 *)

Definition pyfloat := spec_float.

Definition prec : Z := 53.
Definition emax : Z := 1024.

(** The binary64 nearest to [m * 2^e] (ties to even); infinite on overflow. *)
Definition float_of_scaled (m e : Z) : pyfloat := binary_normalize prec emax m e false.

(** The binary64 nearest to [(-1)^neg * m * 10^e10], for [0 <= m]: what
    CPython's correctly rounded string-to-double conversion returns.  A
    negative power of ten is divided out with 64 extra quotient bits and the
    position of the remainder, then rounded once. *)
Definition float_of_decimal (neg : bool) (m e10 : Z) : pyfloat :=
  match m with
  | Zpos p =>
    if 0 <=? e10 then
      match m * 10 ^ e10 with
      | Zpos n => binary_round prec emax neg n 0
      | _ => S754_zero neg
      end
    else
      let den := 10 ^ (- e10) in
      let s := Z.max 0 (Zdigits2 den - Zdigits2 m + 64) in
      let '(q, r) := Z.div_eucl (Z.shiftl m s) den in
      binary_round_aux prec emax neg q (- s) (new_location den r)
  | _ => S754_zero neg
  end.

(** [x == 0.0] *)
Definition float_is_zero (f : pyfloat) : bool :=
  match f with S754_zero _ => true | _ => false end.

(** [int(x)] for a float [x]: truncation toward zero of a finite value. *)
Definition float_trunc (f : pyfloat) : option Z :=
  match f with
  | S754_zero _ => Some 0
  | S754_finite s m e =>
    let a := if 0 <=? e then Z.shiftl (Zpos m) e else Z.shiftr (Zpos m) (- e) in
    Some (if s then - a else a)
  | _ => None
  end.

(** ** Values, exceptions, the host *)

(** The values [json.loads] builds.  A [dict] is the list of its items in
    insertion order, with distinct keys. *)
Inductive pyval :=
| PNone
| PBool (b : bool)
| PInt (n : Z)
| PFloat (f : pyfloat)
| PStr (s : pystr)
| PList (l : list pyval)
| PDict (d : list (pystr * pyval)).

(** The exceptions the modelled code can raise.  [ValueError] carries its
    message: the pipeline raises it for three different failures. *)
Inductive exn :=
| ValueError (msg : pystr)
| TypeError
| AttributeError
| KeyError
| IndexError
| OverflowError.

Inductive result (A : Type) :=
| Ok (a : A)
| Raise (e : exn).
Arguments Ok {A} a.
Arguments Raise {A} e.

Definition bind {A B : Type} (r : result A) (k : A -> result B) : result B :=
  match r with
  | Ok a => k a
  | Raise e => Raise e
  end.

Notation "x <- r ;; k" := (bind r (fun x => k))
  (at level 61, r at next level, right associativity).

(** What the interpreter supplies from outside the repository.  The Unicode
    tables are consulted for code points from 128 on only; below, the ASCII
    rules are written out where they are used. *)
Record PyHost := {
  (** [Py_UNICODE_TODECIMAL]: the value of a decimal digit, for [\d] and [float] *)
  unicode_decimal : Z -> option Z;
  (** [str.isalnum] on one code point, for [\b] *)
  unicode_alnum : Z -> bool;
  (** [str(x)] for a [list] or a [dict]: an exception where the text of an
      item cannot be written, as the [ValueError] for an [int] with more
      digits than a conversion to text allows *)
  container_str : pyval -> result pystr;
  (** [json.dumps(x)] *)
  json_dumps : pyval -> pystr;
  (** [ast.literal_eval(s)], with [None] for any exception; its results are
      taken within the JSON data model *)
  ast_literal_eval : pystr -> option pyval
}.

(** A host that knows ASCII only and whose library calls return nothing,
    for closed examples that never reach them. *)
Definition ascii_host : PyHost := {|
  unicode_decimal := fun _ => None;
  unicode_alnum := fun _ => false;
  container_str := fun _ => Ok [];
  json_dumps := fun _ => [];
  ast_literal_eval := fun _ => None
|}.

(** Truth value of an object ([if x], [x or y], [not x]). *)
Definition truthy (v : pyval) : bool :=
  match v with
  | PNone => false
  | PBool b => b
  | PInt n => negb (n =? 0)
  | PFloat f => negb (float_is_zero f)
  | PStr s => match s with [] => false | _ => true end
  | PList l => match l with [] => false | _ => true end
  | PDict d => match d with [] => false | _ => true end
  end.

(** [a or b] *)
Definition py_or (a b : pyval) : pyval := if truthy a then a else b.

(** *** dict *)

Fixpoint dict_get (d : list (pystr * pyval)) (k : pystr) : option pyval :=
  match d with
  | [] => None
  | (k', v) :: r => if str_eqb k' k then Some v else dict_get r k
  end.

(** [d[k] = v]: in place for a key already there, at the end otherwise. *)
Fixpoint dict_set (d : list (pystr * pyval)) (k : pystr) (v : pyval)
  : list (pystr * pyval) :=
  match d with
  | [] => [(k, v)]
  | (k', v') :: r =>
    if str_eqb k' k then (k', v) :: r else (k', v') :: dict_set r k v
  end.

(** [x.get(k)]: only a [dict] has the method. *)
Definition py_get (x : pyval) (k : pystr) : result pyval :=
  match x with
  | PDict d => Ok (match dict_get d k with Some v => v | None => PNone end)
  | _ => Raise AttributeError
  end.

(** [x.get(k, dflt)] *)
Definition py_get_default (x : pyval) (k : pystr) (dflt : pyval) : result pyval :=
  match x with
  | PDict d => Ok (match dict_get d k with Some v => v | None => dflt end)
  | _ => Raise AttributeError
  end.

(** ** Numbers from text *)

Fixpoint span_digits (s : pystr) : pystr * pystr :=
  match s with
  | c :: r =>
    if is_ascii_digit c then let '(ds, r') := span_digits r in (c :: ds, r')
    else ([], s)
  | [] => ([], [])
  end.

(** The number a run of ASCII digits denotes, most significant first. *)
Fixpoint digits_value (acc : Z) (ds : pystr) : Z :=
  match ds with
  | [] => acc
  | d :: r => digits_value (acc * 10 + (d - 48)) r
  end.

(** An optional sign: whether it is a minus, and the text after it. *)
Definition take_sign (plus_too : bool) (s : pystr) : bool * pystr :=
  match s with
  | c :: r =>
    if c =? 45 then (true, r)
    else if plus_too && (c =? 43) then (false, r)
    else (false, s)
  | [] => (false, [])
  end.

Definition ascii_lower (c : Z) : Z :=
  if (65 <=? c) && (c <=? 90) then c + 32 else c.

(** CPython's [PyOS_string_to_double] on a whole ASCII string:
    [[+-]? (digits [. digits*] | . digits) ([eE] [+-]? digits)?], or a
    signed [inf], [infinity] or [nan] in any case.  [None] is a parse
    failure. *)
Definition parse_float_ascii (s : pystr) : option pyfloat :=
  let '(neg, s1) := take_sign true s in
  let low := List.map ascii_lower s1 in
  if str_eqb low (py "inf") || str_eqb low (py "infinity") then Some (S754_infinity neg)
  else if str_eqb low (py "nan") then Some S754_nan
  else
    let '(ip, s2) := span_digits s1 in
    let '(fp, s3) :=
      match s2 with
      | c :: r => if c =? 46 then span_digits r else ([], s2)
      | [] => ([], [])
      end in
    let mant := digits_value 0 (ip ++ fp) in
    let scale := - Z.of_nat (List.length fp) in
    match ip ++ fp with
    | [] => None
    | _ :: _ =>
      match s3 with
      | [] => Some (float_of_decimal neg mant scale)
      | e :: r =>
        if (e =? 101) || (e =? 69) then
          let '(eneg, r1) := take_sign true r in
          let '(ed, r2) := span_digits r1 in
          match ed, r2 with
          | _ :: _, [] =>
            let ev := digits_value 0 ed in
            Some (float_of_decimal neg mant ((if eneg then - ev else ev) + scale))
          | _, _ => None
          end
        else None
      end
    end.

(** The underscore rule of numeric literals: an underscore stands between
    two digits; [prev] is the character before [s]. *)
Fixpoint drop_underscores (prev : Z) (s : pystr) : option pystr :=
  match s with
  | [] => if prev =? 95 then None else Some []
  | c :: r =>
    if c =? 95 then
      if is_ascii_digit prev then drop_underscores c r else None
    else if (prev =? 95) && negb (is_ascii_digit c) then None
    else option_map (cons c) (drop_underscores c r)
  end.

(** C's [Py_ISSPACE]. *)
Definition is_c_space (c : Z) : bool := ((9 <=? c) && (c <=? 13)) || (c =? 32).

Fixpoint lstrip_c (s : pystr) : pystr :=
  match s with
  | c :: r => if is_c_space c then lstrip_c r else s
  | [] => []
  end.

Section Host.

Variable host : PyHost.

(** The regular-expression class [\d] on a [str] pattern. *)
Definition is_decimal (c : Z) : bool :=
  if c <? 128 then is_ascii_digit c
  else match unicode_decimal host c with Some _ => true | None => false end.

(** [_PyUnicode_TransformDecimalAndSpaceToASCII], one code point: it stops
    at the first [?] it writes; the rest would not parse either. *)
Definition to_ascii_digit_or_space (c : Z) : Z :=
  if c <? 127 then c
  else if is_space c then 32
  else if c <? 128 then 63
  else match unicode_decimal host c with Some d => 48 + d | None => 63 end.

(** [float(s)] for a [str]; [None] is [ValueError]. *)
Definition float_of_str (s : pystr) : option pyfloat :=
  match drop_underscores 0 (List.map to_ascii_digit_or_space s) with
  | None => None
  | Some t =>
    match rev (lstrip_c (rev (lstrip_c t))) with
    | [] => None
    | u => parse_float_ascii u
    end
  end.

End Host.

(** [float(n)] for an [int]: [OverflowError] beyond the binary64 range. *)
Definition float_of_int (n : Z) : result pyfloat :=
  match float_of_scaled n 0 with
  | S754_infinity _ => Raise OverflowError
  | f => Ok f
  end.

(** [int(x)] for a float: [ValueError] on NaN, [OverflowError] on an
    infinity. *)
Definition int_of_float (f : pyfloat) : result Z :=
  match f with
  | S754_nan => Raise (ValueError (py "cannot convert float NaN to integer"))
  | S754_infinity _ => Raise OverflowError
  | _ => match float_trunc f with Some n => Ok n | None => Raise OverflowError end
  end.

(** ** json.loads

    The decoder of CPython's [json] module with its default settings (the
    C scanner): strict strings, [NaN], [Infinity] and [-Infinity] accepted,
    an object built as a [dict] from its pairs.  Only success is observed
    by the pipeline, so a [JSONDecodeError] is [Malformed].  The recursion
    limit and the limit on the digits of an [int] are not modelled. *)

Inductive scan (A : Type) :=
| Scanned (a : A) (rest : pystr)
| Malformed
| Exhausted.
Arguments Scanned {A} a rest.
Arguments Malformed {A}.
Arguments Exhausted {A}.

Definition is_json_ws (c : Z) : bool :=
  (c =? 32) || (c =? 9) || (c =? 10) || (c =? 13).

Fixpoint skip_ws (s : pystr) : pystr :=
  match s with
  | c :: r => if is_json_ws c then skip_ws r else s
  | [] => []
  end.

Definition hex_value (c : Z) : option Z :=
  if is_ascii_digit c then Some (c - 48)
  else if (97 <=? c) && (c <=? 102) then Some (c - 87)
  else if (65 <=? c) && (c <=? 70) then Some (c - 55)
  else None.

Definition hex4 (a b c d : Z) : option Z :=
  match hex_value a, hex_value b, hex_value c, hex_value d with
  | Some x, Some y, Some z, Some w => Some (((x * 16 + y) * 16 + z) * 16 + w)
  | _, _, _, _ => None
  end.

(** The character a one-letter escape stands for. *)
Definition simple_escape (c : Z) : option Z :=
  if c =? 34 then Some 34
  else if c =? 92 then Some 92
  else if c =? 47 then Some 47
  else if c =? 98 then Some 8
  else if c =? 102 then Some 12
  else if c =? 110 then Some 10
  else if c =? 114 then Some 13
  else if c =? 116 then Some 9
  else None.

Definition is_high_surrogate (c : Z) : bool := (55296 <=? c) && (c <=? 56319).
Definition is_low_surrogate (c : Z) : bool := (56320 <=? c) && (c <=? 57343).
Definition join_surrogates (hi lo : Z) : Z :=
  65536 + (hi - 55296) * 1024 + (lo - 56320).

(** [scanstring]: the text after an opening quote, up to the closing one.
    [acc] holds the decoded characters so far, last first.  A [\uXXXX] that
    gives a low surrogate right after a [\uXXXX] that gave a high one is
    joined with it; [pending] tells that the last character of [acc] is such
    a high surrogate. *)
Fixpoint scanstring (s : pystr) (acc : pystr) (pending : bool) {struct s}
  : option (pystr * pystr) :=
  match s with
  | [] => None
  | c :: r =>
    if c =? 34 then Some (rev acc, r)
    else if c =? 92 then
      match r with
      | [] => None
      | e :: r1 =>
        if e =? 117 then
          match r1 with
          | h1 :: h2 :: h3 :: h4 :: r5 =>
            match hex4 h1 h2 h3 h4 with
            | None => None
            | Some u =>
              if pending && is_low_surrogate u then
                match acc with
                | hi :: acc' => scanstring r5 (join_surrogates hi u :: acc') false
                | [] => None
                end
              else scanstring r5 (u :: acc) (is_high_surrogate u)
            end
          | _ => None
          end
        else
          match simple_escape e with
          | Some x => scanstring r1 (x :: acc) false
          | None => None
          end
      end
    else if c <? 32 then None
    else scanstring r (c :: acc) false
  end.

(** The integer part of a number: [0], or a digit from 1 to 9 and the
    digits after it. *)
Definition int_part (s : pystr) : option (pystr * pystr) :=
  match s with
  | [] => None
  | c :: r =>
    if c =? 48 then Some ([c], r)
    else if is_ascii_digit c then let '(ds, r') := span_digits r in Some (c :: ds, r')
    else None
  end.

(** The digits of a fraction: a dot that a digit follows, and its digits;
    none, and nothing read, otherwise. *)
Definition frac_part (s : pystr) : pystr * pystr :=
  match s with
  | p :: d :: r =>
    if (p =? 46) && is_ascii_digit d
    then let '(ds, r') := span_digits r in (d :: ds, r')
    else ([], s)
  | _ => ([], s)
  end.

(** The exponent: [e] or [E], a sign or none, and at least one digit;
    none, and nothing read, otherwise. *)
Definition exp_part (s : pystr) : option Z * pystr :=
  match s with
  | e :: r =>
    if (e =? 101) || (e =? 69) then
      let '(eneg, r1) := take_sign true r in
      let '(ds, r2) := span_digits r1 in
      match ds with
      | [] => (None, s)
      | _ :: _ => (Some (if eneg then - digits_value 0 ds else digits_value 0 ds), r2)
      end
    else (None, s)
  | [] => (None, s)
  end.

(** [_match_number]: [-? (0 | [1-9] digits) (. digits)? ([eE] [+-]? digits)?],
    an [int] when it has neither fraction nor exponent, the [float] of its
    text otherwise. *)
Definition match_number (s : pystr) : option (pyval * pystr) :=
  let '(neg, s1) := take_sign false s in
  match int_part s1 with
  | None => None
  | Some (ip, s2) =>
    let '(fp, s3) := frac_part s2 in
    let '(ex, s4) := exp_part s3 in
    match fp, ex with
    | [], None =>
      let n := digits_value 0 ip in Some (PInt (if neg then - n else n), s4)
    | _, _ =>
      let e10 := match ex with Some e => e | None => 0 end in
      Some (PFloat (float_of_decimal neg (digits_value 0 (ip ++ fp))
                      (e10 - Z.of_nat (List.length fp))), s4)
    end
  end.

(** The named constants, and then a number. *)
Definition scan_atom (s : pystr) : option (pyval * pystr) :=
  if starts_with (py "null") s then Some (PNone, skipn 4 s)
  else if starts_with (py "true") s then Some (PBool true, skipn 4 s)
  else if starts_with (py "false") s then Some (PBool false, skipn 5 s)
  else if starts_with (py "NaN") s then Some (PFloat S754_nan, skipn 3 s)
  else if starts_with (py "Infinity") s then Some (PFloat (S754_infinity false), skipn 8 s)
  else if starts_with (py "-Infinity") s then Some (PFloat (S754_infinity true), skipn 9 s)
  else match_number s.

(** [dict(pairs)]: a repeated key keeps its first place and its last value. *)
Definition dict_of_pairs (pairs : list (pystr * pyval)) : list (pystr * pyval) :=
  fold_left (fun d kv => dict_set d (fst kv) (snd kv)) pairs [].

Section ScanSteps.

(** One step of each of the three scanning functions, over the calls it
    makes: [scan_once] with [scan_elements] for the body of an array after
    its bracket and blanks, and [scan_members] for that of an object. *)
Variable once : pystr -> scan pyval.
Variable elements : pystr -> list pyval -> scan (list pyval).
Variable members : pystr -> list (pystr * pyval) -> scan (list (pystr * pyval)).

Definition scan_value (s : pystr) : scan pyval :=
  match s with
  | [] => Malformed
  | c :: r =>
    if c =? 34 then
      match scanstring r [] false with
      | Some (str, rest) => Scanned (PStr str) rest
      | None => Malformed
      end
    else if c =? 123 then
      match skip_ws r with
      | c1 :: r1 =>
        if c1 =? 125 then Scanned (PDict []) r1
        else
          match members (skip_ws r) [] with
          | Scanned pairs rest => Scanned (PDict (dict_of_pairs pairs)) rest
          | Malformed => Malformed
          | Exhausted => Exhausted
          end
      | [] => Malformed
      end
    else if c =? 91 then
      match skip_ws r with
      | c1 :: r1 =>
        if c1 =? 93 then Scanned (PList []) r1
        else
          match elements (skip_ws r) [] with
          | Scanned vs rest => Scanned (PList vs) rest
          | Malformed => Malformed
          | Exhausted => Exhausted
          end
      | [] => Malformed
      end
    else
      match scan_atom s with
      | Some (v, rest) => Scanned v rest
      | None => Malformed
      end
  end.

Definition scan_array_items (s : pystr) (acc : list pyval) : scan (list pyval) :=
  match once s with
  | Scanned v r =>
    match skip_ws r with
    | c :: r1 =>
      if c =? 93 then Scanned (rev (v :: acc)) r1
      else if c =? 44 then elements (skip_ws r1) (v :: acc)
      else Malformed
    | [] => Malformed
    end
  | Malformed => Malformed
  | Exhausted => Exhausted
  end.

Definition scan_object_items (s : pystr) (acc : list (pystr * pyval))
  : scan (list (pystr * pyval)) :=
  match s with
  | [] => Malformed
  | q :: r =>
    if q =? 34 then
      match scanstring r [] false with
      | None => Malformed
      | Some (key, r1) =>
        match skip_ws r1 with
        | [] => Malformed
        | c :: r2 =>
          if c =? 58 then
            match once (skip_ws r2) with
            | Scanned v r3 =>
              match skip_ws r3 with
              | c' :: r4 =>
                if c' =? 125 then Scanned (rev ((key, v) :: acc)) r4
                else if c' =? 44 then members (skip_ws r4) ((key, v) :: acc)
                else Malformed
              | [] => Malformed
              end
            | Malformed => Malformed
            | Exhausted => Exhausted
            end
          else Malformed
        end
      end
    else Malformed
  end.

End ScanSteps.

(** The scanner: every call spends one unit of [fuel]; [json_loads]
    provides enough. *)
Fixpoint scan_once (fuel : nat) (s : pystr) {struct fuel} : scan pyval :=
  match fuel with
  | O => Exhausted
  | S n => scan_value (scan_elements n) (scan_members n) s
  end
with scan_elements (fuel : nat) (s : pystr) (acc : list pyval) {struct fuel}
  : scan (list pyval) :=
  match fuel with
  | O => Exhausted
  | S n => scan_array_items (scan_once n) (scan_elements n) s acc
  end
with scan_members (fuel : nat) (s : pystr) (acc : list (pystr * pyval)) {struct fuel}
  : scan (list (pystr * pyval)) :=
  match fuel with
  | O => Exhausted
  | S n => scan_object_items (scan_once n) (scan_members n) s acc
  end.

(** [json.loads(s)] for a [str]; [None] is [JSONDecodeError]. *)
Definition json_loads (s : pystr) : option pyval :=
  if starts_with [65279] s then None
  else
    match scan_once (2 * List.length s + 1) (skip_ws s) with
    | Scanned v rest => match skip_ws rest with [] => Some v | _ :: _ => None end
    | _ => None
    end.

(** ** The tolerant JSON extractor (facture_v1.py, lines 53-115) *)

(** One character of [json] under [re.IGNORECASE]: the letter in either
    case, and for [s] also U+017F, the long s, which [re] folds onto it. *)
Definition matches_ci (letter c : Z) : bool :=
  (c =? letter) || (c =? letter - 32) || ((letter =? 115) && (c =? 383)).

Fixpoint starts_with_ci (p s : pystr) : bool :=
  match p, s with
  | [], _ => true
  | x :: p', y :: s' => matches_ci x y && starts_with_ci p' s'
  | _ :: _, [] => false
  end.

Definition fence : pystr := [96; 96; 96].

(** [re.sub(r'^```(?:json)?\s*', '', s, flags=re.IGNORECASE)]: the pattern
    can match at the start only. *)
Definition sub_fence_open (s : pystr) : pystr :=
  if starts_with fence s then
    let r := skipn 3 s in
    lstrip (if starts_with_ci (py "json") r then skipn 4 r else r)
  else s.

(** Whether [\s*```$] matches at the start of [s], and what is left of [s]
    after the match: [$] stands at the end, or before a last newline. *)
Definition fence_close_at (s : pystr) : option pystr :=
  let t := lstrip s in
  if str_eqb t fence then Some []
  else if str_eqb t (fence ++ [10]) then Some [10]
  else None.

(** [re.sub(r'\s*```$', '', s)]: the leftmost match is replaced, and no
    other can follow it. *)
Fixpoint sub_fence_close (s : pystr) : pystr :=
  match s with
  | [] => []
  | c :: r =>
    match fence_close_at s with
    | Some tail => tail
    | None => c :: sub_fence_close r
    end
  end.

Definition clean_markdown_json (text : pystr) : pystr :=
  let text := sub_fence_open (strip text) in
  let text := sub_fence_close (strip text) in
  strip text.

(** The prefix of [s] that ends with the last [c] in [s]: what a greedy
    [.*] followed by [c] takes, under [re.DOTALL]. *)
Fixpoint upto_last (c : Z) (s : pystr) : option pystr :=
  match s with
  | [] => None
  | x :: r =>
    match upto_last c r with
    | Some p => Some (x :: p)
    | None => if x =? c then Some [x] else None
    end
  end.

(** [re.compile(r'(\{.*\}|\[.*\])', re.DOTALL).search(s)], group 1: at the
    leftmost position where it can, from a [{] to the last [}] after it,
    or from a [[] to the last []] after it. *)
Fixpoint search_candidate (s : pystr) : option pystr :=
  match s with
  | [] => None
  | x :: r =>
    if x =? 123 then
      match upto_last 125 r with
      | Some p => Some (x :: p)
      | None => search_candidate r
      end
    else if x =? 91 then
      match upto_last 93 r with
      | Some p => Some (x :: p)
      | None => search_candidate r
      end
    else search_candidate r
  end.

Definition no_json_like_block : pystr := py "No JSON-like block found in text.".

Definition extract_first_json_candidate (text : pystr) : result pystr :=
  let text := clean_markdown_json text in
  match search_candidate text with
  | None => Raise (ValueError no_json_like_block)
  | Some m => Ok (strip m)
  end.

Definition is_closer (c : Z) : bool := (c =? 125) || (c =? 93).

(** Whether [\s*(\}|])] matches at the start of [s]. *)
Definition closer_follows (s : pystr) : bool :=
  match lstrip s with
  | d :: _ => is_closer d
  | [] => false
  end.

(** [re.sub(r',\s*(\}|])', r'\1', s)], left to right: [dropping] is set
    between a comma that matched and the bracket that ends its match. *)
Fixpoint sub_trailing_commas (dropping : bool) (s : pystr) : pystr :=
  match s with
  | [] => []
  | c :: r =>
    if dropping && is_space c then sub_trailing_commas true r
    else if (c =? 44) && closer_follows r then sub_trailing_commas true r
    else c :: sub_trailing_commas false r
  end.

Definition remove_trailing_commas (s : pystr) : pystr := sub_trailing_commas false s.

Definition try_json_loads (s : pystr) : option pyval := json_loads s.

(** The [re.sub] of the last strategy, pattern [(?<!\\)\']: every single
    quote that no backslash precedes becomes a double quote; [prev] is the
    character before [s]. *)
Fixpoint sub_single_quotes (prev : Z) (s : pystr) : pystr :=
  match s with
  | [] => []
  | c :: r =>
    (if (c =? 39) && negb (prev =? 92) then 34 else c) :: sub_single_quotes c r
  end.

Section Extractor.

Variable host : PyHost.

(** The regular-expression class [\w] on a [str] pattern. *)
Definition is_word (c : Z) : bool :=
  if c <? 128 then
    is_ascii_digit c || ((65 <=? c) && (c <=? 90)) || ((97 <=? c) && (c <=? 122))
    || (c =? 95)
  else unicode_alnum host c.

(** [\b] after the word [w] matched at the start of [s]: the next
    character, if any, is not a word character. *)
Definition word_ends (w s : pystr) : bool :=
  match skipn (List.length w) s with
  | [] => true
  | c :: _ => negb (is_word c)
  end.

(** [re.sub(r'\bw\b', repl, s, flags=re.IGNORECASE)] for a lower-case word
    [w]; [prev_word] tells whether the character before [s] is a word
    character, [inside] counts the characters of a match still to drop. *)
Fixpoint sub_word (w repl : pystr) (prev_word : bool) (inside : nat) (s : pystr)
  : pystr :=
  match s with
  | [] => []
  | c :: r =>
    match inside with
    | S k => sub_word w repl (is_word c) k r
    | O =>
      if negb prev_word && starts_with_ci w s && word_ends w s
      then repl ++ sub_word w repl (is_word c) (List.length w - 1) r
      else c :: sub_word w repl (is_word c) O r
    end
  end.

Definition try_ast_literal_eval (s : pystr) : option pyval :=
  let s2 := sub_word (py "null") (py "None") false O s in
  let s2 := sub_word (py "true") (py "True") false O s2 in
  let s2 := sub_word (py "false") (py "False") false O s2 in
  ast_literal_eval host s2.

(** The first of the options that is a value, as the loop over the
    strategies returns it. *)
Fixpoint first_success (attempts : list (option pyval)) : option pyval :=
  match attempts with
  | [] => None
  | Some v :: _ => Some v
  | None :: r => first_success r
  end.

Definition no_json_block (e : pystr) : exn :=
  ValueError (py "No JSON block found: " ++ e).

Definition failed_to_parse (candidate : pystr) : exn :=
  ValueError (py "Failed to parse JSON. Snippet: " ++ firstn 500 candidate).

Definition tolerant_parse_json_from_text (raw_text : pystr) : result pyval :=
  let cleaned_text := clean_markdown_json raw_text in
  match try_json_loads cleaned_text with
  | Some v => Ok v
  | None =>
    match try_json_loads raw_text with
    | Some v => Ok v
    | None =>
      match extract_first_json_candidate raw_text with
      | Raise (ValueError e) => Raise (no_json_block e)
      | Raise e => Raise e
      | Ok candidate =>
        match first_success
                [ try_json_loads candidate;
                  try_json_loads (remove_trailing_commas candidate);
                  try_ast_literal_eval candidate;
                  try_json_loads
                    (remove_trailing_commas (sub_single_quotes 0 candidate)) ] with
        | Some v => Ok v
        | None => Raise (failed_to_parse candidate)
        end
      end
    end
  end.

End Extractor.

(** ** The number normalizer and the mapper (facture_v1.py, lines 117-132
    and 217-267) *)

Section Mapper.

Variable host : PyHost.

(** [str(s)] for a [str], a [list] or a [dict] *)
Definition py_str (s : pyval) : result pystr :=
  match s with
  | PStr t => Ok t
  | _ => container_str host s
  end.

(** [re.sub(r'[^\d\.\-]', '', s)] *)
Definition keep_number_chars (s : pystr) : pystr :=
  filter (fun c => is_decimal host c || (c =? 46) || (c =? 45)) s.

(** [normalize_number(s)]: [Ok None] is the [None] it returns.  A [bool] is
    an [int] for [isinstance].  The [float(s)] of line 122 and the [str(s)]
    of line 123 stand outside the [try]: what they raise, the function
    raises. *)
Definition normalize_number (s : pyval) : result (option pyfloat) :=
  match s with
  | PNone => Ok None
  | PInt n => f <- float_of_int n ;; Ok (Some f)
  | PBool b => f <- float_of_int (if b then 1 else 0) ;; Ok (Some f)
  | PFloat f => Ok (Some f)
  | _ =>
    t <- py_str s ;;
    let s := replace_char 32 [] (replace_char 160 [32] (strip t)) in
    let s :=
      if contains 44 s && contains 46 s
      then replace_char 44 [46] (replace_char 46 [] s)
      else replace_char 44 [46] s in
    let s := keep_number_chars s in
    match s with
    | [] => Ok None
    | _ :: _ => Ok (float_of_str host s)
    end
  end.

Definition no_choices : exn := ValueError (py "No choices returned by LLM").

(** [choices[0]] *)
Definition first_item (choices : pyval) : result pyval :=
  match choices with
  | PList (x :: _) => Ok x
  | PStr (c :: _) => Ok (PStr [c])
  | PList [] | PStr [] => Raise IndexError
  | PDict _ => Raise KeyError
  | _ => Raise TypeError
  end.

Definition parse_llm_response (resp_json : pyval) : result pyval :=
  choices <- py_get_default resp_json (py "choices") (PList []) ;;
  if negb (truthy choices) then Raise no_choices
  else
    first <- first_item choices ;;
    m <- py_get first (py "message") ;;
    message <- (if truthy m then Ok m
                else d <- py_get first (py "delta") ;; Ok (py_or d (PDict []))) ;;
    content <- py_get message (py "content") ;;
    let raw :=
      match content with
      | PDict _ => json_dumps host content
      | PStr s => s
      | _ => json_dumps host first
      end in
    tolerant_parse_json_from_text host raw.

Definition qty_key : pystr := py "Qté".
Definition unit_price_key : pystr := py "P.U. H.T.".
Definition line_total_key : pystr := py "Total H.T.".
Definition vat_key : pystr := py "Taux TVA".

Definition of_option_float (o : option pyfloat) : pyval :=
  match o with
  | Some f => PFloat f
  | None => PNone
  end.

(** [int(x or 0)] for the [x] that [normalize_number] returned. *)
Definition int_or_zero (x : option pyfloat) : result Z :=
  match x with
  | None => Ok 0
  | Some f => if float_is_zero f then Ok 0 else int_of_float f
  end.

(** Lines 244-245, on the items of the [dict] [itm]. *)
Definition normalize_quantity (itm : list (pystr * pyval))
  : result (list (pystr * pyval)) :=
  match dict_get itm qty_key with
  | None | Some PNone => Ok itm
  | Some v =>
    x <- normalize_number v ;;
    n <- int_or_zero x ;;
    Ok (dict_set itm qty_key (PInt n))
  end.

(** Lines 248-249, for one [field]. *)
Definition normalize_amount (field : pystr) (itm : list (pystr * pyval))
  : result (list (pystr * pyval)) :=
  match dict_get itm field with
  | None | Some PNone => Ok itm
  | Some v =>
    x <- normalize_number v ;;
    Ok (dict_set itm field (of_option_float x))
  end.

(** Lines 252-264. *)
Definition normalize_vat (itm : list (pystr * pyval)) : list (pystr * pyval) :=
  match dict_get itm vat_key with
  | Some (PStr t) =>
    let t2 := strip (replace_char 44 [46] t) in
    if contains 37 t2
    then dict_set itm vat_key
           (of_option_float (float_of_str host (strip (replace_char 37 [] t2))))
    else dict_set itm vat_key
           (of_option_float (float_of_str host (keep_number_chars t2)))
  | _ => itm
  end.

(** The body of the loop, lines 244-264: [itm] has to be a [dict] for its
    first [itm.get]. *)
Definition normalize_item (itm : pyval) : result pyval :=
  match itm with
  | PDict d =>
    d <- normalize_quantity d ;;
    d <- normalize_amount unit_price_key d ;;
    d <- normalize_amount line_total_key d ;;
    Ok (PDict (normalize_vat d))
  | _ => Raise AttributeError
  end.

(** [for itm in items]: what the iteration yields. *)
Definition py_iter (items : pyval) : result (list pyval) :=
  match items with
  | PList l => Ok l
  | PStr s => Ok (List.map (fun c => PStr [c]) s)
  | PDict d => Ok (List.map (fun kv => PStr (fst kv)) d)
  | _ => Raise TypeError
  end.

Fixpoint for_each (f : pyval -> result pyval) (l : list pyval) : result (list pyval) :=
  match l with
  | [] => Ok []
  | x :: r => y <- f x ;; ys <- for_each f r ;; Ok (y :: ys)
  end.

(** [extract_order_data] from the response of the model on: lines 239-267.
    The two calls before them read the file and query the model; their
    result, the envelope [resp_json], is the argument here.  The loop
    updates the dicts of [items] in place, so a list comes back with its
    updated items, and anything else that could be iterated is as it was. *)
Definition extract_order_data (resp_json : pyval) : result pyval :=
  extracted <- parse_llm_response resp_json ;;
  items <- py_get_default extracted (py "items") (PList []) ;;
  elems <- py_iter items ;;
  done <- for_each normalize_item elems ;;
  match extracted with
  | PDict d =>
    Ok (PDict (dict_set d (py "items")
                 (match items with PList _ => PList done | _ => items end)))
  | _ => Raise AttributeError
  end.

End Mapper.

(** ** The uploaded file (facture_v1.py, lines 39 and 135-158) *)

Definition ALLOWED_EXTENSIONS : list pystr :=
  [py "png"; py "jpg"; py "jpeg"; py "webp"; py "pdf"].

(** [x in s] for a set of [str]. *)
Definition in_set (x : pystr) (s : list pystr) : bool := existsb (str_eqb x) s.

(** [s.rsplit(c, 1)[1]] for a one-character [c]: what follows the last [c]
    of [s]; [None] is the [IndexError] of a text without [c]. *)
Fixpoint after_last (c : Z) (s : pystr) : option pystr :=
  match s with
  | [] => None
  | x :: r =>
    match after_last c r with
    | Some t => Some t
    | None => if x =? c then Some r else None
    end
  end.

Definition is_ascii (s : pystr) : bool := forallb (fun c => c <? 128) s.

Section FileNames.

(** [str.lower] on a text that is not all ASCII: the case mappings of the
    Unicode database, with its rule for the final sigma. *)
Variable unicode_lower : pystr -> pystr.

(** [s.lower()] *)
Definition str_lower (s : pystr) : pystr :=
  if is_ascii s then List.map ascii_lower s else unicode_lower s.

(** [allowed_file(filename)] for a [str]. *)
Definition allowed_file (filename : pystr) : bool :=
  contains 46 filename &&
  match after_last 46 filename with
  | Some ext => in_set (str_lower ext) ALLOWED_EXTENSIONS
  | None => false
  end.

End FileNames.

(** [s.split(c)] for a one-character [c] *)
Fixpoint split_on (c : Z) (s : pystr) : list pystr :=
  match s with
  | [] => [[]]
  | x :: r =>
    if x =? c then [] :: split_on c r
    else
      match split_on c r with
      | h :: t => (x :: h) :: t
      | [] => [[x]]
      end
  end.

(** What a path leads to: nothing, a file that can be read, or something
    that exists and cannot be read as a file. *)
Inductive fs_entry :=
| Absent
| Regular (content : list Byte.byte)
| Unreadable.

Inductive file_error :=
| FileNotFoundError (msg : pystr)
| OSError.

Definition byte_value (b : Byte.byte) : Z := Z.of_N (Byte.to_N b).

(** The characters of the standard base64 alphabet. *)
Definition b64_char (i : Z) : Z :=
  if i <? 26 then 65 + i
  else if i <? 52 then 71 + i
  else if i <? 62 then i - 4
  else if i =? 62 then 43
  else 47.

(** [base64.b64encode(b).decode("utf-8")] *)
Fixpoint b64encode (b : list Byte.byte) : pystr :=
  match b with
  | [] => []
  | [x] =>
    let x := byte_value x in
    [b64_char (x / 4); b64_char (x mod 4 * 16); 61; 61]
  | [x; y] =>
    let x := byte_value x in
    let y := byte_value y in
    [b64_char (x / 4); b64_char (x mod 4 * 16 + y / 16); b64_char (y mod 16 * 4); 61]
  | x :: y :: z :: r =>
    let x := byte_value x in
    let y := byte_value y in
    let z := byte_value z in
    b64_char (x / 4) :: b64_char (x mod 4 * 16 + y / 16)
      :: b64_char (y mod 16 * 4 + z / 64) :: b64_char (z mod 64) :: b64encode r
  end.

(** The parts of a POSIX path that [pathlib] keeps: those between
    slashes that are neither empty nor a single dot. *)
Definition path_parts (path : pystr) : list pystr :=
  filter (fun part => negb (str_eqb part []) && negb (str_eqb part [46]))
    (split_on 47 path).

(** [Path(path).name] *)
Definition path_name (path : pystr) : pystr := last (path_parts path) [].

(** [Path(path).suffix]: the name from its last dot on, when that dot is
    neither its first nor its last character. *)
Definition path_suffix (path : pystr) : pystr :=
  let name := path_name path in
  match after_last 46 name with
  | Some ext =>
    let i := Z.of_nat (List.length name) - Z.of_nat (List.length ext) - 1 in
    if (0 <? i) && (i <? Z.of_nat (List.length name) - 1) then 46 :: ext else []
  | None => []
  end.

Definition mime_types : list (pystr * pystr) :=
  [(py ".png", py "image/png");
   (py ".jpg", py "image/jpeg");
   (py ".jpeg", py "image/jpeg");
   (py ".webp", py "image/webp");
   (py ".gif", py "image/gif");
   (py ".pdf", py "application/pdf")].

(** [d.get(k, dflt)] for a dict of [str] *)
Fixpoint lookup (d : list (pystr * pystr)) (k dflt : pystr) : pystr :=
  match d with
  | [] => dflt
  | (k', v) :: r => if str_eqb k' k then v else lookup r k dflt
  end.

Section DataUrl.

Variable unicode_lower : pystr -> pystr.
Variable fs : pystr -> fs_entry.

(** The MIME type of line 156. *)
Definition mime_of (file_path : pystr) : pystr :=
  lookup mime_types (str_lower unicode_lower (path_suffix file_path)) (py "image/jpeg").

Definition encode_file_to_dataurl (file_path : pystr) : pystr + file_error :=
  match fs file_path with
  | Absent => inr (FileNotFoundError (py "File not found: " ++ file_path))
  | Unreadable => inr OSError
  | Regular b =>
    inl (py "data:" ++ mime_of file_path ++ py ";base64," ++ b64encode b)
  end.

End DataUrl.

(** ** Numbers in French notation (facture_v1.py, lines 773-796) *)

(** The decimal digits of [n], for [0 <= n], the last one first; [fuel]
    bounds their number. *)
Fixpoint digits_rev (fuel : nat) (n : Z) : pystr :=
  match fuel with
  | O => []
  | S k => (48 + n mod 10) :: (if n <? 10 then [] else digits_rev k (n / 10))
  end.

(** The digits of [n], last first: it has no more decimal digits than
    binary ones. *)
Definition decimal_rev (n : Z) : pystr := digits_rev (S (Z.to_nat (Z.log2 n))) n.

(** [str(n)] for [0 <= n] *)
Definition int_digits (n : Z) : pystr := rev (decimal_rev n).

(** The separators of the format [,] on digits given last first: a comma
    after every three digits that more digits follow. *)
Fixpoint group3_rev (ds : pystr) : pystr :=
  match ds with
  | a :: b :: c :: r =>
    a :: b :: c :: match r with [] => [] | _ :: _ => 44 :: group3_rev r end
  | _ => ds
  end.

(** [f"{n:,}"] for an [int] *)
Definition format_int_grouped (n : Z) : pystr :=
  (if n <? 0 then [45] else []) ++ rev (group3_rev (decimal_rev (Z.abs n))).

(** The integer nearest to [num / den], the even one of two, for [0 < den]. *)
Definition round_half_even (num den : Z) : Z :=
  let q := num / den in
  let r := num mod den in
  if (den <? 2 * r) || ((2 * r =? den) && Z.odd q) then q + 1 else q.

(** The last [d] decimal digits of [n], first one first. *)
Fixpoint fixed_digits (d : nat) (n : Z) : pystr :=
  match d with
  | O => []
  | S k => fixed_digits k (n / 10) ++ [48 + n mod 10]
  end.

(** [format(x, '.df')] for a float and [0 <= d]: the decimal with [d]
    digits after the point nearest to [x], the even one of two. *)
Definition format_fixed (x : pyfloat) (d : Z) : pystr :=
  let point n := if d =? 0 then [] else 46 :: fixed_digits (Z.to_nat d) n in
  match x with
  | S754_nan => py "nan"
  | S754_infinity s => (if s then [45] else []) ++ py "inf"
  | S754_zero s => (if s then [45] else []) ++ [48] ++ point 0
  | S754_finite s m e =>
    let n :=
      if 0 <=? e then Zpos m * 2 ^ e * 10 ^ d
      else round_half_even (Zpos m * 10 ^ d) (2 ^ (- e)) in
    (if s then [45] else []) ++ int_digits (n / 10 ^ d) ++ point (n mod 10 ^ d)
  end.

(** [divmod(x, 1)] for a float, as CPython's [float_divmod] computes it:
    the floor of [x] and what is left, this rounded when [x] is negative
    ([fmod(x, 1.0) + 1.0]); [nan] twice for an infinity. *)
Definition float_divmod_1 (x : pyfloat) : pyfloat * pyfloat :=
  match x with
  | S754_nan | S754_infinity _ => (S754_nan, S754_nan)
  | S754_zero s => (S754_zero s, S754_zero false)
  | S754_finite s m e =>
    if 0 <=? e then (x, S754_zero false)
    else
      let whole := Z.shiftr (Zpos m) (- e) in
      let part := Zpos m mod 2 ^ (- e) in
      if part =? 0 then (x, S754_zero false)
      else if s then (float_of_scaled (- whole - 1) 0, float_of_scaled (2 ^ (- e) - part) e)
      else (float_of_scaled whole 0, float_of_scaled part e)
  end.

Definition missing_precision : exn := ValueError (py "Format specifier missing precision").
Definition precision_too_big : exn := ValueError (py "precision too big").
Definition too_many_digits : exn :=
  ValueError (py "Too many decimal digits in format string").

Section Printing.

Variable host : PyHost.

(** [int(x)] for a number *)
Definition py_int (x : pyval) : result Z :=
  match x with
  | PInt n => Ok n
  | PBool b => Ok (if b then 1 else 0)
  | PFloat f => int_of_float f
  | _ => Raise TypeError
  end.

(** [divmod(x, 1)] for a number *)
Definition py_divmod_1 (x : pyval) : result (pyval * pyval) :=
  match x with
  | PInt n => Ok (PInt n, PInt 0)
  | PBool b => Ok (PInt (if b then 1 else 0), PInt 0)
  | PFloat f => let '(q, r) := float_divmod_1 f in Ok (PFloat q, PFloat r)
  | _ => Raise TypeError
  end.

(** [f"{x:.{d}f}"] for a number and an [int] [d], on a 64-bit build *)
Definition py_format_fixed (x : pyval) (d : Z) : result pystr :=
  if d <? 0 then Raise missing_precision
  else if 9223372036854775807 <? d then Raise too_many_digits
  else if 2147483647 <? d then Raise precision_too_big
  else
    match x with
    | PInt n => f <- float_of_int n ;; Ok (format_fixed f d)
    | PBool b => f <- float_of_int (if b then 1 else 0) ;; Ok (format_fixed f d)
    | PFloat f => Ok (format_fixed f d)
    | _ => Raise TypeError
    end.

(** [f"{n:,}".replace(",", " ")] *)
Definition spaced (n : Z) : pystr := replace_char 44 [32] (format_int_grouped n).

(** [format_fr_pdf(number, decimals)] for an [int] [decimals]. *)
Definition format_fr_pdf (number : pyval) (decimals : Z) : result pystr :=
  match number with
  | PNone => Ok []
  | _ =>
    let as_number : option pyval :=
      match number with
      | PInt _ | PBool _ | PFloat _ => Some number
      | PStr s => option_map PFloat (float_of_str host s)
      | _ => None
      end in
    match as_number with
    | None => py_str host number
    | Some number =>
      if decimals =? 0 then n <- py_int number ;; Ok (spaced n)
      else
        qr <- py_divmod_1 number ;;
        let '(integer, decimal) := qr in
        n <- py_int integer ;;
        let integer_str := spaced n in
        formatted <- py_format_fixed decimal decimals ;;
        match nth_error (split_on 46 formatted) 1 with
        | Some decimal_str => Ok (integer_str ++ [44] ++ decimal_str)
        | None => Raise IndexError
        end
    end
  end.

End Printing.

(** ** Vocabulary of the statements *)

(** The response envelope whose first choice carries [content]. *)
Definition envelope (content : pyval) : pyval :=
  PDict [(py "choices",
          PList [PDict [(py "message", PDict [(py "content", content)])]])].

(** [t] inside a [```json] fence, each mark on a line of its own. *)
Definition wrap_json_fence (t : pystr) : pystr :=
  fence ++ py "json" ++ [10] ++ t ++ [10] ++ fence.

(** [s] has an [o] with a [c] somewhere after it: a substring delimited by
    the two. *)
Definition delimited (o c : Z) (s : pystr) : Prop :=
  exists a b d, s = a ++ o :: b ++ c :: d.

Definition all_space (w : pystr) : Prop := Forall (fun c => is_space c = true) w.

(** The class of an exception, which is what an [except] clause and a
    caller can tell apart without reading the message. *)
Inductive exn_class :=
| ClsValueError
| ClsTypeError
| ClsAttributeError
| ClsKeyError
| ClsIndexError
| ClsOverflowError.

Definition class_of (e : exn) : exn_class :=
  match e with
  | ValueError _ => ClsValueError
  | TypeError => ClsTypeError
  | AttributeError => ClsAttributeError
  | KeyError => ClsKeyError
  | IndexError => ClsIndexError
  | OverflowError => ClsOverflowError
  end.

(** [f] is exactly [num / den], for [0 < den]. *)
Definition float_exactly (f : pyfloat) (num den : Z) : bool :=
  match f with
  | S754_zero _ => num =? 0
  | S754_finite s m e =>
    let a := if s then Zneg m else Zpos m in
    if 0 <=? e then a * 2 ^ e * den =? num else a * den =? num * 2 ^ (- e)
  | _ => false
  end.

(** [f] is a binary64 value within half a unit in the last place of
    [num / den], for [0 < den]: a correct rounding of it. *)
Definition float_rounds (f : pyfloat) (num den : Z) : bool :=
  match f with
  | S754_finite s m e =>
    let a := if s then Zneg m else Zpos m in
    bounded prec emax m e
    && (if 0 <=? e then 2 * Z.abs (a * 2 ^ e * den - num) <=? 2 ^ e * den
        else 2 * Z.abs (a * den - num * 2 ^ (- e)) <=? den)
  | _ => false
  end.

(** The floats the examples name. *)
Definition f5000 : pyfloat := S754_finite false 5497558138880000 (-40).
Definition f1234_56 : pyfloat := S754_finite false 5429652300748554 (-42).
Definition f20_5 : pyfloat := S754_finite false 5770237022568448 (-48).
Definition f5_5 : pyfloat := S754_finite false 6192449487634432 (-50).
Definition f11 : pyfloat := S754_finite false 6192449487634432 (-49).
Definition f20 : pyfloat := S754_finite false 5629499534213120 (-48).
Definition f0_9 : pyfloat := S754_finite false 8106479329266893 (-53).

(** The content of the end-to-end scenario. *)
Definition savon_content : pystr :=
  wrap_json_fence
    (pyq "{~document_type~:~order~,~currency~:~EUR~,~extraction_confidence~:0.9,~items~:[{~Produit~:~Savon~,~Qté~:~2~,~P.U. H.T.~:~5,50~,~Total H.T.~:~11,00~,~Taux TVA~:~20,00%~}]}").

Definition savon_item : pyval :=
  PDict [(py "Produit", PStr (py "Savon"));
         (qty_key, PInt 2);
         (unit_price_key, PFloat f5_5);
         (line_total_key, PFloat f11);
         (vat_key, PFloat f20)].

(** The VAT rate read from the text [t], as lines 254-264 read it. *)
Definition vat_of_text (host : PyHost) (t : pystr) : option pyfloat :=
  let t2 := strip (replace_char 44 [46] t) in
  if contains 37 t
  then float_of_str host (strip (replace_char 37 [] t2))
  else float_of_str host (keep_number_chars host t2).

(** [isinstance(v, (int, float))] *)
Definition is_number (v : pyval) : bool :=
  match v with
  | PInt _ | PFloat _ | PBool _ => true
  | _ => false
  end.

(** [delimited o c s], decided. *)
Fixpoint delimitedb (o c : Z) (s : pystr) : bool :=
  match s with
  | [] => false
  | x :: r => ((x =? o) && contains c r) || delimitedb o c r
  end.

(** Some comma of [s] is followed by blanks, or none, and then a closing
    brace or bracket: the pattern of [remove_trailing_commas] matches
    somewhere in [s]. *)
Fixpoint comma_before_closer (s : pystr) : bool :=
  match s with
  | [] => false
  | c :: r => ((c =? 44) && closer_follows r) || comma_before_closer r
  end.

(** ** Vocabulary of the proofs *)

(** A text that neither starts nor ends with a blank. *)
Definition tight (c : pystr) : Prop :=
  (exists x r, c = x :: r /\ is_space x = false) /\
  (exists p y, c = p ++ [y] /\ is_space y = false).

(** A character that is no blank, no backquote and no byte-order mark. *)
Definition solid (x : Z) : bool :=
  negb (is_space x) && negb (x =? 96) && negb (x =? 65279).

(** A text that starts and ends with a solid character. *)
Definition solid_ends (c : pystr) : Prop :=
  (exists x r, c = x :: r /\ solid x = true) /\
  (exists p y, c = p ++ [y] /\ solid y = true).

Definition json_blank (w : pystr) : Prop := Forall (fun c => is_json_ws c = true) w.

Definition all_digits (ds : pystr) : Prop := Forall (fun c => is_ascii_digit c = true) ds.

(** What may follow a run of digits, a fraction, and a whole number,
    without changing how it is read. *)
Definition nondigit_head (r : pystr) : bool :=
  match r with
  | [] => true
  | x :: _ => negb (is_ascii_digit x)
  end.

Definition frac_follow (r : pystr) : bool :=
  match r with
  | [] => true
  | x :: _ => negb (is_ascii_digit x || (x =? 46))
  end.

Definition follow_ok (r : pystr) : bool :=
  match r with
  | [] => true
  | x :: _ => negb (is_ascii_digit x || (x =? 46) || (x =? 101) || (x =? 69))
  end.

(** Where a scan stops: it read a text [c] whose first and last characters
    are solid, and reads it again whatever follows that a number cannot
    run into. *)
Definition reads {A : Type} (scanner : pystr -> option (A * pystr))
    (s : pystr) (v : A) (rest : pystr) : Prop :=
  exists c, s = c ++ rest /\
    (exists x r, c = x :: r /\ solid x = true) /\
    (exists p y, c = p ++ [y] /\ solid y = true) /\
    forall rest', follow_ok rest' = true -> scanner (c ++ rest') = Some (v, rest').

(** The same for the fuelled scanners: a read is local. *)
Definition once_local (once : pystr -> scan pyval) : Prop :=
  forall s v rest, once s = Scanned v rest ->
    exists c, s = c ++ rest /\
      (exists x r, c = x :: r /\ solid x = true) /\
      (exists p y, c = p ++ [y] /\ solid y = true) /\
      forall rest', follow_ok rest' = true -> once (c ++ rest') = Scanned v rest'.

Definition items_local {A : Type} (closer : Z)
    (items : pystr -> list A -> scan (list A)) : Prop :=
  forall s acc l rest, items s acc = Scanned l rest ->
    exists c, s = c ++ closer :: rest /\
      forall rest', items (c ++ closer :: rest') acc = Scanned l rest'.

(** [g] returns what [f] returns wherever [f] does not run out of fuel. *)
Definition once_grows (f g : pystr -> scan pyval) : Prop :=
  forall s, f s <> Exhausted -> g s = f s.

Definition items_grows {A : Type} (f g : pystr -> list A -> scan (list A)) : Prop :=
  forall s acc, f s acc <> Exhausted -> g s acc = f s acc.

(** [n] units of fuel are enough for every text they are given for. *)
Definition once_enough (n : nat) (once : pystr -> scan pyval) : Prop :=
  forall s, (2 * List.length s + 1 <= n)%nat -> once s <> Exhausted.

Definition items_enough {A : Type} (n : nat)
    (items : pystr -> list A -> scan (list A)) : Prop :=
  forall s acc, (2 * List.length s + 2 <= n)%nat -> items s acc <> Exhausted.

Ltac norm_app := repeat (first [rewrite <- app_assoc | progress cbn [app]]).

(** [s'] is [s] without some of its commas that blanks, or none, and a
    closing brace or bracket follow, and without these blanks. *)
Inductive thinned : pystr -> pystr -> Prop :=
| thinned_nil : thinned [] []
| thinned_keep c s s' : thinned s s' -> thinned (c :: s) (c :: s')
| thinned_drop ws d s s' :
    all_space ws -> is_closer d = true -> thinned s s' ->
    thinned (44 :: ws ++ d :: s) (d :: s').

(** A character a JSON value can start with is no blank, no closer and no
    comma. *)
Definition value_head (y : Z) : bool :=
  negb (is_space y) && negb (is_closer y) && negb (y =? 44).

(** What follows a value inside valid JSON: blanks, and then a comma, a
    closer or the end. *)
Definition ends_value (rest : pystr) : bool :=
  match skip_ws rest with
  | [] => true
  | x :: _ => (x =? 44) || is_closer x
  end.

(** A character of the text of a number or of a named constant. *)
Definition atom_char (x : Z) : Prop := x <> 44.

Definition once_thin (once : pystr -> scan pyval) : Prop :=
  forall s s' v rest, thinned s s' -> once s = Scanned v rest -> ends_value rest = true ->
    exists v' rest', once s' = Scanned v' rest' /\ thinned rest rest'.

Definition items_thin {A : Type} (items : pystr -> list A -> scan (list A)) : Prop :=
  forall s s' acc acc' l rest, thinned s s' -> items s acc = Scanned l rest ->
    exists l' rest', items s' acc' = Scanned l' rest' /\ thinned rest rest'.

Definition once_head (once : pystr -> scan pyval) : Prop :=
  forall s v rest, once s = Scanned v rest -> exists y r, s = y :: r /\ value_head y = true.

Definition items_head {A : Type} (items : pystr -> list A -> scan (list A)) : Prop :=
  forall s acc l rest, items s acc = Scanned l rest ->
    exists y r, s = y :: r /\ value_head y = true.

(** ** Vocabulary of the further properties *)

(** *** Of the tolerant extractor *)

(** A character the opening mark of a fence is made of: a blank, a
    backquote, or a letter of [json] in either case. *)
Definition fence_open_char (c : Z) : bool :=
  is_space c || (c =? 96)
  || matches_ci 106 c || matches_ci 115 c || matches_ci 111 c || matches_ci 110 c.

(** A character the closing mark of a fence is made of. *)
Definition fence_close_char (c : Z) : bool := is_space c || (c =? 96).


(** No blank ends [s]. *)
Definition no_trailing_space (s : pystr) : Prop :=
  forall p y, s = p ++ [y] -> is_space y = false.

(** An opening brace or bracket, and a closing one. *)
Definition is_opener (c : Z) : bool := (c =? 123) || (c =? 91).

(** [s] has [t] in it, with [P] holding of what is before [t] and [Q] of
    what is after it. *)
Definition inside (P Q : Z -> Prop) (t s : pystr) : Prop :=
  exists p q, s = p ++ t ++ q /\ Forall P p /\ Forall Q q.

(** The closer of an opener. *)
Definition closer_of (o : Z) : Z := if o =? 123 then 125 else 93.

(** What may follow the opening backquotes of a fence: nothing, or the
    word [json] in any mix of cases. *)
Definition fence_tag (tag : pystr) : Prop :=
  tag = [] \/ Forall2 (fun letter c => matches_ci letter c = true) (py "json") tag.

(** What may close a fenced text: the three backquotes, or nothing at all
    (an answer cut short). *)
Definition fence_end (close : pystr) : Prop := close = fence \/ close = [].

(** *** Of the number normalizer *)

(** A character [normalize_number] reads in a text: a decimal digit, a
    comma, a dot or a minus sign. *)
Definition is_number_char (host : PyHost) (c : Z) : bool :=
  is_decimal host c || (c =? 44) || (c =? 46) || (c =? 45).

(** No blank is a decimal digit for the host, as in the Unicode database. *)
Definition blanks_are_no_digits (host : PyHost) : Prop :=
  forall c, is_space c = true -> is_decimal host c = false.

(** What one character of the text becomes on the way to [float]: [both]
    tells that the text has a comma and a dot. *)
Definition number_char_text (host : PyHost) (both : bool) (c : Z) : pystr :=
  if is_decimal host c || (c =? 45) then [c]
  else if c =? 44 then [46]
  else if c =? 46 then (if both then [] else [46])
  else [].

(** The text [normalize_number] hands to [float] for the text [s]. *)
Definition number_text (host : PyHost) (s : pystr) : pystr :=
  flat_map (number_char_text host (contains 44 s && contains 46 s)) s.

(** The text after its blanks are taken out, as line 123 does. *)
Definition despaced (s : pystr) : pystr :=
  replace_char 32 [] (replace_char 160 [32] (strip s)).

(** An ASCII digit, a dot or a minus sign. *)
Definition is_plain (c : Z) : bool := is_ascii_digit c || (c =? 46) || (c =? 45).

Definition all_plain (s : pystr) : Prop := Forall (fun c => is_plain c = true) s.

Definition no_space (s : pystr) : Prop := Forall (fun c => is_space c = false) s.

(** *** Of the mapper *)

(** A field the loop of [extract_order_data] may write. *)
Definition is_normalised_key (k : pystr) : bool :=
  str_eqb qty_key k || str_eqb unit_price_key k || str_eqb line_total_key k
  || str_eqb vat_key k.

(** An item and what the loop made of it: a dict with the same fields in
    the same order, and the same values for all but the four fields the
    loop writes. *)
Definition same_shape (x y : pyval) : Prop :=
  exists dx dy,
    x = PDict dx /\ y = PDict dy /\
    List.map fst dy = List.map fst dx /\
    forall k, is_normalised_key k = false -> dict_get dy k = dict_get dx k.

(** No value, [None], or an [int]. *)
Definition int_or_none (o : option pyval) : Prop :=
  o = None \/ o = Some PNone \/ exists n, o = Some (PInt n).

(** No value, [None], or a [float]. *)
Definition float_or_none (o : option pyval) : Prop :=
  o = None \/ o = Some PNone \/ exists f, o = Some (PFloat f).

(** An item after the loop: quantity an [int], amounts [float]s, each
    unless missing or [None], and a VAT rate that is no text. *)
Definition normalised_item (y : pyval) : Prop :=
  exists dy,
    y = PDict dy /\
    int_or_none (dict_get dy qty_key) /\
    float_or_none (dict_get dy unit_price_key) /\
    float_or_none (dict_get dy line_total_key) /\
    forall t, dict_get dy vat_key <> Some (PStr t).

(** *** Of the numbers in French notation *)

(** What follows the whole part: nothing for no decimals, and a comma and
    zeros otherwise. *)
Definition zero_decimals (d : Z) : pystr :=
  if d =? 0 then [] else 44 :: repeat 48 (Z.to_nat d).

(** A character of a number in French notation: a digit, a space, a
    comma or a minus sign. *)
Definition is_french (c : Z) : bool :=
  is_ascii_digit c || (c =? 32) || (c =? 44) || (c =? 45).

(** The sign of [n] as [format] writes it. *)
Definition sign_text (n : Z) : pystr := if n <? 0 then [45] else [].

(** The digits of [n] in groups of three with a space between them, the
    last digit first. *)
Definition grouped_rev (n : Z) : pystr :=
  replace_char 44 [32] (group3_rev (decimal_rev (Z.abs n))).

(** *** Of the data URLs *)

(** The place of a character in the base64 alphabet. *)
Definition b64_index (c : Z) : Z :=
  if (65 <=? c) && (c <=? 90) then c - 65
  else if (97 <=? c) && (c <=? 122) then c - 71
  else if (48 <=? c) && (c <=? 57) then c + 4
  else if c =? 43 then 62
  else 63.

Definition byte_of_value (x : Z) : Byte.byte :=
  match Byte.of_N (Z.to_N x) with
  | Some b => b
  | None => Byte.x00
  end.

(** Standard base64 decoding of a padded text. *)
Fixpoint b64decode (s : pystr) : list Byte.byte :=
  match s with
  | c1 :: c2 :: c3 :: c4 :: r =>
    let i1 := b64_index c1 in
    let i2 := b64_index c2 in
    let i3 := b64_index c3 in
    let i4 := b64_index c4 in
    if c3 =? 61 then [byte_of_value (i1 * 4 + i2 / 16)]
    else if c4 =? 61 then
      [byte_of_value (i1 * 4 + i2 / 16); byte_of_value (i2 mod 16 * 16 + i3 / 4)]
    else
      byte_of_value (i1 * 4 + i2 / 16) :: byte_of_value (i2 mod 16 * 16 + i3 / 4)
        :: byte_of_value (i3 mod 4 * 64 + i4) :: b64decode r
  | _ => []
  end.

(** A character of a base64 text: of the alphabet, or the padding. *)
Definition is_b64 (c : Z) : bool :=
  ((65 <=? c) && (c <=? 90)) || ((97 <=? c) && (c <=? 122))
  || ((48 <=? c) && (c <=? 57)) || (c =? 43) || (c =? 47) || (c =? 61).

(** The MIME types a data URL can name. *)
Definition mime_values : list pystr :=
  [py "image/png"; py "image/jpeg"; py "image/webp"; py "image/gif";
   py "application/pdf"].

Ltac by_cases :=
  repeat match goal with
         | |- context [if ?c then _ else _] => destruct c eqn:?
         end; lia.

Ltac sextets :=
  repeat match goal with
         | H : 0 <= _ < 256 |- _ => revert H
         end;
  intros; Z.div_mod_to_equations; lia.

(** * Proofs *)

(** ** Lists of code points *)

Lemma str_eqb_eq (a b : pystr) : str_eqb a b = true <-> a = b.
Proof.
  revert b; induction a as [|x a IH]; intros [|y b]; simpl; split; intro H;
    try reflexivity; try discriminate.
  - apply andb_true_iff in H as [Hx Hr]. apply Z.eqb_eq in Hx.
    apply IH in Hr. now subst.
  - injection H as -> ->. rewrite Z.eqb_refl. simpl. now apply IH.
Qed.

Lemma str_eqb_refl (a : pystr) : str_eqb a a = true.
Proof. now apply str_eqb_eq. Qed.

(** ** dict *)

Lemma dict_get_set_same d k v : dict_get (dict_set d k v) k = Some v.
Proof.
  induction d as [|[k' v'] d IH]; simpl.
  - now rewrite str_eqb_refl.
  - destruct (str_eqb k' k) eqn:E; simpl; rewrite E; auto.
Qed.

Lemma dict_get_set_other d k v k' :
  str_eqb k k' = false -> dict_get (dict_set d k v) k' = dict_get d k'.
Proof.
  intros Hk. induction d as [|[k0 v0] d IH]; simpl.
  - now rewrite Hk.
  - destruct (str_eqb k0 k) eqn:E; simpl.
    + apply str_eqb_eq in E. subst k0. now rewrite Hk.
    + now rewrite IH.
Qed.

(** ** The body of the loop, step by step *)

Section MapperFacts.

Variable host : PyHost.

Lemma normalize_amount_other field d d1 k :
  normalize_amount host field d = Ok d1 ->
  str_eqb field k = false ->
  dict_get d1 k = dict_get d k.
Proof.
  unfold normalize_amount. intros H Hk.
  destruct (dict_get d field) as [v|] eqn:G.
  - destruct v; try (injection H as <-; reflexivity);
      (destruct (normalize_number host _); simpl in H; [|discriminate];
       injection H as <-; now apply dict_get_set_other).
  - now injection H as <-.
Qed.

Lemma normalize_quantity_other d d1 k :
  normalize_quantity host d = Ok d1 ->
  str_eqb qty_key k = false ->
  dict_get d1 k = dict_get d k.
Proof.
  unfold normalize_quantity. intros H Hk.
  destruct (dict_get d qty_key) as [v|] eqn:G.
  - destruct v; try (injection H as <-; reflexivity);
      (destruct (normalize_number host _); simpl in H; [|discriminate];
       destruct (int_or_zero _); simpl in H; [|discriminate];
       injection H as <-; now apply dict_get_set_other).
  - now injection H as <-.
Qed.

Lemma normalize_vat_other d k :
  str_eqb vat_key k = false ->
  dict_get (normalize_vat host d) k = dict_get d k.
Proof.
  unfold normalize_vat. intros Hk.
  destruct (dict_get d vat_key) as [[| | | |t| |]|]; try reflexivity.
  destruct (contains 37 _); cbv iota; now apply dict_get_set_other.
Qed.

(** The loop body, one step after the other. *)
Lemma normalize_item_steps d r :
  normalize_item host (PDict d) = Ok r ->
  exists d1 d2 d3,
    normalize_quantity host d = Ok d1 /\
    normalize_amount host unit_price_key d1 = Ok d2 /\
    normalize_amount host line_total_key d2 = Ok d3 /\
    r = PDict (normalize_vat host d3).
Proof.
  unfold normalize_item. intros H.
  destruct (normalize_quantity host d) as [d1|] eqn:E1; simpl in H; [|discriminate].
  destruct (normalize_amount host unit_price_key d1) as [d2|] eqn:E2; simpl in H;
    [|discriminate].
  destruct (normalize_amount host line_total_key d2) as [d3|] eqn:E3; simpl in H;
    [|discriminate].
  injection H as <-. now exists d1, d2, d3.
Qed.

End MapperFacts.

(** ** The percent sign of a VAT text *)

Lemma contains_app c a b : contains c (a ++ b) = contains c a || contains c b.
Proof. unfold contains. apply existsb_app. Qed.

Lemma contains_rev c s : contains c (rev s) = contains c s.
Proof.
  induction s as [|x s IH]; simpl; [reflexivity|].
  rewrite contains_app, IH. simpl. rewrite orb_false_r. apply orb_comm.
Qed.

Lemma contains_lstrip c s : is_space c = false -> contains c (lstrip s) = contains c s.
Proof.
  intros Hc. induction s as [|x s IH]; simpl; [reflexivity|].
  destruct (is_space x) eqn:E; [|reflexivity].
  rewrite IH. destruct (c =? x) eqn:Ex; [|reflexivity].
  apply Z.eqb_eq in Ex. congruence.
Qed.

Lemma contains_strip c s : is_space c = false -> contains c (strip s) = contains c s.
Proof.
  intros Hc. unfold strip, rstrip.
  now rewrite contains_rev, contains_lstrip, contains_rev, contains_lstrip.
Qed.

Lemma contains_replace_other c x new s :
  (c =? x) = false -> contains c new = false ->
  contains c (replace_char x new s) = contains c s.
Proof.
  intros Hx Hn. induction s as [|y s IH]; simpl; [reflexivity|].
  unfold replace_char in *. simpl. rewrite contains_app, IH.
  destruct (y =? x) eqn:E.
  - apply Z.eqb_eq in E. subst y. now rewrite Hn, Hx.
  - simpl. now rewrite orb_false_r.
Qed.

(** The percent sign of a VAT text is seen after its commas are dots and
    its ends are stripped exactly when it is in the text. *)
Lemma percent_after_cleanup t :
  contains 37 (strip (replace_char 44 [46] t)) = contains 37 t.
Proof.
  rewrite contains_strip by reflexivity.
  now apply contains_replace_other.
Qed.

Lemma normalize_vat_text host d t :
  dict_get d vat_key = Some (PStr t) ->
  normalize_vat host d = dict_set d vat_key (of_option_float (vat_of_text host t)).
Proof.
  intros H. unfold normalize_vat, vat_of_text. rewrite H, percent_after_cleanup.
  now destruct (contains 37 t).
Qed.

Lemma normalize_vat_number host d v :
  dict_get d vat_key = Some v -> is_number v = true -> normalize_vat host d = d.
Proof.
  intros H Hn. unfold normalize_vat. rewrite H. now destruct v.
Qed.

(** ** The envelope *)

Lemma parse_llm_response_envelope host content :
  parse_llm_response host (envelope (PStr content))
  = tolerant_parse_json_from_text host content.
Proof. reflexivity. Qed.

#[local] Arguments Z.eqb : simpl never.
#[local] Arguments Z.leb : simpl never.
#[local] Arguments Z.ltb : simpl never.
#[local] Arguments take_sign : simpl never.
#[local] Arguments hex4 : simpl never.
#[local] Arguments simple_escape : simpl never.
#[local] Arguments is_low_surrogate : simpl never.
#[local] Arguments is_high_surrogate : simpl never.

(** ** Stripping *)

Lemma lstrip_app_space w s : all_space w -> lstrip (w ++ s) = lstrip s.
Proof. induction 1 as [|x w Hx _ IH]; simpl; [reflexivity|]. now rewrite Hx. Qed.

Lemma lstrip_solid x r : is_space x = false -> lstrip (x :: r) = x :: r.
Proof. intros H. simpl. now rewrite H. Qed.

Lemma all_space_rev w : all_space w -> all_space (rev w).
Proof. apply Forall_rev. Qed.

Lemma rstrip_app_space s w : all_space w -> rstrip (s ++ w) = rstrip s.
Proof.
  intros H. unfold rstrip. rewrite rev_app_distr, lstrip_app_space; auto using all_space_rev.
Qed.

Lemma rstrip_solid p y : is_space y = false -> rstrip (p ++ [y]) = p ++ [y].
Proof.
  intros H. unfold rstrip. rewrite rev_app_distr. simpl. rewrite H.
  simpl. now rewrite rev_involutive.
Qed.

Lemma strip_tight c : tight c -> strip c = c.
Proof.
  intros [(x & r & -> & Hx) (p & y & E & Hy)]. unfold strip.
  rewrite lstrip_solid by assumption. rewrite E. now apply rstrip_solid.
Qed.

Lemma strip_core w1 c w2 :
  all_space w1 -> all_space w2 -> tight c -> strip (w1 ++ c ++ w2) = c.
Proof.
  intros H1 H2 Hc. unfold strip. rewrite lstrip_app_space by assumption.
  destruct Hc as [(x & r & -> & Hx) (p & y & E & Hy)].
  simpl app. rewrite lstrip_solid by assumption.
  change (x :: r ++ w2) with ((x :: r) ++ w2).
  rewrite rstrip_app_space by assumption. rewrite E. now apply rstrip_solid.
Qed.

(** What [lstrip] leaves of a text with a solid character in it still has
    that character and all after it. *)
Lemma lstrip_keeps q y z :
  is_space y = false -> exists q', lstrip (q ++ y :: z) = q' ++ y :: z.
Proof.
  intros Hy. induction q as [|x q IH]; simpl.
  - exists []. now rewrite Hy.
  - destruct (is_space x); [exact IH|]. now exists (x :: q).
Qed.

(** ** The fence marks *)

Lemma sub_fence_open_id x r : x <> 96 -> sub_fence_open (x :: r) = x :: r.
Proof.
  intros H. unfold sub_fence_open, fence. simpl.
  destruct (96 =? x) eqn:E; [lia|reflexivity].
Qed.

Lemma fence_close_at_none q y z :
  is_space y = false ->
  (forall q', q' ++ y :: z <> fence) ->
  (forall q', q' ++ y :: z <> fence ++ [10]) ->
  fence_close_at (q ++ y :: z) = None.
Proof.
  intros Hy H1 H2. unfold fence_close_at.
  destruct (lstrip_keeps q y z Hy) as [q' ->].
  destruct (str_eqb (q' ++ y :: z) fence) eqn:E1.
  { apply str_eqb_eq in E1. now destruct (H1 q'). }
  destruct (str_eqb (q' ++ y :: z) (fence ++ [10])) eqn:E2.
  { apply str_eqb_eq in E2. now destruct (H2 q'). }
  reflexivity.
Qed.

Lemma sub_fence_close_step x r :
  fence_close_at (x :: r) = None -> sub_fence_close (x :: r) = x :: sub_fence_close r.
Proof. intros H. simpl. now rewrite H. Qed.

Lemma sub_fence_close_keep p y :
  is_space y = false -> y <> 96 -> sub_fence_close (p ++ [y]) = p ++ [y].
Proof.
  intros Hy Hb.
  assert (Hnone : forall q, fence_close_at (q ++ [y]) = None).
  { intros q. apply fence_close_at_none; [assumption| |].
    - intros q' E. change fence with ([96; 96] ++ [96]) in E.
      apply app_inj_tail in E. tauto.
    - intros q' E. apply app_inj_tail in E. destruct E as [_ ->]. discriminate Hy. }
  induction p as [|x p IH].
  - cbn [app]. rewrite (sub_fence_close_step y [] (Hnone [])). reflexivity.
  - change ((x :: p) ++ [y]) with (x :: (p ++ [y])).
    rewrite (sub_fence_close_step x (p ++ [y]) (Hnone (x :: p))). now rewrite IH.
Qed.

Lemma sub_fence_close_cut p y w :
  is_space y = false -> all_space w ->
  sub_fence_close (p ++ [y] ++ w ++ fence) = p ++ [y].
Proof.
  intros Hy Hw.
  assert (Hnone : forall q, fence_close_at (q ++ y :: w ++ fence) = None).
  { intros q. apply fence_close_at_none; [assumption| |].
    - intros q' E. apply (f_equal (@List.length Z)) in E.
      rewrite length_app in E. simpl in E. rewrite length_app in E. simpl in E. lia.
    - intros q' E.
      change (y :: w ++ fence) with ((y :: w) ++ [96; 96] ++ [96]) in E.
      rewrite !app_assoc in E. apply app_inj_tail in E. destruct E as [_ E]. discriminate. }
  assert (Hend : sub_fence_close (w ++ fence) = []).
  { destruct w as [|a w'].
    - reflexivity.
    - change ((a :: w') ++ fence) with (a :: (w' ++ fence)).
      cbn [sub_fence_close]. unfold fence_close_at.
      change (a :: w' ++ fence) with ((a :: w') ++ fence).
      rewrite lstrip_app_space by assumption. reflexivity. }
  induction p as [|x p IH].
  - change ([] ++ [y] ++ w ++ fence) with (y :: w ++ fence).
    rewrite (sub_fence_close_step y (w ++ fence) (Hnone [])). now rewrite Hend.
  - change ((x :: p) ++ [y] ++ w ++ fence) with (x :: (p ++ y :: w ++ fence)).
    rewrite (sub_fence_close_step x (p ++ y :: w ++ fence) (Hnone (x :: p))).
    change (p ++ y :: w ++ fence) with (p ++ [y] ++ w ++ fence). now rewrite IH.
Qed.

(** ** Numbers: what a scan reads of a text does not depend on what follows *)

Lemma follow_ok_nondigit r : follow_ok r = true -> nondigit_head r = true.
Proof. destruct r as [|x r]; simpl; [reflexivity|]. lia. Qed.

Lemma frac_follow_nondigit r : frac_follow r = true -> nondigit_head r = true.
Proof. destruct r as [|x r]; simpl; [reflexivity|]. lia. Qed.

Lemma follow_ok_frac r : follow_ok r = true -> frac_follow r = true.
Proof. destruct r as [|x r]; simpl; [reflexivity|]. lia. Qed.

Lemma span_digits_split s : forall ds r,
  span_digits s = (ds, r) -> s = ds ++ r /\ all_digits ds.
Proof.
  induction s as [|c s IH]; simpl; intros ds r H.
  - injection H as <- <-. split; [reflexivity|constructor].
  - destruct (is_ascii_digit c) eqn:E.
    + destruct (span_digits s) as [ds' r'] eqn:Es. injection H as <- <-.
      destruct (IH _ _ eq_refl) as [-> Hd]. split; [reflexivity|now constructor].
    + injection H as <- <-. split; [reflexivity|constructor].
Qed.

Lemma span_digits_local ds r' :
  all_digits ds -> nondigit_head r' = true -> span_digits (ds ++ r') = (ds, r').
Proof.
  intros Hd Hr. induction Hd as [|d ds Hx _ IH]; simpl.
  - destruct r' as [|x r']; [reflexivity|]. simpl in *.
    destruct (is_ascii_digit x); [discriminate|reflexivity].
  - now rewrite Hx, IH.
Qed.

Lemma last_digit ds :
  ds <> [] -> all_digits ds -> exists p y, ds = p ++ [y] /\ is_ascii_digit y = true.
Proof.
  intros Hne Hd. destruct (exists_last Hne) as (p & y & ->).
  exists p, y. split; [reflexivity|].
  apply Forall_app in Hd as [_ Hy]. now inversion Hy.
Qed.

Lemma int_part_local s ip r :
  int_part s = Some (ip, r) ->
  s = ip ++ r /\ (exists d q, ip = d :: q /\ is_ascii_digit d = true) /\ all_digits ip /\
  forall r', nondigit_head r' = true -> int_part (ip ++ r') = Some (ip, r').
Proof.
  unfold int_part. destruct s as [|c s]; [discriminate|].
  destruct (c =? 48) eqn:E0.
  - intros H. injection H as <- <-. assert (c = 48) as -> by lia.
    repeat split.
    + now exists 48, [].
    + repeat constructor.
  - destruct (is_ascii_digit c) eqn:Ed; [|discriminate].
    destruct (span_digits s) as [ds r0] eqn:Es. intros H. injection H as <- <-.
    destruct (span_digits_split _ _ _ Es) as [-> Hd].
    repeat split.
    + now exists c, ds.
    + now constructor.
    + intros r' Hr. simpl. rewrite E0, Ed, span_digits_local by assumption. reflexivity.
Qed.

Lemma frac_part_local s fp r :
  frac_part s = (fp, r) ->
  exists c, s = c ++ r /\
    ((c = [] /\ fp = []) \/ (c = 46 :: fp /\ fp <> [] /\ all_digits fp)) /\
    forall r', frac_follow r' = true -> frac_part (c ++ r') = (fp, r').
Proof.
  assert (Hnone : forall r', frac_follow r' = true -> frac_part r' = ([], r')).
  { intros [|x [|y r']] Hr; try reflexivity. simpl in *.
    destruct ((x =? 46) && is_ascii_digit y) eqn:E; [lia|reflexivity]. }
  unfold frac_part. destruct s as [|p [|d s]].
  - intros H. injection H as <- <-. exists []. split; [reflexivity|]. split; [now left|].
    exact Hnone.
  - intros H. injection H as <- <-. exists []. split; [reflexivity|]. split; [now left|].
    exact Hnone.
  - destruct ((p =? 46) && is_ascii_digit d) eqn:E.
    + destruct (span_digits s) as [ds r0] eqn:Es. intros H. injection H as <- <-.
      destruct (span_digits_split _ _ _ Es) as [-> Hd].
      assert (p = 46) as -> by lia. assert (Hdd : is_ascii_digit d = true) by lia.
      exists (46 :: d :: ds). split; [reflexivity|]. split.
      * right. split; [reflexivity|]. split; [discriminate|now constructor].
      * intros r' Hr. simpl. rewrite Hdd. simpl.
        rewrite span_digits_local; auto using frac_follow_nondigit.
    + intros H. injection H as <- <-. exists []. split; [reflexivity|].
      split; [now left|]. exact Hnone.
Qed.

Lemma take_sign_split plus s neg r :
  take_sign plus s = (neg, r) ->
  (s = r /\ neg = false /\ nondigit_head r = true
     \/
   s = r /\ neg = false /\ exists d q, r = d :: q /\ is_ascii_digit d = true)
  \/ (exists c, s = c :: r /\ ((c =? 45) || (plus && (c =? 43))) = true /\
        forall r', take_sign plus (c :: r') = (neg, r')).
Proof.
  unfold take_sign. destruct s as [|c s].
  - intros H. injection H as <- <-. left. now left.
  - destruct (c =? 45) eqn:E1.
    + intros H. injection H as <- <-. right. exists c. repeat split; [lia|].
      intros r'. now rewrite E1.
    + destruct (plus && (c =? 43)) eqn:E2.
      * intros H. injection H as <- <-. right. exists c. repeat split; [lia|].
        intros r'. now rewrite E1, E2.
      * intros H. injection H as <- <-. left.
        destruct (is_ascii_digit c) eqn:Ed.
        -- right. repeat split. now exists c, s.
        -- left. repeat split. simpl. now rewrite Ed.
Qed.

Lemma take_sign_digit plus d q :
  is_ascii_digit d = true -> take_sign plus (d :: q) = (false, d :: q).
Proof.
  intros Hd. unfold take_sign.
  destruct (d =? 45) eqn:E1; [unfold is_ascii_digit in Hd; lia|].
  destruct (plus && (d =? 43)) eqn:E2; [unfold is_ascii_digit in Hd; lia|reflexivity].
Qed.

Lemma exp_part_local s ex r :
  exp_part s = (ex, r) ->
  exists c, s = c ++ r /\
    ((c = [] /\ ex = None) \/
     (exists e q d, c = e :: q ++ [d] /\ ((e =? 101) || (e =? 69)) = true /\
                    is_ascii_digit d = true)) /\
    forall r', follow_ok r' = true -> exp_part (c ++ r') = (ex, r').
Proof.
  assert (Hnone : forall r', follow_ok r' = true -> exp_part r' = (None, r')).
  { intros [|x r'] Hr; [reflexivity|]. simpl in *.
    destruct ((x =? 101) || (x =? 69)) eqn:E; [lia|reflexivity]. }
  unfold exp_part. destruct s as [|e s].
  { intros H. injection H as <- <-. exists []. split; [reflexivity|]. split; [now left|].
    exact Hnone. }
  destruct ((e =? 101) || (e =? 69)) eqn:Ee.
  2:{ intros H. injection H as <- <-. exists []. split; [reflexivity|]. split; [now left|].
      exact Hnone. }
  destruct (take_sign true s) as [eneg r1] eqn:Et.
  destruct (span_digits r1) as [ds r2] eqn:Es.
  destruct (span_digits_split _ _ _ Es) as [-> Hd].
  destruct ds as [|d ds].
  { intros H. injection H as <- <-. exists []. split; [reflexivity|]. split; [now left|].
    exact Hnone. }
  intros H. injection H as <- <-.
  destruct (last_digit (d :: ds) ltac:(discriminate) Hd) as (p & y & Ep & Hy).
  destruct (take_sign_split _ _ _ _ Et) as [[(-> & -> & Hh) | (-> & -> & _)] | (c & -> & Hc & Hs)].
  - inversion Hd as [|? ? Hdd _]; subst. simpl in Hh. rewrite Hdd in Hh. discriminate.
  - exists (e :: d :: ds). split; [reflexivity|]. split.
    + right. exists e, p, y. split; [|now split]. now rewrite <- Ep.
    + intros r' Hr. cbn [app]. unfold exp_part. rewrite Ee.
      inversion Hd; subst.
      rewrite take_sign_digit by assumption.
      change (d :: ds ++ r') with ((d :: ds) ++ r').
      rewrite span_digits_local; auto using follow_ok_nondigit.
  - exists (e :: c :: d :: ds). split; [reflexivity|]. split.
    + right. exists e, (c :: p), y. split; [|now split]. simpl. now rewrite <- Ep.
    + intros r' Hr. cbn [app]. unfold exp_part. rewrite Ee, Hs.
      change (d :: ds ++ r') with ((d :: ds) ++ r').
      rewrite span_digits_local; auto using follow_ok_nondigit.
Qed.

Lemma digit_solid d : is_ascii_digit d = true -> solid d = true.
Proof. unfold is_ascii_digit, solid, is_space. lia. Qed.

Lemma match_number_local s v rest :
  match_number s = Some (v, rest) ->
  exists c, s = c ++ rest /\
    ((exists d q, c = d :: q /\ is_ascii_digit d = true) \/
     (exists d q, c = 45 :: d :: q /\ is_ascii_digit d = true)) /\
    (exists p y, c = p ++ [y] /\ is_ascii_digit y = true) /\
    forall rest', follow_ok rest' = true -> match_number (c ++ rest') = Some (v, rest').
Proof.
  unfold match_number.
  destruct (take_sign false s) as [neg s1] eqn:Et.
  destruct (int_part s1) as [[ip s2]|] eqn:Ei; [|discriminate].
  destruct (frac_part s2) as [fp s3] eqn:Ef.
  destruct (exp_part s3) as [ex s4] eqn:Ee.
  intros H.
  set (value := fun X : pystr =>
         match fp, ex with
         | [], None => Some (PInt (if neg then - digits_value 0 ip else digits_value 0 ip), X)
         | _, _ =>
           Some (PFloat (float_of_decimal neg (digits_value 0 (ip ++ fp))
                           (match ex with Some e => e | None => 0 end
                            - Z.of_nat (List.length fp))), X)
         end).
  assert (Hv : rest = s4 /\ forall X, value X = Some (v, X)).
  { subst value. destruct fp, ex; injection H as <- <-; split; reflexivity. }
  destruct Hv as [-> Hv]. clear H.
  destruct (int_part_local _ _ _ Ei) as (-> & (d & q & -> & Hd) & Hip & Li).
  destruct (frac_part_local _ _ _ Ef) as (cf & -> & Hcf & Lf).
  destruct (exp_part_local _ _ _ Ee) as (ce & -> & Hce & Le).
  (* what may follow the integer part and the fraction *)
  assert (Fe : forall rest', follow_ok rest' = true -> frac_follow (ce ++ rest') = true).
  { intros rest' Hr. destruct Hce as [[-> _] | (e & q' & y & -> & He & _)].
    - now apply follow_ok_frac.
    - simpl. unfold is_ascii_digit. lia. }
  assert (Fi : forall rest', follow_ok rest' = true ->
                 nondigit_head (cf ++ ce ++ rest') = true).
  { intros rest' Hr. destruct Hcf as [[-> _] | (-> & _ & _)].
    - apply frac_follow_nondigit. now apply Fe.
    - reflexivity. }
  (* the last character read *)
  assert (Hlast : exists p y, (d :: q) ++ cf ++ ce = p ++ [y] /\ is_ascii_digit y = true).
  { destruct Hce as [[-> _] | (e & q' & y & -> & _ & Hy)].
    - rewrite app_nil_r. destruct Hcf as [[-> _] | (-> & Hne & Hfd)].
      + rewrite app_nil_r. apply last_digit; [discriminate|assumption].
      + destruct (last_digit fp Hne Hfd) as (p & y & -> & Hy).
        exists ((d :: q) ++ 46 :: p), y. split; [|assumption].
        now rewrite <- app_assoc.
    - exists ((d :: q) ++ cf ++ e :: q'), y. split; [|assumption].
      now rewrite <- !app_assoc. }
  assert (Hrun : forall rest', follow_ok rest' = true ->
            match int_part ((d :: q) ++ cf ++ ce ++ rest') with
            | None => None
            | Some (ip, s2) =>
              let '(fp, s3) := frac_part s2 in
              let '(ex, s4) := exp_part s3 in
              match fp, ex with
              | [], None =>
                Some (PInt (if neg then - digits_value 0 ip else digits_value 0 ip), s4)
              | _, _ =>
                Some (PFloat (float_of_decimal neg (digits_value 0 (ip ++ fp))
                                (match ex with Some e => e | None => 0 end
                                 - Z.of_nat (List.length fp))), s4)
              end
            end = Some (v, rest')).
  { intros rest' Hr. rewrite (Li _ (Fi _ Hr)), (Lf _ (Fe _ Hr)), (Le _ Hr).
    apply (Hv rest'). }
  destruct (take_sign_split _ _ _ _ Et) as [[(-> & -> & _) | (-> & -> & _)] | (c & -> & Hc & Hs)].
  - exists ((d :: q) ++ cf ++ ce). split; [now rewrite <- !app_assoc|].
    split; [left; now exists d, (q ++ cf ++ ce)|]. split; [exact Hlast|].
    intros rest' Hr. rewrite <- !app_assoc. cbn [app].
    rewrite take_sign_digit by assumption. apply (Hrun rest' Hr).
  - exists ((d :: q) ++ cf ++ ce). split; [now rewrite <- !app_assoc|].
    split; [left; now exists d, (q ++ cf ++ ce)|]. split; [exact Hlast|].
    intros rest' Hr. rewrite <- !app_assoc. cbn [app].
    rewrite take_sign_digit by assumption. apply (Hrun rest' Hr).
  - assert (c = 45) as -> by lia.
    exists (45 :: (d :: q) ++ cf ++ ce). split; [cbn [app]; now rewrite <- !app_assoc|].
    split; [right; now exists d, (q ++ cf ++ ce)|]. split.
    + destruct Hlast as (p & y & E & Hy). exists (45 :: p), y. split; [|assumption].
      cbn [app]. f_equal. exact E.
    + intros rest' Hr. cbn [app]. rewrite <- !app_assoc. cbn [app].
      rewrite Hs. apply (Hrun rest' Hr).
Qed.

(** ** Strings and constants *)

Lemma scanstring_local n : forall s acc pending str rest,
  (List.length s <= n)%nat ->
  scanstring s acc pending = Some (str, rest) ->
  exists c, s = c ++ 34 :: rest /\
    forall rest', scanstring (c ++ 34 :: rest') acc pending = Some (str, rest').
Proof.
  induction n as [|n IH]; intros s acc pending str rest Hlen H.
  { destruct s; [discriminate|simpl in Hlen; lia]. }
  destruct s as [|c r]; [discriminate|]. simpl in Hlen. simpl in H.
  destruct (c =? 34) eqn:E34.
  { injection H as <- <-. assert (c = 34) as -> by lia.
    exists []. split; [reflexivity|].
    intros rest'. reflexivity. }
  destruct (c =? 92) eqn:E92.
  - destruct r as [|e r1]; [discriminate|]. simpl in Hlen.
    destruct (e =? 117) eqn:Eu.
    + destruct r1 as [|h1 [|h2 [|h3 [|h4 r5]]]]; try discriminate. simpl in Hlen.
      destruct (hex4 h1 h2 h3 h4) as [u|] eqn:Eh; [|discriminate].
      destruct (pending && is_low_surrogate u) eqn:Ep.
      * destruct acc as [|hi acc']; [discriminate|].
        destruct (IH r5 _ _ _ _ ltac:(lia) H) as (c' & -> & L).
        exists (c :: e :: h1 :: h2 :: h3 :: h4 :: c'). split; [reflexivity|].
        intros rest'. simpl. rewrite E34, E92, Eu, Eh, Ep. apply L.
      * destruct (IH r5 _ _ _ _ ltac:(lia) H) as (c' & -> & L).
        exists (c :: e :: h1 :: h2 :: h3 :: h4 :: c'). split; [reflexivity|].
        intros rest'. simpl. rewrite E34, E92, Eu, Eh, Ep. apply L.
    + destruct (simple_escape e) as [x|] eqn:Ee; [|discriminate].
      destruct (IH r1 _ _ _ _ ltac:(lia) H) as (c' & -> & L).
      exists (c :: e :: c'). split; [reflexivity|].
      intros rest'. simpl. rewrite E34, E92, Eu, Ee. apply L.
  - destruct (c <? 32) eqn:Ec; [discriminate|].
    destruct (IH r _ _ _ _ ltac:(lia) H) as (c' & -> & L).
    exists (c :: c'). split; [reflexivity|].
    intros rest'. simpl. rewrite E34, E92, Ec. apply L.
Qed.

Lemma starts_with_split p : forall s,
  starts_with p s = true -> s = p ++ skipn (List.length p) s.
Proof.
  induction p as [|x p IH]; intros s H; [reflexivity|].
  destruct s as [|y s]; [discriminate|]. simpl in H.
  apply andb_true_iff in H as [Hx Hr]. simpl. f_equal; [lia|]. now apply IH.
Qed.

Lemma starts_with_app p r : starts_with p (p ++ r) = true.
Proof. induction p as [|x p IH]; simpl; [reflexivity|]. now rewrite Z.eqb_refl. Qed.

Lemma scan_atom_number d q :
  is_ascii_digit d = true ->
  scan_atom (d :: q) = match_number (d :: q) /\
  scan_atom (45 :: d :: q) = match_number (45 :: d :: q).
Proof.
  intros Hd. unfold is_ascii_digit in Hd. split; unfold scan_atom.
  - replace (starts_with (py "null") (d :: q)) with false
      by (vm_compute py; simpl; destruct (110 =? d) eqn:E; [lia|reflexivity]).
    replace (starts_with (py "true") (d :: q)) with false
      by (vm_compute py; simpl; destruct (116 =? d) eqn:E; [lia|reflexivity]).
    replace (starts_with (py "false") (d :: q)) with false
      by (vm_compute py; simpl; destruct (102 =? d) eqn:E; [lia|reflexivity]).
    replace (starts_with (py "NaN") (d :: q)) with false
      by (vm_compute py; simpl; destruct (78 =? d) eqn:E; [lia|reflexivity]).
    replace (starts_with (py "Infinity") (d :: q)) with false
      by (vm_compute py; simpl; destruct (73 =? d) eqn:E; [lia|reflexivity]).
    replace (starts_with (py "-Infinity") (d :: q)) with false
      by (vm_compute py; simpl; destruct (45 =? d) eqn:E; [lia|reflexivity]).
    reflexivity.
  - replace (starts_with (py "-Infinity") (45 :: d :: q)) with false
      by (vm_compute py; simpl; destruct (73 =? d) eqn:E; [lia|reflexivity]).
    reflexivity.
Qed.

Lemma reads_literal lit v s :
  (exists x r, lit = x :: r /\ solid x = true) ->
  (exists p y, lit = p ++ [y] /\ solid y = true) ->
  (forall rest', scan_atom (lit ++ rest') = Some (v, rest')) ->
  starts_with lit s = true ->
  reads scan_atom s v (skipn (List.length lit) s).
Proof.
  intros Hh Hl Hrun Hs. exists lit. split; [now apply starts_with_split|].
  split; [assumption|]. split; [assumption|]. intros rest' _. apply Hrun.
Qed.

Lemma scan_atom_local s v rest :
  scan_atom s = Some (v, rest) -> reads scan_atom s v rest.
Proof.
  unfold scan_atom at 1.
  destruct (starts_with (py "null") s) eqn:E1.
  { intros H. injection H as <- <-.
    apply (reads_literal (py "null") PNone s); [| | |assumption].
    - now exists 110, (py "ull").
    - now exists (py "nul"), 108.
    - intros rest'. reflexivity. }
  destruct (starts_with (py "true") s) eqn:E2.
  { intros H. injection H as <- <-.
    apply (reads_literal (py "true") (PBool true) s); [| | |assumption].
    - now exists 116, (py "rue").
    - now exists (py "tru"), 101.
    - intros rest'. reflexivity. }
  destruct (starts_with (py "false") s) eqn:E3.
  { intros H. injection H as <- <-.
    apply (reads_literal (py "false") (PBool false) s); [| | |assumption].
    - now exists 102, (py "alse").
    - now exists (py "fals"), 101.
    - intros rest'. reflexivity. }
  destruct (starts_with (py "NaN") s) eqn:E4.
  { intros H. injection H as <- <-.
    apply (reads_literal (py "NaN") (PFloat S754_nan) s); [| | |assumption].
    - now exists 78, (py "aN").
    - now exists (py "Na"), 78.
    - intros rest'. reflexivity. }
  destruct (starts_with (py "Infinity") s) eqn:E5.
  { intros H. injection H as <- <-.
    apply (reads_literal (py "Infinity") (PFloat (S754_infinity false)) s); [| | |assumption].
    - now exists 73, (py "nfinity").
    - now exists (py "Infinit"), 121.
    - intros rest'. reflexivity. }
  destruct (starts_with (py "-Infinity") s) eqn:E6.
  { intros H. injection H as <- <-.
    apply (reads_literal (py "-Infinity") (PFloat (S754_infinity true)) s); [| | |assumption].
    - now exists 45, (py "Infinity").
    - now exists (py "-Infinit"), 121.
    - intros rest'. reflexivity. }
  intros H.
  destruct (match_number_local _ _ _ H) as (c & -> & Hhead & (p & y & Ep & Hy) & L).
  exists c. split; [reflexivity|].
  destruct Hhead as [(d & q & -> & Hd) | (d & q & -> & Hd)].
  - split; [exists d, q; split; [reflexivity|now apply digit_solid]|].
    split; [exists p, y; split; [assumption|now apply digit_solid]|].
    intros rest' Hr. cbn [app].
    rewrite (proj1 (scan_atom_number d (q ++ rest') Hd)). now apply L.
  - split; [exists 45, (d :: q); split; reflexivity|].
    split; [exists p, y; split; [assumption|now apply digit_solid]|].
    intros rest' Hr. cbn [app].
    rewrite (proj2 (scan_atom_number d (q ++ rest') Hd)). now apply L.
Qed.

(** ** Arrays and objects *)

Lemma skip_ws_split s : exists w, s = w ++ skip_ws s /\ json_blank w.
Proof.
  induction s as [|x s (w & E & Hw)]; simpl.
  - exists []. split; [reflexivity|constructor].
  - destruct (is_json_ws x) eqn:Ex.
    + exists (x :: w). split; [simpl; now f_equal|now constructor].
    + exists []. split; [reflexivity|constructor].
Qed.

Lemma skip_ws_head s x t : skip_ws s = x :: t -> is_json_ws x = false.
Proof.
  induction s as [|y s IH]; simpl; [discriminate|].
  destruct (is_json_ws y) eqn:Ey; [exact IH|]. intros H. now injection H as <- <-.
Qed.

Lemma skip_ws_blank w t : json_blank w -> skip_ws (w ++ t) = skip_ws t.
Proof. induction 1 as [|x w Hx _ IH]; simpl; [reflexivity|]. now rewrite Hx. Qed.

Lemma skip_ws_solid x t : is_json_ws x = false -> skip_ws (x :: t) = x :: t.
Proof. intros H. simpl. now rewrite H. Qed.

Lemma skip_ws_past w x t :
  json_blank w -> is_json_ws x = false -> skip_ws (w ++ x :: t) = x :: t.
Proof. intros Hw Hx. rewrite skip_ws_blank by assumption. now apply skip_ws_solid. Qed.

Lemma follow_ok_past w x t :
  json_blank w -> follow_ok [x] = true -> follow_ok (w ++ x :: t) = true.
Proof.
  intros Hw Hx. destruct Hw as [|y w Hy _]; [exact Hx|].
  simpl. unfold is_json_ws, is_ascii_digit in *. lia.
Qed.

Lemma json_blank_space w : json_blank w -> all_space w.
Proof.
  unfold json_blank, all_space. apply Forall_impl.
  intros c. unfold is_json_ws, is_space. lia.
Qed.

(** The head of what follows a text that ends with [closer] does not
    depend on what comes after the closer. *)
Lemma skip_ws_closed w c closer rest x t rest' :
  json_blank w ->
  skip_ws (w ++ c ++ closer :: rest) = x :: t ->
  c ++ closer :: rest = x :: t ->
  skip_ws (w ++ c ++ closer :: rest') = c ++ closer :: rest' /\
  exists t', c ++ closer :: rest' = x :: t'.
Proof.
  intros Hw Hs E. pose proof (skip_ws_head _ _ _ Hs) as Hx.
  rewrite skip_ws_blank by assumption.
  destruct c as [|y c]; simpl in *; injection E as <- _;
    (split; [now rewrite Hx|now eexists]).
Qed.

Section StepLocal.

Variable once : pystr -> scan pyval.
Variable elements : pystr -> list pyval -> scan (list pyval).
Variable members : pystr -> list (pystr * pyval) -> scan (list (pystr * pyval)).
Hypothesis once_ok : once_local once.
Hypothesis elements_ok : items_local 93 elements.
Hypothesis members_ok : items_local 125 members.

Lemma scan_value_local : once_local (scan_value elements members).
Proof.
  intros s v rest H. unfold scan_value in H.
  destruct s as [|x r]; [discriminate|].
  destruct (x =? 34) eqn:E34.
  { destruct (scanstring r [] false) as [[str r']|] eqn:Es; [|discriminate].
    injection H as <- <-. assert (x = 34) as -> by lia.
    destruct (scanstring_local _ _ _ _ _ _ (le_n _) Es) as (c & -> & L).
    exists (34 :: c ++ [34]). split; [cbn [app]; now rewrite <- app_assoc|].
    split; [now exists 34, (c ++ [34])|]. split; [now exists (34 :: c), 34|].
    intros rest' _. cbn [app]. rewrite <- app_assoc. cbn [app scan_value].
    rewrite Z.eqb_refl. now rewrite L. }
  destruct (x =? 123) eqn:E123.
  { assert (x = 123) as -> by lia.
    destruct (skip_ws_split r) as (w & Er & Hw).
    destruct (skip_ws r) as [|c1 r1] eqn:Ek; [discriminate|].
    pose proof (skip_ws_head _ _ _ Ek) as Hc1.
    destruct (c1 =? 125) eqn:Ec.
    - injection H as <- <-. assert (c1 = 125) as -> by lia.
      exists (123 :: w ++ [125]). split; [cbn [app]; rewrite <- app_assoc; now f_equal|].
      split; [now exists 123, (w ++ [125])|]. split; [now exists (123 :: w), 125|].
      intros rest' _. cbn [app]. rewrite <- app_assoc. cbn [app scan_value].
      rewrite E34, E123, skip_ws_past by assumption. now rewrite Z.eqb_refl.
    - destruct (members (c1 :: r1) []) as [pairs rest0| |] eqn:Em; try discriminate.
      injection H as <- <-.
      destruct (members_ok _ _ _ _ Em) as (c & Ec1 & L).
      exists (123 :: w ++ c ++ [125]).
      split; [cbn [app]; rewrite <- !app_assoc; cbn [app]; rewrite <- Ec1; now f_equal|].
      split; [now exists 123, (w ++ c ++ [125])|].
      split; [exists (123 :: w ++ c), 125; split; [cbn [app]; now rewrite <- !app_assoc|reflexivity]|].
      intros rest' _. cbn [app]. rewrite <- !app_assoc. cbn [app scan_value].
      rewrite E34, E123.
      assert (Hs : skip_ws (w ++ c ++ 125 :: rest0) = c1 :: r1).
      { rewrite <- Ec1. now rewrite skip_ws_past. }
      destruct (skip_ws_closed w c 125 rest0 c1 r1 rest' Hw Hs (eq_sym Ec1)) as [-> [t' Et]].
      rewrite Et, Ec, <- Et. now rewrite L. }
  destruct (x =? 91) eqn:E91.
  { assert (x = 91) as -> by lia.
    destruct (skip_ws_split r) as (w & Er & Hw).
    destruct (skip_ws r) as [|c1 r1] eqn:Ek; [discriminate|].
    pose proof (skip_ws_head _ _ _ Ek) as Hc1.
    destruct (c1 =? 93) eqn:Ec.
    - injection H as <- <-. assert (c1 = 93) as -> by lia.
      exists (91 :: w ++ [93]). split; [cbn [app]; rewrite <- app_assoc; now f_equal|].
      split; [now exists 91, (w ++ [93])|]. split; [now exists (91 :: w), 93|].
      intros rest' _. cbn [app]. rewrite <- app_assoc. cbn [app scan_value].
      rewrite E34, E123, E91, skip_ws_past by assumption. now rewrite Z.eqb_refl.
    - destruct (elements (c1 :: r1) []) as [vs rest0| |] eqn:Em; try discriminate.
      injection H as <- <-.
      destruct (elements_ok _ _ _ _ Em) as (c & Ec1 & L).
      exists (91 :: w ++ c ++ [93]).
      split; [cbn [app]; rewrite <- !app_assoc; cbn [app]; rewrite <- Ec1; now f_equal|].
      split; [now exists 91, (w ++ c ++ [93])|].
      split; [exists (91 :: w ++ c), 93; split; [cbn [app]; now rewrite <- !app_assoc|reflexivity]|].
      intros rest' _. cbn [app]. rewrite <- !app_assoc. cbn [app scan_value].
      rewrite E34, E123, E91.
      assert (Hs : skip_ws (w ++ c ++ 93 :: rest0) = c1 :: r1).
      { rewrite <- Ec1. now rewrite skip_ws_past. }
      destruct (skip_ws_closed w c 93 rest0 c1 r1 rest' Hw Hs (eq_sym Ec1)) as [-> [t' Et]].
      rewrite Et, Ec, <- Et. now rewrite L. }
  destruct (scan_atom (x :: r)) as [[v0 rest0]|] eqn:Ea; [|discriminate].
  injection H as <- <-.
  destruct (scan_atom_local _ _ _ Ea) as (c & Ec & Hh & Hl & L).
  exists c. split; [assumption|]. split; [assumption|]. split; [assumption|].
  intros rest' Hr. specialize (L rest' Hr).
  destruct Hh as (x0 & r0 & -> & _). cbn [app] in *. injection Ec as <- _.
  unfold scan_value. rewrite E34, E123, E91. now rewrite L.
Qed.

Lemma follow_ok_closer w closer t :
  json_blank w -> closer = 93 \/ closer = 125 \/ closer = 44 \/ closer = 58 ->
  follow_ok (w ++ closer :: t) = true.
Proof.
  intros Hw Hc. apply follow_ok_past; [assumption|].
  simpl. unfold is_ascii_digit. lia.
Qed.

Lemma scan_array_items_local : items_local 93 (scan_array_items once elements).
Proof.
  intros s acc l rest H. unfold scan_array_items in H.
  destruct (once s) as [v r| |] eqn:Eo; try discriminate.
  destruct (once_ok _ _ _ Eo) as (c & -> & _ & _ & L).
  destruct (skip_ws_split r) as (w & Er & Hw).
  destruct (skip_ws r) as [|x r1] eqn:Ek; [discriminate|].
  pose proof (skip_ws_head _ _ _ Ek) as Hx.
  destruct (x =? 93) eqn:E93.
  - injection H as <- <-. assert (x = 93) as -> by lia.
    exists (c ++ w). split; [rewrite <- app_assoc; now f_equal|].
    intros rest'. unfold scan_array_items. rewrite <- app_assoc.
    rewrite L by (apply follow_ok_closer; auto).
    rewrite skip_ws_past by assumption. now rewrite Z.eqb_refl.
  - destruct (x =? 44) eqn:E44; [|discriminate]. assert (x = 44) as -> by lia.
    destruct (skip_ws_split r1) as (w1 & Er1 & Hw1).
    destruct (elements_ok _ _ _ _ H) as (c1 & Ec1 & L1).
    exists (c ++ w ++ 44 :: w1 ++ c1).
    split.
    { rewrite Er, Er1, Ec1. rewrite <- !app_assoc. cbn [app].
      now rewrite <- !app_assoc. }
    intros rest'. unfold scan_array_items. rewrite <- !app_assoc. cbn [app].
    rewrite L by (apply follow_ok_closer; auto).
    rewrite skip_ws_past by assumption. rewrite E93, E44.
    rewrite <- !app_assoc.
    assert (Hs : skip_ws (w1 ++ c1 ++ 93 :: rest') = c1 ++ 93 :: rest').
    { rewrite skip_ws_blank by assumption.
      destruct (skip_ws r1) as [|y t] eqn:Ey.
      { destruct c1; discriminate. }
      pose proof (skip_ws_head _ _ _ Ey) as Hy.
      destruct c1 as [|z c1]; cbn [app] in *; injection Ec1 as <- _;
        now apply skip_ws_solid. }
    rewrite Hs. apply L1.
Qed.

Lemma scan_object_items_local : items_local 125 (scan_object_items once members).
Proof.
  intros s acc l rest H. unfold scan_object_items in H.
  destruct s as [|q r]; [discriminate|].
  destruct (q =? 34) eqn:Eq; [|discriminate]. assert (q = 34) as -> by lia.
  destruct (scanstring r [] false) as [[key r1]|] eqn:Es; [|discriminate].
  destruct (scanstring_local _ _ _ _ _ _ (le_n _) Es) as (ck & -> & Lk).
  destruct (skip_ws_split r1) as (w1 & Er1 & Hw1).
  destruct (skip_ws r1) as [|c r2] eqn:Ek1; [discriminate|].
  pose proof (skip_ws_head _ _ _ Ek1) as Hc.
  destruct (c =? 58) eqn:Ec; [|discriminate]. assert (c = 58) as -> by lia.
  destruct (skip_ws_split r2) as (w2 & Er2 & Hw2).
  remember (skip_ws r2) as k2 eqn:Ek2.
  destruct (once k2) as [v r3| |] eqn:Eo; try discriminate.
  destruct (once_ok _ _ _ Eo) as (cv & Ecv & (xv & rv & Exv & Hxv) & _ & Lv).
  assert (Hxw : is_json_ws xv = false).
  { unfold solid, is_space in Hxv. unfold is_json_ws. lia. }
  destruct (skip_ws_split r3) as (w3 & Er3 & Hw3).
  destruct (skip_ws r3) as [|c' r4] eqn:Ek3; [discriminate|].
  pose proof (skip_ws_head _ _ _ Ek3) as Hc'.
  clear Ek1 Ek2 Ek3 Es Eo. subst r1 r2 k2 r3.
  (* the text up to the end of the value, read again *)
  assert (Hrun : forall tail, follow_ok tail = true ->
            scan_object_items once members
              (34 :: ck ++ 34 :: w1 ++ 58 :: w2 ++ cv ++ tail) acc
            = match skip_ws tail with
              | c' :: r4 =>
                if c' =? 125 then Scanned (rev ((key, v) :: acc)) r4
                else if c' =? 44 then members (skip_ws r4) ((key, v) :: acc)
                else Malformed
              | [] => Malformed
              end).
  { intros tail Ht. unfold scan_object_items. rewrite Z.eqb_refl, Lk.
    rewrite skip_ws_past by assumption. rewrite Z.eqb_refl.
    assert (Hs : skip_ws (w2 ++ cv ++ tail) = cv ++ tail).
    { rewrite skip_ws_blank by assumption. subst cv. cbn [app].
      now apply skip_ws_solid. }
    rewrite Hs, (Lv _ Ht). reflexivity. }
  assert (Hshape : forall tail,
            34 :: ck ++ 34 :: w1 ++ 58 :: w2 ++ cv ++ w3 ++ tail
            = (34 :: ck ++ 34 :: w1 ++ 58 :: w2 ++ cv ++ w3) ++ tail).
  { intros tail. norm_app. reflexivity. }
  destruct (c' =? 125) eqn:E125.
  - injection H as <- <-. assert (c' = 125) as -> by lia.
    exists (34 :: ck ++ 34 :: w1 ++ 58 :: w2 ++ cv ++ w3).
    split.
    { norm_app. reflexivity. }
    intros rest'. rewrite <- Hshape.
    rewrite Hrun by (apply follow_ok_closer; auto).
    rewrite skip_ws_past by assumption. now rewrite Z.eqb_refl.
  - destruct (c' =? 44) eqn:E44; [|discriminate]. assert (c' = 44) as -> by lia.
    destruct (skip_ws_split r4) as (w4 & Er4 & Hw4).
    destruct (members_ok _ _ _ _ H) as (c4 & Ec4 & L4).
    assert (Hs : forall rest', skip_ws (w4 ++ c4 ++ 125 :: rest') = c4 ++ 125 :: rest').
    { intros rest'. rewrite skip_ws_blank by assumption.
      destruct (skip_ws r4) as [|y t] eqn:Ey.
      { destruct c4; discriminate. }
      pose proof (skip_ws_head _ _ _ Ey) as Hy.
      destruct c4 as [|z c4]; cbn [app] in *; injection Ec4 as <- _;
        now apply skip_ws_solid. }
    rewrite Ec4 in Er4. clear Ec4. subst r4.
    exists ((34 :: ck ++ 34 :: w1 ++ 58 :: w2 ++ cv ++ w3) ++ 44 :: w4 ++ c4).
    split.
    { norm_app. reflexivity. }
    intros rest'.
    replace (((34 :: ck ++ 34 :: w1 ++ 58 :: w2 ++ cv ++ w3) ++ 44 :: w4 ++ c4)
               ++ 125 :: rest')
      with (34 :: ck ++ 34 :: w1 ++ 58 :: w2 ++ cv
               ++ (w3 ++ 44 :: w4 ++ c4 ++ 125 :: rest')).
    2:{ norm_app. reflexivity. }
    rewrite Hrun by (apply follow_ok_closer; auto).
    rewrite skip_ws_past by assumption. rewrite E125, E44, Hs. apply L4.
Qed.

End StepLocal.

(** Every read of the scanner is local, whatever the fuel. *)
Lemma scanner_local fuel :
  once_local (scan_once fuel) /\
  items_local 93 (scan_elements fuel) /\
  items_local 125 (scan_members fuel).
Proof.
  induction fuel as [|n (IH1 & IH2 & IH3)].
  - split; [|split].
    + intros s v rest H. discriminate H.
    + intros s acc l rest H. discriminate H.
    + intros s acc l rest H. discriminate H.
  - split; [|split].
    + exact (scan_value_local _ _ IH2 IH3).
    + exact (scan_array_items_local _ _ IH1 IH2).
    + exact (scan_object_items_local _ _ IH1 IH3).
Qed.

(** ** Fuel *)

Section StepGrows.

Variables once once' : pystr -> scan pyval.
Variables elements elements' : pystr -> list pyval -> scan (list pyval).
Variables members members' : pystr -> list (pystr * pyval) -> scan (list (pystr * pyval)).
Hypothesis once_up : once_grows once once'.
Hypothesis elements_up : items_grows elements elements'.
Hypothesis members_up : items_grows members members'.

Lemma scan_value_grows :
  once_grows (scan_value elements members) (scan_value elements' members').
Proof.
  intros s H. unfold scan_value in *.
  destruct s as [|x r]; [reflexivity|].
  destruct (x =? 34); [reflexivity|].
  destruct (x =? 123).
  { destruct (skip_ws r) as [|c1 r1]; [reflexivity|].
    destruct (c1 =? 125); [reflexivity|].
    rewrite members_up; [reflexivity|].
    intros E. rewrite E in H. now apply H. }
  destruct (x =? 91); [|reflexivity].
  destruct (skip_ws r) as [|c1 r1]; [reflexivity|].
  destruct (c1 =? 93); [reflexivity|].
  rewrite elements_up; [reflexivity|].
  intros E. rewrite E in H. now apply H.
Qed.

Lemma scan_array_items_grows :
  items_grows (scan_array_items once elements) (scan_array_items once' elements').
Proof.
  intros s acc H. unfold scan_array_items in *.
  rewrite once_up by (intros E; rewrite E in H; now apply H).
  destruct (once s) as [v r| |]; try reflexivity.
  destruct (skip_ws r) as [|c r1]; [reflexivity|].
  destruct (c =? 93); [reflexivity|].
  destruct (c =? 44); [|reflexivity].
  now apply elements_up.
Qed.

Lemma scan_object_items_grows :
  items_grows (scan_object_items once members) (scan_object_items once' members').
Proof.
  intros s acc H. unfold scan_object_items in *.
  destruct s as [|q r]; [reflexivity|].
  destruct (q =? 34); [|reflexivity].
  destruct (scanstring r [] false) as [[key r1]|]; [|reflexivity].
  destruct (skip_ws r1) as [|c r2]; [reflexivity|].
  destruct (c =? 58); [|reflexivity].
  rewrite once_up by (intros E; rewrite E in H; now apply H).
  destruct (once (skip_ws r2)) as [v r3| |]; try reflexivity.
  destruct (skip_ws r3) as [|c' r4]; [reflexivity|].
  destruct (c' =? 125); [reflexivity|].
  destruct (c' =? 44); [|reflexivity].
  now apply members_up.
Qed.

End StepGrows.

Lemma scanner_grows_one n :
  once_grows (scan_once n) (scan_once (S n)) /\
  items_grows (scan_elements n) (scan_elements (S n)) /\
  items_grows (scan_members n) (scan_members (S n)).
Proof.
  induction n as [|n (IH1 & IH2 & IH3)].
  - split; [|split].
    + intros s H. now destruct H.
    + intros s acc H. now destruct H.
    + intros s acc H. now destruct H.
  - split; [|split].
    + exact (scan_value_grows _ _ _ _ IH2 IH3).
    + exact (scan_array_items_grows _ _ _ _ IH1 IH2).
    + exact (scan_object_items_grows _ _ _ _ IH1 IH3).
Qed.

(** More fuel does not change a result. *)
Lemma scan_once_more_fuel n m s :
  (n <= m)%nat -> scan_once n s <> Exhausted -> scan_once m s = scan_once n s.
Proof.
  induction 1 as [|m Hle IH]; intros H; [reflexivity|].
  rewrite <- (IH H). apply (proj1 (scanner_grows_one m)). now rewrite (IH H).
Qed.

Lemma skip_ws_length s : (List.length (skip_ws s) <= List.length s)%nat.
Proof.
  induction s as [|x s IH]; simpl; [lia|]. destruct (is_json_ws x); simpl; lia.
Qed.

Section StepEnough.

Variable n : nat.
Variable once : pystr -> scan pyval.
Variable elements : pystr -> list pyval -> scan (list pyval).
Variable members : pystr -> list (pystr * pyval) -> scan (list (pystr * pyval)).
Hypothesis once_ok : once_local once.
Hypothesis once_fuel : once_enough n once.
Hypothesis elements_fuel : items_enough n elements.
Hypothesis members_fuel : items_enough n members.

Lemma scan_value_enough : once_enough (S n) (scan_value elements members).
Proof.
  intros s Hlen. unfold scan_value.
  destruct s as [|x r]; [discriminate|]. simpl in Hlen.
  destruct (x =? 34).
  { destruct (scanstring r [] false) as [[? ?]|]; discriminate. }
  destruct (x =? 123).
  { pose proof (skip_ws_length r) as Hk.
    destruct (skip_ws r) as [|c1 r1] eqn:Ek; [discriminate|].
    destruct (c1 =? 125); [discriminate|].
    destruct (members (c1 :: r1) []) eqn:Em; try discriminate.
    exfalso. revert Em. apply members_fuel. lia. }
  destruct (x =? 91).
  { pose proof (skip_ws_length r) as Hk.
    destruct (skip_ws r) as [|c1 r1] eqn:Ek; [discriminate|].
    destruct (c1 =? 93); [discriminate|].
    destruct (elements (c1 :: r1) []) eqn:Em; try discriminate.
    exfalso. revert Em. apply elements_fuel. lia. }
  destruct (scan_atom (x :: r)) as [[? ?]|]; discriminate.
Qed.

Lemma once_shorter s v r : once s = Scanned v r -> (List.length r < List.length s)%nat.
Proof.
  intros H. destruct (once_ok _ _ _ H) as (c & -> & (x & q & -> & _) & _).
  rewrite length_app. simpl. lia.
Qed.

Lemma scan_array_items_enough : items_enough (S n) (scan_array_items once elements).
Proof.
  intros s acc Hlen. unfold scan_array_items.
  destruct (once s) as [v r| |] eqn:Eo; try discriminate.
  - pose proof (once_shorter _ _ _ Eo) as Hr.
    pose proof (skip_ws_length r) as Hk.
    destruct (skip_ws r) as [|c r1] eqn:Ek; [discriminate|]. simpl in Hk.
    destruct (c =? 93); [discriminate|].
    destruct (c =? 44); [|discriminate].
    apply elements_fuel. pose proof (skip_ws_length r1). lia.
  - exfalso. revert Eo. apply once_fuel. lia.
Qed.

Lemma scan_object_items_enough : items_enough (S n) (scan_object_items once members).
Proof.
  intros s acc Hlen. unfold scan_object_items.
  destruct s as [|q r]; [discriminate|]. simpl in Hlen.
  destruct (q =? 34); [|discriminate].
  destruct (scanstring r [] false) as [[key r1]|] eqn:Es; [|discriminate].
  destruct (scanstring_local _ _ _ _ _ _ (le_n _) Es) as (ck & Er & _).
  apply (f_equal (@List.length Z)) in Er. rewrite length_app in Er. simpl in Er.
  pose proof (skip_ws_length r1) as Hk1.
  destruct (skip_ws r1) as [|c r2] eqn:Ek1; [discriminate|]. simpl in Hk1.
  destruct (c =? 58); [|discriminate].
  pose proof (skip_ws_length r2) as Hk2.
  destruct (once (skip_ws r2)) as [v r3| |] eqn:Eo; try discriminate.
  - pose proof (once_shorter _ _ _ Eo) as Hr.
    pose proof (skip_ws_length r3) as Hk3.
    destruct (skip_ws r3) as [|c' r4] eqn:Ek3; [discriminate|]. simpl in Hk3.
    destruct (c' =? 125); [discriminate|].
    destruct (c' =? 44); [|discriminate].
    apply members_fuel. pose proof (skip_ws_length r4). lia.
  - exfalso. revert Eo. apply once_fuel. lia.
Qed.

End StepEnough.

(** The scanner never runs out of the fuel [json_loads] gives it. *)
Lemma scanner_enough n :
  once_enough n (scan_once n) /\
  items_enough n (scan_elements n) /\
  items_enough n (scan_members n).
Proof.
  induction n as [|n (IH1 & IH2 & IH3)].
  - split; [|split].
    + intros s H. lia.
    + intros s acc H. lia.
    + intros s acc H. lia.
  - destruct (scanner_local n) as (L1 & _ & _).
    split; [|split].
    + exact (scan_value_enough n _ _ IH2 IH3).
    + exact (scan_array_items_enough n _ _ L1 IH1 IH2).
    + exact (scan_object_items_enough n _ _ L1 IH1 IH3).
Qed.

Lemma json_loads_never_exhausted s :
  scan_once (2 * List.length s + 1) (skip_ws s) <> Exhausted.
Proof.
  apply (proj1 (scanner_enough _)). pose proof (skip_ws_length s). lia.
Qed.

Lemma solid_space x : solid x = true -> is_space x = false.
Proof. unfold solid. lia. Qed.

Lemma solid_ends_tight c : solid_ends c -> tight c.
Proof.
  intros [(x & r & E & Hx) (p & y & E' & Hy)]. split.
  - exists x, r. auto using solid_space.
  - exists p, y. auto using solid_space.
Qed.

(** ** What [json.loads] accepts *)

Lemma json_loads_core t v :
  json_loads t = Some v ->
  exists w1 c w2,
    t = w1 ++ c ++ w2 /\ json_blank w1 /\ json_blank w2 /\ solid_ends c /\
    json_loads c = Some v.
Proof.
  unfold json_loads at 1. intros H.
  destruct (starts_with [65279] t); [discriminate|].
  destruct (scan_once (2 * List.length t + 1) (skip_ws t)) as [v0 rest| |] eqn:Es;
    try discriminate.
  destruct (skip_ws_split rest) as (w2 & Er & Hw2).
  destruct (skip_ws rest); [|discriminate]. injection H as ->.
  rewrite app_nil_r in Er. subst rest.
  destruct (skip_ws_split t) as (w1 & Et & Hw1).
  destruct (proj1 (scanner_local _) _ _ _ Es) as (c & Ec & Hh & Hl & L).
  exists w1, c, w2. rewrite Ec in Et.
  split; [assumption|]. split; [assumption|]. split; [assumption|].
  split; [now split|].
  destruct Hh as (x & r & -> & Hx).
  assert (Hk : skip_ws (x :: r) = x :: r).
  { apply skip_ws_solid. unfold solid, is_space in Hx. unfold is_json_ws. lia. }
  unfold json_loads.
  replace (starts_with [65279] (x :: r)) with false
    by (simpl; unfold solid in Hx; destruct (65279 =? x) eqn:E; [lia|reflexivity]).
  rewrite Hk.
  pose proof (json_loads_never_exhausted (x :: r)) as Hfuel. rewrite Hk in Hfuel.
  assert (Hlen : (2 * List.length (x :: r) + 1 <= 2 * List.length t + 1)%nat).
  { rewrite Et, !length_app. lia. }
  rewrite <- (scan_once_more_fuel _ _ _ Hlen Hfuel).
  specialize (L [] eq_refl). rewrite app_nil_r in L. now rewrite L.
Qed.

(** ** Cleaning *)

Lemma clean_of_value w1 c w2 :
  all_space w1 -> all_space w2 -> solid_ends c ->
  clean_markdown_json (w1 ++ c ++ w2) = c.
Proof.
  intros H1 H2 Hc. pose proof (solid_ends_tight c Hc) as Ht.
  unfold clean_markdown_json. rewrite strip_core by assumption.
  destruct Hc as [(x & r & E & Hx) (p & y & E' & Hy)].
  assert (Ho : sub_fence_open c = c).
  { rewrite E. apply sub_fence_open_id. unfold solid in Hx. lia. }
  rewrite Ho, (strip_tight c) by assumption.
  assert (Hcl : sub_fence_close c = c).
  { rewrite E'. apply sub_fence_close_keep; unfold solid in Hy; lia. }
  rewrite Hcl. now apply strip_tight.
Qed.

Lemma clean_of_fenced w1 c w2 :
  all_space w1 -> all_space w2 -> solid_ends c ->
  clean_markdown_json (wrap_json_fence (w1 ++ c ++ w2)) = c.
Proof.
  intros H1 H2 Hc. pose proof (solid_ends_tight c Hc) as Ht.
  destruct Hc as [(x & r & E & Hx) (p & y & E' & Hy)].
  pose proof (solid_space _ Hx) as Hxs. pose proof (solid_space _ Hy) as Hys.
  unfold clean_markdown_json, wrap_json_fence.
  set (W := fence ++ py "json" ++ [10] ++ (w1 ++ c ++ w2) ++ [10] ++ fence).
  (* the fenced text has no blank at either end *)
  assert (HW : strip W = W).
  { apply strip_tight. split.
    - exists 96, ([96; 96] ++ py "json" ++ [10] ++ (w1 ++ c ++ w2) ++ [10] ++ fence).
      split; reflexivity.
    - exists (fence ++ py "json" ++ [10] ++ (w1 ++ c ++ w2) ++ [10] ++ [96; 96]), 96.
      split; [|reflexivity]. subst W. unfold fence. norm_app. reflexivity. }
  (* the opening mark, its tag and the blanks after them *)
  assert (Ho : sub_fence_open W = c ++ (w2 ++ [10]) ++ fence).
  { subst W. unfold sub_fence_open. rewrite starts_with_app.
    change (skipn 3 (fence ++ ?X)) with X.
    change (starts_with_ci (py "json") (py "json" ++ ?X)) with true. cbv iota.
    change (skipn 4 (py "json" ++ ?X)) with X.
    rewrite (lstrip_app_space [10]) by (repeat constructor).
    rewrite <- !app_assoc. rewrite lstrip_app_space by assumption.
    rewrite E. cbn [app]. now apply lstrip_solid. }
  rewrite HW, Ho.
  assert (HV : strip (c ++ (w2 ++ [10]) ++ fence) = c ++ (w2 ++ [10]) ++ fence).
  { apply strip_tight. split.
    - exists x, (r ++ (w2 ++ [10]) ++ fence). split; [now rewrite E|assumption].
    - exists (c ++ (w2 ++ [10]) ++ [96; 96]), 96. split; [|reflexivity].
      unfold fence. norm_app. reflexivity. }
  rewrite HV.
  assert (Hcut : sub_fence_close (c ++ (w2 ++ [10]) ++ fence) = c).
  { rewrite E'. rewrite <- app_assoc. apply sub_fence_close_cut; [assumption|].
    apply Forall_app. split; [assumption|repeat constructor]. }
  rewrite Hcut. now apply strip_tight.
Qed.

(** The second attempt of the parser, on the raw text, cannot succeed where
    the first, on the cleaned text, failed. *)
Lemma json_loads_clean t v :
  json_loads t = Some v -> json_loads (clean_markdown_json t) = Some v.
Proof.
  intros H. destruct (json_loads_core t v H) as (w1 & c & w2 & -> & H1 & H2 & Hc & Hv).
  rewrite clean_of_value; auto using json_blank_space.
Qed.

(** ** The candidate *)

Lemma upto_last_some c s p : upto_last c s = Some p -> exists b d, s = b ++ c :: d.
Proof.
  revert p. induction s as [|x s IH]; intros p H; [discriminate|]. simpl in H.
  destruct (upto_last c s) as [q|] eqn:E.
  - destruct (IH q eq_refl) as (b & d & ->). now exists (x :: b), d.
  - destruct (x =? c) eqn:Ex; [|discriminate]. exists [], s. simpl. f_equal. lia.
Qed.

Lemma upto_last_end c m : upto_last c (m ++ [c]) = Some (m ++ [c]).
Proof.
  induction m as [|x m IH]; simpl.
  - now rewrite Z.eqb_refl.
  - now rewrite IH.
Qed.

Lemma delimited_cons o c x s : delimited o c s -> delimited o c (x :: s).
Proof. intros (a & b & d & ->). now exists (x :: a), b, d. Qed.

Lemma search_candidate_none s :
  ~ delimited 123 125 s -> ~ delimited 91 93 s -> search_candidate s = None.
Proof.
  induction s as [|x s IH]; intros H1 H2; [reflexivity|]. simpl.
  assert (IH' : search_candidate s = None) by (apply IH; auto using delimited_cons).
  destruct (x =? 123) eqn:E1.
  { destruct (upto_last 125 s) as [p|] eqn:Eu; [|assumption].
    destruct (upto_last_some _ _ _ Eu) as (b & d & ->).
    destruct H1. exists [], b, d. simpl. f_equal. lia. }
  destruct (x =? 91) eqn:E2; [|assumption].
  destruct (upto_last 93 s) as [p|] eqn:Eu; [|assumption].
  destruct (upto_last_some _ _ _ Eu) as (b & d & ->).
  destruct H2. exists [], b, d. simpl. f_equal. lia.
Qed.

Lemma contains_after c b d : contains c (b ++ c :: d) = true.
Proof.
  unfold contains. rewrite existsb_app. simpl. rewrite Z.eqb_refl.
  simpl. apply orb_true_r.
Qed.

Lemma delimitedb_false o c s : delimitedb o c s = false -> ~ delimited o c s.
Proof.
  induction s as [|x s IH]; intros H (a & b & d & E).
  - destruct a; discriminate E.
  - simpl in H. apply orb_false_iff in H as [H1 H2].
    destruct a as [|y a]; simpl in E; injection E as -> ->.
    + rewrite Z.eqb_refl, contains_after in H1. discriminate H1.
    + apply (IH H2). now exists a, b, d.
Qed.

Lemma delimited_in o c s : delimited o c s -> In o s.
Proof. intros (a & b & d & ->). apply in_or_app. right. now left. Qed.

(** ** The repair of trailing commas *)

(** A text that, blanks around it apart, runs from a [{] to a [}] (or from
    a [[] to a []]), that is not valid JSON as it is and is valid JSON once
    repaired, is parsed as its repair. *)
Lemma repaired_candidate_is_parsed (host : PyHost) w1 o m cl w2 v :
  all_space w1 -> all_space w2 ->
  (o = 123 /\ cl = 125) \/ (o = 91 /\ cl = 93) ->
  json_loads (o :: m ++ [cl]) = None ->
  json_loads (remove_trailing_commas (o :: m ++ [cl])) = Some v ->
  tolerant_parse_json_from_text host (w1 ++ (o :: m ++ [cl]) ++ w2) = Ok v.
Proof.
  intros Hw1 Hw2 Hd H0 H1.
  assert (Hs : solid_ends (o :: m ++ [cl])).
  { split; [exists o, (m ++ [cl])|exists (o :: m), cl];
      (split; [reflexivity|]); destruct Hd as [[-> ->] | [-> ->]]; reflexivity. }
  pose proof (clean_of_value w1 _ w2 Hw1 Hw2 Hs) as Hc.
  assert (Hsearch : search_candidate (o :: m ++ [cl]) = Some (o :: m ++ [cl])).
  { cbn [search_candidate].
    destruct Hd as [[-> ->] | [-> ->]]; now rewrite upto_last_end. }
  unfold tolerant_parse_json_from_text, try_json_loads, extract_first_json_candidate.
  rewrite Hc, H0.
  destruct (json_loads (w1 ++ (o :: m ++ [cl]) ++ w2)) as [v'|] eqn:Er.
  { apply json_loads_clean in Er. rewrite Hc in Er. congruence. }
  rewrite Hsearch, strip_tight by now apply solid_ends_tight.
  cbn [first_success]. now rewrite H0, H1.
Qed.

Lemma is_closer_solid d : is_closer d = true -> is_space d = false.
Proof. unfold is_closer, is_space. lia. Qed.

Lemma closer_follows_blanks ws d post :
  all_space ws -> is_closer d = true -> closer_follows (ws ++ d :: post) = true.
Proof.
  intros Hw Hd. unfold closer_follows. rewrite lstrip_app_space by assumption.
  now rewrite lstrip_solid by now apply is_closer_solid.
Qed.

Lemma sub_dropping_blanks ws d post :
  all_space ws -> is_closer d = true ->
  sub_trailing_commas true (ws ++ d :: post) = d :: sub_trailing_commas false post.
Proof.
  intros Hw Hd. induction Hw as [|x ws Hx _ IH]; cbn [app sub_trailing_commas].
  - rewrite (is_closer_solid d Hd). cbn [andb].
    replace (d =? 44) with false by (unfold is_closer in Hd; lia). reflexivity.
  - rewrite Hx. cbn [andb]. exact IH.
Qed.

Lemma sub_trailing_commas_free s :
  comma_before_closer s = false -> sub_trailing_commas false s = s.
Proof.
  induction s as [|x s IH]; intros H; [reflexivity|].
  cbn [comma_before_closer] in H. apply orb_false_iff in H as [H1 H2].
  cbn [sub_trailing_commas andb]. rewrite H1. f_equal. now apply IH.
Qed.

Lemma comma_before_closer_suffix pre s :
  comma_before_closer (pre ++ s) = false -> comma_before_closer s = false.
Proof.
  induction pre as [|x pre IH]; intros H; [exact H|].
  cbn [app comma_before_closer] in H. apply orb_false_iff in H as [_ H]. now apply IH.
Qed.

(** A closer that follows a text in which a comma was put before a brace
    followed it before. *)
Lemma closer_follows_through q ws post :
  closer_follows (q ++ 44 :: ws ++ 125 :: post) = true ->
  closer_follows (q ++ 125 :: post) = true.
Proof.
  unfold closer_follows. induction q as [|y q IH]; cbn [app lstrip].
  - replace (is_space 44) with false by reflexivity. intros H. discriminate H.
  - destruct (is_space y); [exact IH|]. trivial.
Qed.

(** The repair of a text that had no comma before a closer, after one is
    put before one of its braces, is that text. *)
Lemma sub_trailing_commas_insert pre ws post :
  all_space ws ->
  comma_before_closer (pre ++ 125 :: post) = false ->
  sub_trailing_commas false (pre ++ 44 :: ws ++ 125 :: post) = pre ++ 125 :: post.
Proof.
  intros Hw. induction pre as [|x pre IH]; intros H.
  - cbn [app sub_trailing_commas andb].
    rewrite Z.eqb_refl, closer_follows_blanks by (assumption || reflexivity).
    cbn [andb]. rewrite sub_dropping_blanks by (assumption || reflexivity).
    f_equal. apply sub_trailing_commas_free.
    apply (comma_before_closer_suffix [125]). exact H.
  - cbn [app comma_before_closer] in H. apply orb_false_iff in H as [H1 H2].
    cbn [app sub_trailing_commas andb].
    destruct ((x =? 44) && closer_follows (pre ++ 44 :: ws ++ 125 :: post)) eqn:E.
    + apply andb_true_iff in E as [E1 E2]. apply closer_follows_through in E2.
      rewrite E1, E2 in H1. discriminate H1.
    + f_equal. now apply IH.
Qed.

(** *** Texts with fewer commas before closers *)

Lemma thinned_refl s : thinned s s.
Proof. induction s; constructor; assumption. Qed.

Lemma thinned_length s s' : thinned s s' -> (List.length s' <= List.length s)%nat.
Proof.
  induction 1 as [|c s s' _ IH|ws d s s' _ _ _ IH]; cbn [List.length]; [lia|lia|].
  rewrite length_app. cbn [List.length]. lia.
Qed.

Lemma thinned_cons c s t :
  thinned (c :: s) t ->
  (exists s', t = c :: s' /\ thinned s s') \/
  (c = 44 /\ exists ws d s0 s0',
      s = ws ++ d :: s0 /\ all_space ws /\ is_closer d = true /\
      t = d :: s0' /\ thinned s0 s0').
Proof.
  intros H. inversion H as [|c0 s0 s' H0|ws d s0 s' Hw Hd H0]; subst.
  - left. now exists s'.
  - right. split; [reflexivity|]. now exists ws, d, s0, s'.
Qed.

Lemma thinned_keeps c s t :
  thinned (c :: s) t -> c <> 44 -> exists s', t = c :: s' /\ thinned s s'.
Proof.
  intros H Hc. destruct (thinned_cons c s t H) as [H1 | [H1 _]]; [exact H1|contradiction].
Qed.

Lemma thinned_of_nil t : thinned [] t -> t = [].
Proof. intros H. now inversion H. Qed.

Lemma thinned_head_value y s t :
  thinned (y :: s) t -> value_head y = true -> exists s', t = y :: s' /\ thinned s s'.
Proof.
  intros H Hy. apply (thinned_keeps y s t H). unfold value_head in Hy. lia.
Qed.

Lemma thinned_skip_ws s s' : thinned s s' -> thinned (skip_ws s) (skip_ws s').
Proof.
  induction 1 as [|c s s' H IH|ws d s s' Hw Hd H IH].
  - constructor.
  - cbn [skip_ws]. destruct (is_json_ws c); [exact IH|now constructor].
  - cbn [skip_ws]. replace (is_json_ws 44) with false by reflexivity.
    replace (is_json_ws d) with false by (unfold is_closer, is_json_ws in *; lia).
    now constructor.
Qed.

Lemma thinned_app_free c : forall rest t,
  Forall atom_char c -> thinned (c ++ rest) t ->
  exists rest', t = c ++ rest' /\ thinned rest rest'.
Proof.
  induction c as [|x c IH]; intros rest t Hc H.
  - now exists t.
  - inversion Hc as [|? ? Hx Hc']; subst. cbn [app] in H.
    destruct (thinned_keeps _ _ _ H Hx) as (s' & -> & H').
    destruct (IH rest s' Hc' H') as (rest' & -> & Hr). now exists rest'.
Qed.

(** After a run that is dropped, the text does not go on as JSON. *)
Lemma skip_ws_run ws d t :
  all_space ws -> is_closer d = true ->
  exists y q, skip_ws (ws ++ d :: t) = y :: q /\ value_head y = false.
Proof.
  intros Hw Hd. induction Hw as [|x ws Hx _ IH]; cbn [app skip_ws].
  - replace (is_json_ws d) with false by (unfold is_closer, is_json_ws in *; lia).
    exists d, t. split; [reflexivity|]. unfold value_head. rewrite Hd.
    now rewrite andb_false_r.
  - destruct (is_json_ws x); [exact IH|].
    exists x, (ws ++ d :: t). split; [reflexivity|]. unfold value_head. now rewrite Hx.
Qed.

Lemma ends_value_follow rest rest' :
  ends_value rest = true -> thinned rest rest' -> follow_ok rest' = true.
Proof.
  intros He Ht. apply thinned_skip_ws in Ht. unfold ends_value in He.
  destruct (skip_ws_split rest') as (w & Er & Hw).
  destruct (skip_ws rest) as [|x r].
  - apply thinned_of_nil in Ht. rewrite Er, Ht, app_nil_r.
    destruct Hw as [|y w Hy _]; [reflexivity|].
    cbn. unfold is_json_ws, is_ascii_digit in *. lia.
  - destruct (thinned_cons _ _ _ Ht) as [(s' & E & _) | (_ & ws & d & s0 & s0' & _ & _ & Hd & E & _)];
      rewrite Er, E; apply follow_ok_past; try assumption; cbn;
      unfold is_closer, is_ascii_digit in *; lia.
Qed.

(** *** Strings without some of their commas *)

Lemma hex_value_comma c x : hex_value c = Some x -> c <> 44.
Proof. unfold hex_value, is_ascii_digit. intros H ->. cbn in H. discriminate H. Qed.

Lemma hex4_commas a b c d u :
  hex4 a b c d = Some u -> a <> 44 /\ b <> 44 /\ c <> 44 /\ d <> 44.
Proof.
  unfold hex4.
  destruct (hex_value a) eqn:Ea; [|discriminate].
  destruct (hex_value b) eqn:Eb; [|discriminate].
  destruct (hex_value c) eqn:Ec; [|discriminate].
  destruct (hex_value d) eqn:Ed; [|discriminate].
  intros _. repeat split; eapply hex_value_comma; eassumption.
Qed.

(** Blanks inside a string that is read are read as they are. *)
Lemma scanstring_blanks ws : forall r acc res,
  all_space ws ->
  scanstring (ws ++ r) acc false = Some res ->
  exists acc', scanstring r acc' false = Some res.
Proof.
  induction ws as [|x ws IH]; intros r acc res Hw H.
  - now exists acc.
  - inversion Hw as [|? ? Hx Hw']; subst. cbn [app scanstring] in H.
    replace (x =? 34) with false in H by (unfold is_space in Hx; lia).
    replace (x =? 92) with false in H by (unfold is_space in Hx; lia).
    destruct (x <? 32); [discriminate|]. exact (IH _ _ _ Hw' H).
Qed.

(** A string that is read is read still, as another string, without some
    of its commas before closers. *)
Lemma scanstring_thin n : forall s s' acc acc' pending str rest,
  (List.length s <= n)%nat ->
  thinned s s' ->
  (pending = true -> acc' <> []) ->
  scanstring s acc pending = Some (str, rest) ->
  exists str' rest', scanstring s' acc' pending = Some (str', rest') /\ thinned rest rest'.
Proof.
  induction n as [|n IH]; intros s s' acc acc' pending str rest Hn Ht Hp H.
  { destruct s; [discriminate H|cbn in Hn; lia]. }
  destruct s as [|c r]; [discriminate H|]. cbn [List.length] in Hn.
  destruct (thinned_cons _ _ _ Ht)
    as [(r' & -> & Hr) | (-> & ws & d & s0 & s0' & -> & Hw & Hd & -> & H0)].
  - (* the character is kept *)
    cbn [scanstring] in *.
    destruct (c =? 34).
    { injection H as <- <-. now exists (rev acc'), r'. }
    destruct (c =? 92).
    { destruct r as [|e r1]; [discriminate|].
      assert (He : e <> 44).
      { intros ->. replace (44 =? 117) with false in H by reflexivity.
        replace (simple_escape 44) with (@None Z) in H by reflexivity. discriminate H. }
      destruct (thinned_keeps _ _ _ Hr He) as (r1' & -> & Hr1).
      cbn [List.length] in Hn.
      destruct (e =? 117).
      - destruct r1 as [|h1 [|h2 [|h3 [|h4 r5]]]]; try discriminate.
        destruct (hex4 h1 h2 h3 h4) as [u|] eqn:Eh; [|discriminate].
        destruct (hex4_commas _ _ _ _ _ Eh) as (C1 & C2 & C3 & C4).
        destruct (thinned_keeps _ _ _ Hr1 C1) as (t1 & -> & T1).
        destruct (thinned_keeps _ _ _ T1 C2) as (t2 & -> & T2).
        destruct (thinned_keeps _ _ _ T2 C3) as (t3 & -> & T3).
        destruct (thinned_keeps _ _ _ T3 C4) as (r5' & -> & T4).
        rewrite Eh. cbn [List.length] in Hn.
        destruct (pending && is_low_surrogate u) eqn:Ej.
        + destruct acc as [|hi acc0]; [discriminate|].
          destruct acc' as [|hi' acc0'].
          { apply andb_true_iff in Ej as [Ej _]. now destruct (Hp Ej). }
          eapply (IH r5 r5'); [lia|assumption|discriminate|exact H].
        + eapply (IH r5 r5');
            [lia|assumption|discriminate|exact H].
      - destruct (simple_escape e) as [x|]; [|discriminate].
        eapply (IH r1 r1'); [lia|assumption|discriminate|exact H]. }
    destruct (c <? 32); [discriminate|].
    eapply (IH r r'); [lia|assumption|discriminate|exact H].
  - (* a comma and the blanks after it go *)
    cbn [scanstring] in H.
    replace (44 =? 34) with false in H by reflexivity.
    replace (44 =? 92) with false in H by reflexivity.
    replace (44 <? 32) with false in H by reflexivity.
    destruct (scanstring_blanks ws _ _ _ Hw H) as (a & Ha).
    cbn [scanstring] in *.
    replace (d =? 34) with false in * by (unfold is_closer in Hd; lia).
    replace (d =? 92) with false in * by (unfold is_closer in Hd; lia).
    replace (d <? 32) with false in * by (unfold is_closer in Hd; lia).
    rewrite length_app in Hn. cbn [List.length] in Hn.
    eapply (IH s0 s0'); [lia|assumption|discriminate|exact Ha].
Qed.

(** *** Numbers and constants before a comma that goes *)

Lemma digits_atom ds : all_digits ds -> Forall atom_char ds.
Proof.
  apply Forall_impl. intros c Hc. unfold atom_char, is_ascii_digit in *. lia.
Qed.

Lemma take_sign_text plus s neg r :
  take_sign plus s = (neg, r) -> exists c, s = c ++ r /\ Forall atom_char c.
Proof.
  unfold take_sign. destruct s as [|x s]; [intros [= _ <-]; now exists []|].
  destruct (x =? 45) eqn:E1.
  { intros [= _ <-]. exists [x]. split; [reflexivity|].
    repeat constructor. unfold atom_char. lia. }
  destruct (plus && (x =? 43)) eqn:E2.
  { intros [= _ <-]. exists [x]. split; [reflexivity|].
    repeat constructor. unfold atom_char. lia. }
  intros [= _ <-]. now exists [].
Qed.

Lemma exp_part_text s ex r :
  exp_part s = (ex, r) -> exists c, s = c ++ r /\ Forall atom_char c.
Proof.
  unfold exp_part. destruct s as [|e r0]; [intros [= _ <-]; now exists []|].
  destruct ((e =? 101) || (e =? 69)) eqn:Ee; [|intros [= _ <-]; now exists []].
  destruct (take_sign true r0) as [eneg r1] eqn:Es.
  destruct (span_digits r1) as [ds r2] eqn:Ed.
  destruct (take_sign_text _ _ _ _ Es) as (cs & -> & Hcs).
  destruct (span_digits_split _ _ _ Ed) as (-> & Hds).
  destruct ds as [|d ds]; [intros [= _ <-]; now exists []|].
  intros [= _ <-]. exists (e :: cs ++ d :: ds). split; [norm_app; reflexivity|].
  constructor; [unfold atom_char; lia|]. apply Forall_app. split; [assumption|].
  now apply digits_atom.
Qed.

Lemma match_number_text s v rest :
  match_number s = Some (v, rest) -> exists c, s = c ++ rest /\ Forall atom_char c.
Proof.
  unfold match_number.
  destruct (take_sign false s) as [neg s1] eqn:Es.
  destruct (int_part s1) as [[ip s2]|] eqn:Ei; [|discriminate].
  destruct (frac_part s2) as [fp s3] eqn:Ef.
  destruct (exp_part s3) as [ex s4] eqn:Ee.
  destruct (take_sign_text _ _ _ _ Es) as (c0 & -> & H0).
  destruct (int_part_local _ _ _ Ei) as (-> & _ & Hip & _).
  destruct (frac_part_local _ _ _ Ef) as (cf & -> & Hcf & _).
  destruct (exp_part_text _ _ _ Ee) as (ce & -> & Hce).
  intros H.
  assert (rest = s4) as ->.
  { destruct fp; destruct ex; now injection H. }
  exists (c0 ++ ip ++ cf ++ ce). split; [norm_app; reflexivity|].
  repeat (apply Forall_app; split); try assumption.
  - now apply digits_atom.
  - destruct Hcf as [[-> _] | (-> & _ & Hfp)]; [constructor|].
    constructor; [discriminate|now apply digits_atom].
Qed.

Lemma literal_text lit s :
  Forall atom_char lit -> starts_with lit s = true ->
  exists c, s = c ++ skipn (List.length lit) s /\ Forall atom_char c.
Proof. intros Hl H. exists lit. split; [now apply starts_with_split|assumption]. Qed.

Lemma scan_atom_text s v rest :
  scan_atom s = Some (v, rest) -> exists c, s = c ++ rest /\ Forall atom_char c.
Proof.
  unfold scan_atom.
  destruct (starts_with (py "null") s) eqn:E1.
  { intros [= _ <-]. apply (literal_text (py "null")); [|assumption].
    repeat constructor; discriminate. }
  destruct (starts_with (py "true") s) eqn:E2.
  { intros [= _ <-]. apply (literal_text (py "true")); [|assumption].
    repeat constructor; discriminate. }
  destruct (starts_with (py "false") s) eqn:E3.
  { intros [= _ <-]. apply (literal_text (py "false")); [|assumption].
    repeat constructor; discriminate. }
  destruct (starts_with (py "NaN") s) eqn:E4.
  { intros [= _ <-]. apply (literal_text (py "NaN")); [|assumption].
    repeat constructor; discriminate. }
  destruct (starts_with (py "Infinity") s) eqn:E5.
  { intros [= _ <-]. apply (literal_text (py "Infinity")); [|assumption].
    repeat constructor; discriminate. }
  destruct (starts_with (py "-Infinity") s) eqn:E6.
  { intros [= _ <-]. apply (literal_text (py "-Infinity")); [|assumption].
    repeat constructor; discriminate. }
  apply match_number_text.
Qed.

(** The text of a number or of a constant starts with none of the
    characters that end a value. *)
Lemma scan_atom_head y r v rest :
  scan_atom (y :: r) = Some (v, rest) -> value_head y = true.
Proof.
  intros H. destruct (scan_atom_local _ _ _ H) as (c & Ec & (x & q & -> & Hx) & _ & _).
  destruct (scan_atom_text _ _ _ H) as (c' & Ec' & Hc').
  assert (c' = x :: q) as ->.
  { apply (app_inv_tail rest). congruence. }
  cbn [app] in Ec. injection Ec as -> _.
  inversion Hc' as [|? ? Hx44 _]; subst. unfold atom_char in Hx44.
  unfold value_head. rewrite (solid_space _ Hx). cbn [negb andb].
  (* no closer: a closer starts none of the constants and no number *)
  destruct (is_closer x) eqn:Ecl; [|cbn; lia]. exfalso.
  assert (Hx' : x = 125 \/ x = 93) by (unfold is_closer in Ecl; lia).
  revert H. destruct Hx' as [-> | ->]; vm_compute; discriminate.
Qed.

Lemma scan_atom_thin s s' v rest :
  thinned s s' -> scan_atom s = Some (v, rest) -> ends_value rest = true ->
  exists rest', scan_atom s' = Some (v, rest') /\ thinned rest rest'.
Proof.
  intros Ht H He.
  destruct (scan_atom_local _ _ _ H) as (c & Ec & _ & _ & L).
  destruct (scan_atom_text _ _ _ H) as (c' & Ec' & Hc').
  assert (c' = c) as -> by (apply (app_inv_tail rest); congruence).
  rewrite Ec in Ht. destruct (thinned_app_free c rest s' Hc' Ht) as (rest' & -> & Hr).
  exists rest'. split; [|assumption].
  apply L. now apply (ends_value_follow rest).
Qed.

(** *** Arrays and objects without some commas of their strings *)

Section StepThin.

Variable once : pystr -> scan pyval.
Variable elements : pystr -> list pyval -> scan (list pyval).
Variable members : pystr -> list (pystr * pyval) -> scan (list (pystr * pyval)).
Hypothesis once_starts : once_head once.
Hypothesis elements_start : items_head elements.
Hypothesis members_start : items_head members.
Hypothesis once_ok : once_thin once.
Hypothesis elements_ok : items_thin elements.
Hypothesis members_ok : items_thin members.

Lemma scan_value_head : once_head (scan_value elements members).
Proof.
  intros s v rest H. destruct s as [|y r]; [discriminate H|].
  exists y, r. split; [reflexivity|]. unfold scan_value in H.
  destruct (y =? 34) eqn:E34; [now assert (y = 34) as -> by lia|].
  destruct (y =? 123) eqn:E123; [now assert (y = 123) as -> by lia|].
  destruct (y =? 91) eqn:E91; [now assert (y = 91) as -> by lia|].
  destruct (scan_atom (y :: r)) as [[v0 rest0]|] eqn:Ea; [|discriminate].
  exact (scan_atom_head _ _ _ _ Ea).
Qed.

Lemma scan_array_items_head : items_head (scan_array_items once elements).
Proof.
  intros s acc l rest H. unfold scan_array_items in H.
  destruct (once s) as [v r| |] eqn:Eo; try discriminate.
  exact (once_starts _ _ _ Eo).
Qed.

Lemma scan_object_items_head : items_head (scan_object_items once members).
Proof.
  intros s acc l rest H. unfold scan_object_items in H.
  destruct s as [|q r]; [discriminate|].
  destruct (q =? 34) eqn:Eq; [|discriminate]. assert (q = 34) as -> by lia.
  now exists 34, r.
Qed.

(** The body of an array or of an object, after its opener and blanks. *)
Lemma body_thin {A : Type} (items : pystr -> list A -> scan (list A))
    (closer : Z) (wrap : list A -> pyval) (empty : pyval) r r' v rest :
  items_head items -> items_thin items -> is_closer closer = true ->
  thinned r r' ->
  match skip_ws r with
  | c1 :: r1 =>
    if c1 =? closer then Scanned empty r1
    else
      match items (skip_ws r) [] with
      | Scanned l rest => Scanned (wrap l) rest
      | Malformed => Malformed
      | Exhausted => Exhausted
      end
  | [] => Malformed
  end = Scanned v rest ->
  exists v' rest',
    match skip_ws r' with
    | c1 :: r1 =>
      if c1 =? closer then Scanned empty r1
      else
        match items (skip_ws r') [] with
        | Scanned l rest => Scanned (wrap l) rest
        | Malformed => Malformed
        | Exhausted => Exhausted
        end
    | [] => Malformed
    end = Scanned v' rest' /\ thinned rest rest'.
Proof.
  intros Hhead Hthin Hcl Hr H. apply thinned_skip_ws in Hr.
  destruct (skip_ws r) as [|c1 r1] eqn:Ek; [discriminate|].
  destruct (c1 =? closer) eqn:Ec.
  - injection H as <- <-. assert (c1 = closer) as -> by lia.
    destruct (thinned_keeps _ _ _ Hr) as (r1' & -> & Hr1).
    { unfold is_closer in Hcl. lia. }
    rewrite Z.eqb_refl. now exists empty, r1'.
  - destruct (items (c1 :: r1) []) as [l rest0| |] eqn:Ei; try discriminate.
    injection H as <- <-.
    destruct (Hhead _ _ _ _ Ei) as (y & q & Ey & Hy). injection Ey as -> ->.
    destruct (thinned_head_value _ _ _ Hr Hy) as (q' & Eq' & Hq).
    destruct (Hthin _ _ [] [] _ _ Hr Ei) as (l' & rest' & Ei' & Hrest).
    rewrite Eq' in *. rewrite Ec, Ei'. now exists (wrap l'), rest'.
Qed.

Lemma scan_value_thin : once_thin (scan_value elements members).
Proof.
  intros s s' v rest Ht H He.
  destruct (scan_value_head _ _ _ H) as (y & r & -> & Hy).
  destruct (thinned_head_value _ _ _ Ht Hy) as (r' & -> & Hr).
  unfold scan_value in *.
  destruct (y =? 34) eqn:E34.
  { destruct (scanstring r [] false) as [[str r1]|] eqn:Es; [|discriminate].
    injection H as <- <-.
    destruct (scanstring_thin _ r r' [] [] false str r1 (le_n _) Hr ltac:(discriminate) Es)
      as (str' & r1' & -> & Hr1).
    now exists (PStr str'), r1'. }
  destruct (y =? 123) eqn:E123.
  { exact (body_thin members 125 (fun pairs => PDict (dict_of_pairs pairs)) (PDict [])
             r r' v rest members_start members_ok eq_refl Hr H). }
  destruct (y =? 91) eqn:E91.
  { exact (body_thin elements 93 PList (PList []) r r' v rest
             elements_start elements_ok eq_refl Hr H). }
  destruct (scan_atom (y :: r)) as [[v0 rest0]|] eqn:Ea; [|discriminate].
  injection H as <- <-.
  destruct (scan_atom_thin _ _ _ _ Ht Ea He) as (rest' & -> & Hrest).
  now exists v0, rest'.
Qed.

(** What follows a value of an array or of an object, read after the
    value was: the closer, or a comma and the items after it. *)
Lemma tail_thin {A : Type} (items : pystr -> list A -> scan (list A))
    (closer : Z) (acc acc' : list A) r r' l rest :
  items_head items -> items_thin items -> is_closer closer = true ->
  thinned r r' ->
  match skip_ws r with
  | c :: r1 =>
    if c =? closer then Scanned (rev acc) r1
    else if c =? 44 then items (skip_ws r1) acc
    else Malformed
  | [] => Malformed
  end = Scanned l rest ->
  exists l' rest',
    match skip_ws r' with
    | c :: r1 =>
      if c =? closer then Scanned (rev acc') r1
      else if c =? 44 then items (skip_ws r1) acc'
      else Malformed
    | [] => Malformed
    end = Scanned l' rest' /\ thinned rest rest'.
Proof.
  intros Hhead Hthin Hcl Hr H. apply thinned_skip_ws in Hr.
  destruct (skip_ws r) as [|c r1] eqn:Ek; [discriminate|].
  destruct (c =? closer) eqn:Ec.
  - injection H as <- <-. assert (c = closer) as -> by lia.
    destruct (thinned_keeps _ _ _ Hr) as (r1' & -> & Hr1).
    { unfold is_closer in Hcl. lia. }
    rewrite Z.eqb_refl. now exists (rev acc'), r1'.
  - destruct (c =? 44) eqn:E44; [|discriminate]. assert (c = 44) as -> by lia.
    destruct (Hhead _ _ _ _ H) as (y & q & Ey & Hy).
    destruct (thinned_cons _ _ _ Hr)
      as [(r1' & -> & Hr1) | (_ & ws & d & s0 & s0' & -> & Hw & Hd & _ & _)].
    + rewrite Ec, E44. apply thinned_skip_ws in Hr1.
      exact (Hthin _ _ acc acc' _ _ Hr1 H).
    + (* the comma cannot be one that is dropped: items follow it *)
      destruct (skip_ws_run ws d s0 Hw Hd) as (y' & q' & Ey' & Hy').
      rewrite Ey' in Ey. injection Ey as -> ->. congruence.
Qed.

Lemma scan_array_items_thin : items_thin (scan_array_items once elements).
Proof.
  intros s s' acc acc' l rest Ht H. unfold scan_array_items in *.
  destruct (once s) as [v r| |] eqn:Eo; try discriminate.
  assert (He : ends_value r = true).
  { unfold ends_value. destruct (skip_ws r) as [|c r1]; [discriminate|].
    destruct (c =? 93) eqn:E; [unfold is_closer; lia|].
    destruct (c =? 44) eqn:E4; [lia|discriminate]. }
  destruct (once_ok _ _ _ _ Ht Eo He) as (v' & r' & -> & Hr).
  exact (tail_thin elements 93 (v :: acc) (v' :: acc') r r' l rest
           elements_start elements_ok eq_refl Hr H).
Qed.

Lemma scan_object_items_thin : items_thin (scan_object_items once members).
Proof.
  intros s s' acc acc' l rest Ht H.
  destruct (scan_object_items_head _ _ _ _ H) as (y & r & -> & Hy).
  destruct (thinned_head_value _ _ _ Ht Hy) as (r' & -> & Hr).
  unfold scan_object_items in *.
  destruct (y =? 34); [|discriminate].
  destruct (scanstring r [] false) as [[key r1]|] eqn:Es; [|discriminate].
  destruct (scanstring_thin _ r r' [] [] false key r1 (le_n _) Hr ltac:(discriminate) Es)
    as (key' & r1' & -> & Hr1).
  apply thinned_skip_ws in Hr1.
  destruct (skip_ws r1) as [|c r2]; [discriminate|].
  destruct (c =? 58) eqn:E58; [|discriminate]. assert (c = 58) as -> by lia.
  destruct (thinned_keeps _ _ _ Hr1 ltac:(lia)) as (r2' & -> & Hr2).
  rewrite Z.eqb_refl. apply thinned_skip_ws in Hr2.
  destruct (once (skip_ws r2)) as [v r3| |] eqn:Eo; try discriminate.
  assert (He : ends_value r3 = true).
  { unfold ends_value. destruct (skip_ws r3) as [|c r4]; [discriminate|].
    destruct (c =? 125) eqn:E; [unfold is_closer; lia|].
    destruct (c =? 44) eqn:E4; [lia|discriminate]. }
  destruct (once_ok _ _ _ _ Hr2 Eo He) as (v' & r3' & -> & Hr3).
  exact (tail_thin members 125 ((key, v) :: acc) ((key', v') :: acc') r3 r3' l rest
           members_start members_ok eq_refl Hr3 H).
Qed.

End StepThin.

Lemma scanner_head fuel :
  once_head (scan_once fuel) /\
  items_head (scan_elements fuel) /\
  items_head (scan_members fuel).
Proof.
  induction fuel as [|n (IH1 & IH2 & IH3)].
  - split; [|split].
    + intros s v rest H. discriminate H.
    + intros s acc l rest H. discriminate H.
    + intros s acc l rest H. discriminate H.
  - split; [|split].
    + exact (scan_value_head _ _).
    + exact (scan_array_items_head _ _ IH1).
    + exact (scan_object_items_head _ _).
Qed.

(** What the scanner reads, it reads still without some of the commas
    before closers. *)
Lemma scanner_thin fuel :
  once_thin (scan_once fuel) /\
  items_thin (scan_elements fuel) /\
  items_thin (scan_members fuel).
Proof.
  induction fuel as [|n (IH1 & IH2 & IH3)].
  - split; [|split].
    + intros s s' v rest _ H. discriminate H.
    + intros s s' acc acc' l rest _ H. discriminate H.
    + intros s s' acc acc' l rest _ H. discriminate H.
  - destruct (scanner_head n) as (H1 & H2 & H3). split; [|split].
    + exact (scan_value_thin _ _ H2 H3 IH2 IH3).
    + exact (scan_array_items_thin _ _ H2 IH1 IH2).
    + exact (scan_object_items_thin _ _ H3 IH1 IH3).
Qed.

(** Valid JSON stays valid JSON without some of its commas before
    closers: they are all inside its strings. *)
Lemma json_loads_thinned t t' v :
  json_loads t = Some v -> thinned t t' -> exists v', json_loads t' = Some v'.
Proof.
  unfold json_loads. intros H Ht.
  destruct (starts_with [65279] t) eqn:Eb; [discriminate|].
  destruct (scan_once (2 * List.length t + 1) (skip_ws t)) as [v0 rest| |] eqn:Es;
    try discriminate.
  destruct (skip_ws rest) as [|x q] eqn:Ek; [|discriminate].
  assert (He : ends_value rest = true) by (unfold ends_value; now rewrite Ek).
  destruct (proj1 (scanner_thin _) _ _ _ _ (thinned_skip_ws _ _ Ht) Es He)
    as (v' & rest' & Es' & Hrest).
  assert (Eb' : starts_with [65279] t' = false).
  { destruct t as [|c r].
    - apply thinned_of_nil in Ht. now subst.
    - destruct (thinned_cons _ _ _ Ht)
        as [(r' & -> & _) | (_ & ws & d & s0 & s0' & _ & _ & Hd & -> & _)].
      + exact Eb.
      + cbn [starts_with]. replace (65279 =? d) with false; [reflexivity|].
        unfold is_closer in Hd. lia. }
  rewrite Eb'.
  pose proof (json_loads_never_exhausted t') as Hfuel.
  pose proof (thinned_length _ _ Ht) as Hlen.
  assert (Hsame : scan_once (2 * List.length t + 1) (skip_ws t')
                  = scan_once (2 * List.length t' + 1) (skip_ws t')).
  { apply scan_once_more_fuel; [lia|assumption]. }
  rewrite <- Hsame, Es'.
  apply thinned_skip_ws in Hrest. rewrite Ek in Hrest.
  apply thinned_of_nil in Hrest. rewrite Hrest. now exists v'.
Qed.

(** *** The repair thins the text *)

Lemma closer_follows_split r :
  closer_follows r = true ->
  exists ws d t, r = ws ++ d :: t /\ all_space ws /\ is_closer d = true.
Proof.
  unfold closer_follows. induction r as [|x r IH]; [discriminate|].
  cbn [lstrip]. destruct (is_space x) eqn:Ex.
  - intros H. destruct (IH H) as (ws & d & t & -> & Hw & Hd).
    exists (x :: ws), d, t. split; [reflexivity|]. split; [now constructor|assumption].
  - intros H. exists [], x, r. split; [reflexivity|]. split; [constructor|assumption].
Qed.

Lemma sub_trailing_commas_thins n : forall s,
  (List.length s <= n)%nat -> thinned s (sub_trailing_commas false s).
Proof.
  induction n as [|n IH]; intros s Hn.
  { destruct s; [constructor|cbn in Hn; lia]. }
  destruct s as [|c r]; [constructor|]. cbn [List.length] in Hn.
  cbn [sub_trailing_commas andb].
  destruct ((c =? 44) && closer_follows r) eqn:E.
  - apply andb_true_iff in E as [Ec Ef]. assert (c = 44) as -> by lia.
    destruct (closer_follows_split r Ef) as (ws & d & t & -> & Hw & Hd).
    rewrite sub_dropping_blanks by assumption.
    apply thinned_drop; [assumption|assumption|].
    apply IH. rewrite length_app in Hn. cbn [List.length] in Hn. lia.
  - apply thinned_keep. apply IH. lia.
Qed.

(** The repair of a text in which a comma was put before a brace leaves
    that text with fewer commas before closers. *)
Lemma repair_thins n : forall pre ws post,
  (List.length pre <= n)%nat -> all_space ws ->
  thinned (pre ++ 125 :: post)
          (remove_trailing_commas (pre ++ 44 :: ws ++ 125 :: post)).
Proof.
  unfold remove_trailing_commas.
  induction n as [|n IH]; intros pre ws post Hn Hw.
  { destruct pre; [|cbn in Hn; lia]. cbn [app sub_trailing_commas andb].
    rewrite Z.eqb_refl, closer_follows_blanks by (assumption || reflexivity).
    cbn [andb]. rewrite sub_dropping_blanks by (assumption || reflexivity).
    apply thinned_keep. exact (sub_trailing_commas_thins _ post (le_n _)). }
  destruct pre as [|c p].
  { apply (IH [] ws post); [cbn; lia|assumption]. }
  cbn [List.length] in Hn. cbn [app sub_trailing_commas andb].
  destruct ((c =? 44) && closer_follows (p ++ 44 :: ws ++ 125 :: post)) eqn:E.
  - apply andb_true_iff in E as [Ec Ef]. assert (c = 44) as -> by lia.
    (* the closer that follows is one of [p] *)
    assert (exists wp d p', p = wp ++ d :: p' /\ all_space wp /\ is_closer d = true)
      as (wp & d & p' & -> & Hwp & Hd).
    { clear - Ef. unfold closer_follows in Ef.
      induction p as [|x p IHp]; cbn [app lstrip] in Ef.
      - replace (is_space 44) with false in Ef by reflexivity. discriminate Ef.
      - destruct (is_space x) eqn:Ex.
        + destruct (IHp Ef) as (wp & d & p' & -> & Hwp & Hd).
          exists (x :: wp), d, p'. split; [reflexivity|]. split; [now constructor|assumption].
        + exists [], x, p. split; [reflexivity|]. split; [constructor|assumption]. }
    rewrite <- !app_assoc. cbn [app].
    rewrite sub_dropping_blanks by assumption.
    apply thinned_drop; [assumption|assumption|].
    apply IH; [|assumption]. rewrite length_app in Hn. cbn [List.length] in Hn. lia.
  - apply thinned_keep. apply IH; [lia|assumption].
Qed.

(** A text from an opener to its closer stays one when a comma and blanks
    are put before one of its closing braces. *)
Lemma delimited_insert o cl pre ws post m :
  is_opener o = true ->
  pre ++ 125 :: post = o :: m ++ [cl] ->
  exists m', pre ++ 44 :: ws ++ 125 :: post = o :: m' ++ [cl].
Proof.
  intros Ho E. destruct pre as [|x pre].
  { cbn [app] in E. injection E as <- _. discriminate Ho. }
  cbn [app] in E. injection E as -> E.
  destruct post as [|z post] using rev_ind.
  - exists (pre ++ 44 :: ws). apply app_inj_tail in E as [_ <-].
    norm_app. reflexivity.
  - clear IHpost. exists (pre ++ 44 :: ws ++ 125 :: post).
    change (125 :: post ++ [z]) with ((125 :: post) ++ [z]) in E.
    rewrite app_assoc in E. apply app_inj_tail in E as [_ ->].
    norm_app. reflexivity.
Qed.

(** * The claims *)

(** ** The quantity of an item *)

(** C1 (amended).  For every item whose quantity field is present, not
    null, and unparsable -- [normalize_number] returns [None] for it -- the
    mapper records the quantity as the integer 0, the default that line 245
    writes with [or 0]: the quantity step returns the item with quantity 0,
    and whenever the loop body returns, quantity is 0 in what it returns. *)
Theorem unparsable_quantity_is_recorded_as_zero (host : PyHost) d v :
  dict_get d qty_key = Some v ->
  v <> PNone ->
  normalize_number host v = Ok None ->
  normalize_quantity host d = Ok (dict_set d qty_key (PInt 0)) /\
  forall r, normalize_item host (PDict d) = Ok r ->
    exists d', r = PDict d' /\ dict_get d' qty_key = Some (PInt 0).
Proof.
  intros Hget Hv Hnn.
  assert (Hq : normalize_quantity host d = Ok (dict_set d qty_key (PInt 0))).
  { unfold normalize_quantity. rewrite Hget.
    destruct v; try congruence; rewrite Hnn; reflexivity. }
  split; [exact Hq|].
  intros r Hr.
  destruct (normalize_item_steps host d r Hr) as (d1 & d2 & d3 & H1 & H2 & H3 & ->).
  rewrite Hq in H1. injection H1 as <-.
  eexists; split; [reflexivity|].
  rewrite normalize_vat_other by reflexivity.
  rewrite (normalize_amount_other host _ _ _ _ H3) by reflexivity.
  rewrite (normalize_amount_other host _ _ _ _ H2) by reflexivity.
  apply dict_get_set_same.
Qed.

Lemma unparsable_quantity_is_recorded_as_zero_witness :
  dict_get [(qty_key, PStr (py "abc"))] qty_key = Some (PStr (py "abc")) /\
  PStr (py "abc") <> PNone /\
  normalize_number ascii_host (PStr (py "abc")) = Ok None /\
  normalize_quantity ascii_host [(qty_key, PStr (py "abc"))]
    = Ok (dict_set [(qty_key, PStr (py "abc"))] qty_key (PInt 0)) /\
  forall r, normalize_item ascii_host (PDict [(qty_key, PStr (py "abc"))]) = Ok r ->
    exists d', r = PDict d' /\ dict_get d' qty_key = Some (PInt 0).
Proof.
  split; [reflexivity|]. split; [discriminate|]. split; [reflexivity|].
  apply (unparsable_quantity_is_recorded_as_zero ascii_host
           [(qty_key, PStr (py "abc"))] (PStr (py "abc")));
    [reflexivity | discriminate | reflexivity].
Defined.

(** C1, as stated, fails: the item [{"Qté": "abc"}] has an unparsable
    quantity and comes back with quantity 0, not [None]. *)
Lemma unparsable_quantity_is_not_absent :
  ~ (forall (host : PyHost) d v d',
        dict_get d qty_key = Some v ->
        v <> PNone ->
        normalize_number host v = Ok None ->
        normalize_item host (PDict d) = Ok (PDict d') ->
        dict_get d' qty_key = Some PNone).
Proof.
  intros H.
  specialize (H ascii_host [(qty_key, PStr (py "abc"))] (PStr (py "abc"))
                [(qty_key, PInt 0)]).
  assert (E : dict_get [(qty_key, PInt 0)] qty_key = Some PNone).
  { apply H; [reflexivity | discriminate | reflexivity | reflexivity]. }
  discriminate E.
Qed.

(** ** The end-to-end scenario *)

(** C2.  The response whose content is the fenced JSON object of the
    scenario (document type order, currency EUR, confidence 0.9, the one
    Savon item) maps to a result whose items are exactly one line: product
    Savon, quantity 2, unit price 5.5, line total 11.0, VAT rate 20.0. *)
Theorem savon_scenario (host : PyHost) :
  extract_order_data host (envelope (PStr savon_content))
  = Ok (PDict [(py "document_type", PStr (py "order"));
               (py "currency", PStr (py "EUR"));
               (py "extraction_confidence", PFloat f0_9);
               (py "items", PList [savon_item])]) /\
  float_exactly f5_5 11 2 = true /\
  float_exactly f11 11 1 = true /\
  float_exactly f20 20 1 = true /\
  float_rounds f0_9 9 10 = true.
Proof. repeat split; vm_compute; reflexivity. Qed.

(** ** The number normalizer *)

(** C3 (the defect).  [normalize_number] raises on an [int] beyond the
    binary64 range: [float(s)] of line 122 is outside the [try] that guards
    the [float(s)] of line 130. *)
Theorem normalize_number_int_overflow (host : PyHost) :
  normalize_number host (PInt (10 ^ 400)) = Raise OverflowError.
Proof. vm_compute. reflexivity. Qed.

(** The vectors of the specification: ["5 000,0"] is 5000.0, ["1.234,56"]
    is the binary64 nearest to 1234.56, ["20.5"] is 20.5, and the empty
    text and [None] give [None]. *)
Theorem normalize_number_vectors (host : PyHost) :
  normalize_number host (PStr (py "5 000,0")) = Ok (Some f5000) /\
  normalize_number host (PStr (py "1.234,56")) = Ok (Some f1234_56) /\
  normalize_number host (PStr (py "20.5")) = Ok (Some f20_5) /\
  normalize_number host (PStr []) = Ok None /\
  normalize_number host PNone = Ok None /\
  float_exactly f5000 5000 1 = true /\
  float_rounds f1234_56 123456 100 = true /\
  float_exactly f20_5 41 2 = true.
Proof. repeat split; vm_compute; reflexivity. Qed.

(** [normalize_number] raises only from the two conversions that stand
    outside its [try]: the [float(s)] of line 122 on an [int] beyond the
    binary64 range, and the [str(s)] of line 123 on a [list] or a [dict]
    whose text cannot be written.  On [None], on [True] or [False], on a
    [float] and on a [str] it never raises. *)
Theorem normalize_number_raises_outside_its_try (host : PyHost) v e :
  normalize_number host v = Raise e <->
  (exists n, v = PInt n /\ float_of_int n = Raise e) \/
  (((exists l, v = PList l) \/ (exists d, v = PDict d)) /\
   container_str host v = Raise e).
Proof.
  split.
  - destruct v as [| b | n | f | s | l | d]; cbn [normalize_number py_str bind].
    + discriminate.
    + destruct b; vm_compute; discriminate.
    + intros H. left. exists n. split; [reflexivity|].
      destruct (float_of_int n); [discriminate|]. cbn [bind] in H. congruence.
    + discriminate.
    + destruct (keep_number_chars _ _); discriminate.
    + intros H. right. split; [left; now exists l|].
      destruct (container_str host (PList l)) as [t|e']; cbn [bind] in H.
      * destruct (keep_number_chars _ _); discriminate.
      * congruence.
    + intros H. right. split; [right; now exists d|].
      destruct (container_str host (PDict d)) as [t|e']; cbn [bind] in H.
      * destruct (keep_number_chars _ _); discriminate.
      * congruence.
  - intros [(n & -> & H) | ([(l & ->) | (d & ->)] & H)];
      cbn [normalize_number py_str bind]; now rewrite H.
Qed.

(** ** JSON inside a fence *)

(** C4.  For every text [t] that [json.loads] accepts, the tolerant parser
    returns, for [t] inside a [```json] fence, the value [json.loads]
    returns for [t]. *)
Theorem fenced_json_parses_as_unwrapped (host : PyHost) t v :
  json_loads t = Some v ->
  tolerant_parse_json_from_text host (wrap_json_fence t) = Ok v.
Proof.
  intros H. destruct (json_loads_core t v H) as (w1 & c & w2 & -> & H1 & H2 & Hc & Hv).
  unfold tolerant_parse_json_from_text, try_json_loads.
  rewrite clean_of_fenced; auto using json_blank_space. now rewrite Hv.
Qed.

Lemma fenced_json_parses_as_unwrapped_witness :
  json_loads (pyq " {~a~: [1, 2.5, ~x~]} ")
  = Some (PDict [(py "a", PList [PInt 1; PFloat (float_of_decimal false 25 (-1));
                                 PStr (py "x")])]) /\
  tolerant_parse_json_from_text ascii_host
    (wrap_json_fence (pyq " {~a~: [1, 2.5, ~x~]} "))
  = Ok (PDict [(py "a", PList [PInt 1; PFloat (float_of_decimal false 25 (-1));
                               PStr (py "x")])]).
Proof.
  split; [vm_compute; reflexivity|].
  apply (fenced_json_parses_as_unwrapped ascii_host). vm_compute. reflexivity.
Defined.

(** The attempt on the raw text is subsumed by the attempt on the cleaned
    text: whatever [json.loads] returns for the raw text, it returns for
    the cleaned text, which the parser tries first. *)
Theorem raw_attempt_is_subsumed (host : PyHost) raw v :
  try_json_loads raw = Some v ->
  try_json_loads (clean_markdown_json raw) = Some v /\
  tolerant_parse_json_from_text host raw = Ok v.
Proof.
  unfold try_json_loads. intros H. pose proof (json_loads_clean raw v H) as Hc.
  split; [exact Hc|].
  unfold tolerant_parse_json_from_text, try_json_loads. now rewrite Hc.
Qed.

Lemma raw_attempt_is_subsumed_witness :
  try_json_loads (pyq " [true, null] ") = Some (PList [PBool true; PNone]) /\
  try_json_loads (clean_markdown_json (pyq " [true, null] "))
  = Some (PList [PBool true; PNone]) /\
  tolerant_parse_json_from_text ascii_host (pyq " [true, null] ")
  = Ok (PList [PBool true; PNone]).
Proof.
  split; [vm_compute; reflexivity|].
  apply (raw_attempt_is_subsumed ascii_host). vm_compute. reflexivity.
Defined.

(** ** Text without a candidate *)

(** C5 (amended).  For every text whose cleaned form is not itself valid
    JSON and contains neither a brace-delimited nor a bracket-delimited
    substring, the tolerant parser raises the [ValueError] for no JSON
    block, whose message is that of no parse failure. *)
Theorem no_candidate_is_no_json_block (host : PyHost) raw :
  json_loads (clean_markdown_json raw) = None ->
  ~ delimited 123 125 (clean_markdown_json raw) ->
  ~ delimited 91 93 (clean_markdown_json raw) ->
  tolerant_parse_json_from_text host raw = Raise (no_json_block no_json_like_block) /\
  forall candidate, no_json_block no_json_like_block <> failed_to_parse candidate.
Proof.
  intros Hc H1 H2. split.
  - unfold tolerant_parse_json_from_text, try_json_loads. rewrite Hc.
    destruct (json_loads raw) as [v|] eqn:Er.
    { apply json_loads_clean in Er. congruence. }
    unfold extract_first_json_candidate. now rewrite search_candidate_none.
  - intros candidate E. unfold no_json_block, failed_to_parse in E.
    injection E as E. vm_compute in E. discriminate E.
Qed.

Lemma no_candidate_is_no_json_block_witness :
  json_loads (clean_markdown_json (py "Sorry, I cannot read this image.")) = None /\
  ~ delimited 123 125 (clean_markdown_json (py "Sorry, I cannot read this image.")) /\
  ~ delimited 91 93 (clean_markdown_json (py "Sorry, I cannot read this image.")) /\
  tolerant_parse_json_from_text ascii_host (py "Sorry, I cannot read this image.")
  = Raise (no_json_block no_json_like_block).
Proof.
  split; [vm_compute; reflexivity|].
  split; [apply delimitedb_false; vm_compute; reflexivity|].
  split; [apply delimitedb_false; vm_compute; reflexivity|].
  apply (no_candidate_is_no_json_block ascii_host (py "Sorry, I cannot read this image."));
    [vm_compute; reflexivity
    | apply delimitedb_false; vm_compute; reflexivity
    | apply delimitedb_false; vm_compute; reflexivity].
Defined.

(** C5, as stated, fails: the text [123] has no brace and no bracket, and
    the parser returns the number 123 for it. *)
Lemma bare_scalar_is_returned :
  ~ (forall (host : PyHost) raw,
        ~ delimited 123 125 (clean_markdown_json raw) ->
        ~ delimited 91 93 (clean_markdown_json raw) ->
        tolerant_parse_json_from_text host raw = Raise (no_json_block no_json_like_block)).
Proof.
  intros H.
  assert (E : tolerant_parse_json_from_text ascii_host (py "123")
              = Raise (no_json_block no_json_like_block)).
  { apply H; intros D; apply delimited_in in D; vm_compute in D; intuition discriminate. }
  vm_compute in E. discriminate E.
Qed.

(** ** A trailing comma *)

(** C6 (amended).  For every text that is valid JSON from an opening brace
    or bracket to its closer: when a comma, and blanks or none, are put
    before one of its closing braces, the tolerant parser succeeds on what
    comes of it, blanks around it or not.  When that is not valid JSON, the
    value returned is that of its repair; and when the text had no comma
    that blanks and a closing brace or bracket follow, not inside its
    strings either, it is the value of the text, so with every string
    value as it was.  (The repair reads no JSON: it removes a comma before
    a closer inside a quoted string too, which is why the value is that of
    the text for such texts only.) *)
Theorem trailing_comma_repair (host : PyHost) w1 pre ws post w2 o cl m v :
  all_space w1 -> all_space w2 -> all_space ws ->
  (o = 123 /\ cl = 125) \/ (o = 91 /\ cl = 93) ->
  pre ++ 125 :: post = o :: m ++ [cl] ->
  json_loads (pre ++ 125 :: post) = Some v ->
  exists v',
    tolerant_parse_json_from_text host (w1 ++ (pre ++ 44 :: ws ++ 125 :: post) ++ w2)
    = Ok v' /\
    (json_loads (pre ++ 44 :: ws ++ 125 :: post) = None ->
     json_loads (remove_trailing_commas (pre ++ 44 :: ws ++ 125 :: post)) = Some v' /\
     (comma_before_closer (pre ++ 125 :: post) = false -> v' = v)).
Proof.
  intros Hw1 Hw2 Hws Hd Hshape Hv.
  assert (Ho : is_opener o = true) by (destruct Hd as [[-> _] | [-> _]]; reflexivity).
  destruct (delimited_insert o cl pre ws post m Ho Hshape) as [m' E].
  destruct (json_loads (pre ++ 44 :: ws ++ 125 :: post)) as [v1|] eqn:Hbad.
  - (* the comma went into a string: the text is valid JSON as it is *)
    exists v1. split; [|discriminate].
    assert (Hs : solid_ends (pre ++ 44 :: ws ++ 125 :: post)).
    { rewrite E. split; [exists o, (m' ++ [cl])|exists (o :: m'), cl];
        (split; [reflexivity|]); destruct Hd as [[-> ->] | [-> ->]]; reflexivity. }
    unfold tolerant_parse_json_from_text, try_json_loads.
    rewrite clean_of_value by assumption. now rewrite Hbad.
  - pose proof (repair_thins _ pre ws post (le_n _) Hws) as Ht.
    destruct (json_loads_thinned _ _ _ Hv Ht) as (v' & Hv').
    exists v'. split.
    + rewrite E in *. now apply repaired_candidate_is_parsed.
    + intros _. split; [exact Hv'|]. intros Hfree.
      unfold remove_trailing_commas in Hv'.
      rewrite sub_trailing_commas_insert in Hv' by assumption. congruence.
Qed.

Lemma trailing_comma_repair_witness :
  all_space [32] /\ all_space [10] /\ all_space [32; 32] /\
  pyq "[{~a~: [1, 2], ~b~: ~x, y~" ++ 125 :: pyq ", 3]"
  = 91 :: pyq "{~a~: [1, 2], ~b~: ~x, y~}, 3" ++ [93] /\
  json_loads (pyq "[{~a~: [1, 2], ~b~: ~x, y~" ++ 125 :: pyq ", 3]")
  = Some (PList [PDict [(py "a", PList [PInt 1; PInt 2]); (py "b", PStr (py "x, y"))];
                 PInt 3]) /\
  json_loads (pyq "[{~a~: [1, 2], ~b~: ~x, y~" ++ 44 :: [32; 32] ++ 125 :: pyq ", 3]") = None /\
  comma_before_closer (pyq "[{~a~: [1, 2], ~b~: ~x, y~" ++ 125 :: pyq ", 3]") = false /\
  tolerant_parse_json_from_text ascii_host
    ([32] ++ (pyq "[{~a~: [1, 2], ~b~: ~x, y~" ++ 44 :: [32; 32] ++ 125 :: pyq ", 3]") ++ [10])
  = Ok (PList [PDict [(py "a", PList [PInt 1; PInt 2]); (py "b", PStr (py "x, y"))];
               PInt 3]).
Proof.
  assert (H1 : all_space [32]) by (repeat constructor).
  assert (H2 : all_space [10]) by (repeat constructor).
  assert (H3 : all_space [32; 32]) by (repeat constructor).
  assert (Hv : json_loads (pyq "[{~a~: [1, 2], ~b~: ~x, y~" ++ 125 :: pyq ", 3]")
    = Some (PList [PDict [(py "a", PList [PInt 1; PInt 2]); (py "b", PStr (py "x, y"))];
                   PInt 3])) by (vm_compute; reflexivity).
  assert (Hbad : json_loads
            (pyq "[{~a~: [1, 2], ~b~: ~x, y~" ++ 44 :: [32; 32] ++ 125 :: pyq ", 3]") = None)
    by (vm_compute; reflexivity).
  assert (Hfree : comma_before_closer (pyq "[{~a~: [1, 2], ~b~: ~x, y~" ++ 125 :: pyq ", 3]")
                  = false) by (vm_compute; reflexivity).
  split; [exact H1|]. split; [exact H2|]. split; [exact H3|].
  split; [vm_compute; reflexivity|]. split; [exact Hv|].
  split; [exact Hbad|]. split; [exact Hfree|].
  destruct (trailing_comma_repair ascii_host [32] (pyq "[{~a~: [1, 2], ~b~: ~x, y~")
              [32; 32] (pyq ", 3]") [10] 91 93 (pyq "{~a~: [1, 2], ~b~: ~x, y~}, 3") _
              H1 H2 H3 (or_intror (conj eq_refl eq_refl)) eq_refl Hv)
    as (v' & Hp & Hsame).
  rewrite Hp. f_equal. exact (proj2 (Hsame Hbad) Hfree).
Defined.

(** C6, as stated, fails: the value returned is not always that of the
    text the comma was put in.  In [{"a": "x,}"}] the string ["x,}"] holds
    a comma before a brace; with a comma put before the closing brace of
    the object, the repair removes both commas, and the parser returns the
    string ["x}"]. *)
Lemma trailing_comma_repair_alters_strings :
  ~ (forall (host : PyHost) w1 pre ws post w2 m v,
        all_space w1 -> all_space w2 -> all_space ws ->
        pre ++ 125 :: post = 123 :: m ++ [125] ->
        json_loads (pre ++ 125 :: post) = Some v ->
        json_loads (pre ++ 44 :: ws ++ 125 :: post) = None ->
        tolerant_parse_json_from_text host
          (w1 ++ (pre ++ 44 :: ws ++ 125 :: post) ++ w2) = Ok v).
Proof.
  intros H.
  specialize (H ascii_host [] (pyq "{~a~: ~x,}~") [] [] [] (pyq "~a~: ~x,}~")
                (PDict [(py "a", PStr (py "x,}"))])).
  assert (E : tolerant_parse_json_from_text ascii_host
                ([] ++ (pyq "{~a~: ~x,}~" ++ 44 :: [] ++ 125 :: []) ++ [])
              = Ok (PDict [(py "a", PStr (py "x,}"))])).
  { apply H; try constructor; vm_compute; reflexivity. }
  vm_compute in E. discriminate E.
Qed.

(** ** No choices *)

(** C7 (amended).  For every response envelope whose choices are an empty
    list, or missing, the mapper raises [ValueError] with the message
    [No choices returned by LLM]: a plain [ValueError], of the same class as
    the error for a text without JSON, told apart by its message only. *)
Theorem empty_choices_raise_value_error (host : PyHost) d :
  dict_get d (py "choices") = None \/ dict_get d (py "choices") = Some (PList []) ->
  parse_llm_response host (PDict d) = Raise no_choices /\
  class_of no_choices = ClsValueError /\
  class_of no_choices = class_of (no_json_block no_json_like_block).
Proof.
  intros H. repeat split.
  unfold parse_llm_response. simpl. destruct H as [-> | ->]; reflexivity.
Qed.

Lemma empty_choices_raise_value_error_witness :
  (dict_get [(py "choices", PList [])] (py "choices") = None \/
   dict_get [(py "choices", PList [])] (py "choices") = Some (PList [])) /\
  parse_llm_response ascii_host (PDict [(py "choices", PList [])]) = Raise no_choices.
Proof.
  split; [right; reflexivity|].
  apply (empty_choices_raise_value_error ascii_host [(py "choices", PList [])]).
  right. reflexivity.
Defined.

(** C7, as stated, fails: the error for no choices and the error for a
    content without JSON are of one class, so the first is no kind of its
    own. *)
Lemma empty_choices_error_is_not_a_kind_of_its_own :
  ~ (forall (host : PyHost) resp resp' e e',
        py_get_default resp (py "choices") (PList []) = Ok (PList []) ->
        parse_llm_response host resp = Raise e ->
        py_get_default resp' (py "choices") (PList []) <> Ok (PList []) ->
        parse_llm_response host resp' = Raise e' ->
        class_of e <> class_of e').
Proof.
  intros H.
  apply (H ascii_host (PDict [(py "choices", PList [])]) (envelope (PStr (py "abc")))
           no_choices (no_json_block no_json_like_block));
    try reflexivity.
  vm_compute. discriminate.
Qed.

(** ** The VAT rate *)

(** C8.  Whenever the loop body returns for an item: a VAT text with a
    percent sign becomes the [float] of the text with its commas turned to
    dots, its percent signs removed and its ends stripped; a VAT text that
    does not parse becomes [None], not zero; a VAT value that is a number
    already is left as it is.  And the item with quantity ["5 000,0"] and
    VAT ["20,00%"] comes back with quantity 5000 and VAT 20.0. *)
Theorem vat_rate_normalisation (host : PyHost) :
  (forall d r, normalize_item host (PDict d) = Ok r ->
     exists d',
       r = PDict d' /\
       (forall t, dict_get d vat_key = Some (PStr t) -> contains 37 t = true ->
          dict_get d' vat_key =
          Some (of_option_float
                  (float_of_str host
                     (strip (replace_char 37 [] (strip (replace_char 44 [46] t))))))) /\
       (forall t, dict_get d vat_key = Some (PStr t) -> vat_of_text host t = None ->
          dict_get d' vat_key = Some PNone) /\
       (forall v, dict_get d vat_key = Some v -> is_number v = true ->
          dict_get d' vat_key = Some v)) /\
  normalize_item host
    (PDict [(qty_key, PStr (py "5 000,0")); (vat_key, PStr (py "20,00%"))])
  = Ok (PDict [(qty_key, PInt 5000); (vat_key, PFloat f20)]) /\
  float_exactly f20 20 1 = true.
Proof.
  split; [|split; reflexivity].
  intros d r Hr.
  destruct (normalize_item_steps host d r Hr) as (d1 & d2 & d3 & H1 & H2 & H3 & ->).
  assert (Hv : dict_get d3 vat_key = dict_get d vat_key).
  { rewrite (normalize_amount_other host _ _ _ _ H3) by reflexivity.
    rewrite (normalize_amount_other host _ _ _ _ H2) by reflexivity.
    now rewrite (normalize_quantity_other host _ _ _ H1) by reflexivity. }
  eexists; split; [reflexivity|].
  repeat split.
  - intros t Ht Hp. rewrite <- Hv in Ht.
    rewrite (normalize_vat_text host d3 t Ht), dict_get_set_same.
    unfold vat_of_text. now rewrite Hp.
  - intros t Ht Hp. rewrite <- Hv in Ht.
    rewrite (normalize_vat_text host d3 t Ht), dict_get_set_same.
    now rewrite Hp.
  - intros v Hg Hn. rewrite <- Hv in Hg.
    now rewrite (normalize_vat_number host d3 v Hg Hn).
Qed.

Lemma vat_rate_normalisation_witness :
  normalize_item ascii_host (PDict [(vat_key, PStr (py "20,00%"))])
  = Ok (PDict [(vat_key, PFloat f20)]) /\
  exists d',
    PDict [(vat_key, PFloat f20)] = PDict d' /\
    dict_get d' vat_key = Some (PFloat f20).
Proof.
  split; [reflexivity|].
  destruct (proj1 (vat_rate_normalisation ascii_host)
              [(vat_key, PStr (py "20,00%"))] (PDict [(vat_key, PFloat f20)]) eq_refl)
    as (d' & E & Hpct & _).
  exists d'. split; [exact E|].
  rewrite (Hpct (py "20,00%")); reflexivity.
Defined.

(** ** No items *)

(** C9.  For every response whose parsed content is an object with no
    items field, or with an empty array for it, the mapper returns that
    object with an empty list of items; it does not fail. *)
Theorem no_items_is_an_empty_sequence (host : PyHost) resp d :
  parse_llm_response host resp = Ok (PDict d) ->
  dict_get d (py "items") = None \/ dict_get d (py "items") = Some (PList []) ->
  extract_order_data host resp = Ok (PDict (dict_set d (py "items") (PList []))) /\
  dict_get (dict_set d (py "items") (PList [])) (py "items") = Some (PList []).
Proof.
  intros Hp Hi. split; [|apply dict_get_set_same].
  unfold extract_order_data. rewrite Hp. simpl.
  destruct Hi as [-> | ->]; reflexivity.
Qed.

Lemma no_items_is_an_empty_sequence_witness :
  parse_llm_response ascii_host (envelope (PStr (pyq "{~document_type~: ~unknown~}")))
  = Ok (PDict [(py "document_type", PStr (py "unknown"))]) /\
  (dict_get [(py "document_type", PStr (py "unknown"))] (py "items") = None \/
   dict_get [(py "document_type", PStr (py "unknown"))] (py "items") = Some (PList [])) /\
  extract_order_data ascii_host (envelope (PStr (pyq "{~document_type~: ~unknown~}")))
  = Ok (PDict [(py "document_type", PStr (py "unknown")); (py "items", PList [])]).
Proof.
  split; [vm_compute; reflexivity|]. split; [left; reflexivity|].
  apply (no_items_is_an_empty_sequence ascii_host
           (envelope (PStr (pyq "{~document_type~: ~unknown~}")))
           [(py "document_type", PStr (py "unknown"))]);
    [vm_compute; reflexivity | left; reflexivity].
Defined.

(** ** A top-level array *)

(** C10.  For every content that the tolerant parser turns into a list,
    the pipeline raises [AttributeError] at the lookup of the items: no
    result, and none of the [ValueError]s the pipeline raises itself. *)
Theorem top_level_array_is_an_attribute_error (host : PyHost) content l :
  tolerant_parse_json_from_text host content = Ok (PList l) ->
  extract_order_data host (envelope (PStr content)) = Raise AttributeError /\
  class_of AttributeError <> ClsValueError.
Proof.
  intros H. split; [|discriminate].
  unfold extract_order_data. rewrite parse_llm_response_envelope, H. reflexivity.
Qed.

Lemma top_level_array_is_an_attribute_error_witness :
  tolerant_parse_json_from_text ascii_host (pyq "[{~Produit~: ~Savon~}]")
  = Ok (PList [PDict [(py "Produit", PStr (py "Savon"))]]) /\
  extract_order_data ascii_host (envelope (PStr (pyq "[{~Produit~: ~Savon~}]")))
  = Raise AttributeError.
Proof.
  split; [vm_compute; reflexivity|].
  apply (top_level_array_is_an_attribute_error ascii_host
           (pyq "[{~Produit~: ~Savon~}]") [PDict [(py "Produit", PStr (py "Savon"))]]).
  vm_compute. reflexivity.
Defined.

(** * Further properties *)

(** ** The tolerant extractor *)

(** *** What cleaning removes *)

Lemma lstrip_split s : exists w, all_space w /\ s = w ++ lstrip s.
Proof.
  induction s as [|c s (w & Hw & E)]; simpl.
  - exists []. split; [constructor|reflexivity].
  - destruct (is_space c) eqn:Ec.
    + exists (c :: w). split; [now constructor|]. simpl. now f_equal.
    + exists []. split; [constructor|reflexivity].
Qed.

Lemma rstrip_split s : exists w, all_space w /\ s = rstrip s ++ w.
Proof.
  unfold rstrip. destruct (lstrip_split (rev s)) as (w & Hw & E).
  exists (rev w). split; [now apply all_space_rev|].
  rewrite <- rev_app_distr, <- E. now rewrite rev_involutive.
Qed.

Lemma strip_split s :
  exists w1 w2, all_space w1 /\ all_space w2 /\ s = w1 ++ strip s ++ w2.
Proof.
  destruct (lstrip_split s) as (w1 & H1 & E1).
  destruct (rstrip_split (lstrip s)) as (w2 & H2 & E2).
  exists w1, w2. split; [assumption|]. split; [assumption|].
  unfold strip. now rewrite <- E2.
Qed.

Lemma lstrip_idem s : lstrip (lstrip s) = lstrip s.
Proof.
  induction s as [|c s IH]; simpl; [reflexivity|].
  destruct (is_space c) eqn:E; [exact IH|]. simpl. now rewrite E.
Qed.

Lemma lstrip_head s x r : lstrip s = x :: r -> is_space x = false.
Proof.
  induction s as [|c s IH]; simpl; [discriminate|].
  destruct (is_space c) eqn:E; [exact IH|]. intros H. injection H as <- _. exact E.
Qed.

Lemma rstrip_no_trailing s : no_trailing_space (rstrip s).
Proof.
  intros p y E. unfold rstrip in E.
  apply (f_equal (@rev Z)) in E. rewrite rev_involutive, rev_app_distr in E.
  simpl in E. now apply lstrip_head in E.
Qed.

Lemma strip_no_trailing s : no_trailing_space (strip s).
Proof. apply rstrip_no_trailing. Qed.

Lemma no_trailing_tail c r : no_trailing_space (c :: r) -> no_trailing_space r.
Proof. intros H p y E. apply (H (c :: p) y). simpl. now f_equal. Qed.

Lemma lstrip_nil_or_head s :
  lstrip s = [] \/ exists x r, lstrip s = x :: r /\ is_space x = false.
Proof.
  destruct (lstrip s) as [|x r] eqn:E; [now left|right].
  exists x, r. split; [reflexivity|]. now apply lstrip_head in E.
Qed.

Lemma strip_lstrip_fixed s : lstrip (strip s) = strip s.
Proof.
  unfold strip. destruct (rstrip_split (lstrip s)) as (w & Hw & E).
  destruct (rstrip (lstrip s)) as [|x r] eqn:Er; [reflexivity|].
  simpl. replace (is_space x) with false; [reflexivity|].
  symmetry. apply (lstrip_head s x (r ++ w)). exact E.
Qed.

Lemma rstrip_fixed s : no_trailing_space s -> rstrip s = s.
Proof.
  intros H. destruct s as [|c s] using rev_ind; [reflexivity|].
  apply rstrip_solid. now apply (H s c).
Qed.

Lemma strip_idem s : strip (strip s) = strip s.
Proof.
  unfold strip at 1. rewrite strip_lstrip_fixed.
  apply rstrip_fixed, strip_no_trailing.
Qed.

Lemma starts_with_json_split r :
  starts_with_ci (py "json") r = true ->
  exists j s o n r',
    r = j :: s :: o :: n :: r' /\ skipn 4 r = r' /\
    matches_ci 106 j = true /\ matches_ci 115 s = true /\
    matches_ci 111 o = true /\ matches_ci 110 n = true.
Proof.
  change (py "json") with [106; 115; 111; 110].
  destruct r as [|j [|s [|o [|n r']]]]; cbn [starts_with_ci]; intros H;
    rewrite ?andb_false_r in H; try discriminate H.
  exists j, s, o, n, r'. repeat split; try reflexivity; lia.
Qed.

Lemma space_is_fence_open w :
  all_space w -> Forall (fun c => fence_open_char c = true) w.
Proof.
  intros Hw. eapply Forall_impl; [|exact Hw]. intros x Hx. unfold fence_open_char.
  cbv beta in Hx. now rewrite Hx.
Qed.

Lemma space_is_fence_close w :
  all_space w -> Forall (fun c => fence_close_char c = true) w.
Proof.
  intros Hw. eapply Forall_impl; [|exact Hw]. intros x Hx. unfold fence_close_char.
  cbv beta in Hx. now rewrite Hx.
Qed.

Lemma sub_fence_open_split s :
  exists p, s = p ++ sub_fence_open s /\ Forall (fun c => fence_open_char c = true) p.
Proof.
  unfold sub_fence_open. destruct (starts_with fence s) eqn:Ef.
  - apply starts_with_split in Ef. set (r := skipn 3 s) in *.
    change (skipn (List.length fence) s) with r in Ef.
    destruct (starts_with_ci (py "json") r) eqn:Ej.
    + apply starts_with_json_split in Ej
        as (j & s0 & o & n & r' & Er & -> & Hj & Hs & Ho & Hn).
      destruct (lstrip_split r') as (w & Hw & E).
      exists (fence ++ [j; s0; o; n] ++ w). split.
      * rewrite Ef at 1. rewrite Er. rewrite E at 1.
        rewrite <- !app_assoc. reflexivity.
      * apply Forall_app. split; [repeat constructor|].
        apply Forall_app. split; [|now apply space_is_fence_open].
        unfold fence_open_char. repeat constructor; lia.
    + destruct (lstrip_split r) as (w & Hw & E).
      exists (fence ++ w). split.
      * rewrite Ef at 1. rewrite E at 1. now rewrite <- app_assoc.
      * apply Forall_app. split; [repeat constructor|now apply space_is_fence_open].
  - exists []. split; [reflexivity|constructor].
Qed.

Lemma fence_close_at_some s tail :
  fence_close_at s = Some tail ->
  (tail = [] /\ exists w, all_space w /\ s = w ++ fence) \/
  (tail = [10] /\ exists w, all_space w /\ s = w ++ fence ++ [10]).
Proof.
  unfold fence_close_at. destruct (lstrip_split s) as (w & Hw & E).
  destruct (str_eqb (lstrip s) fence) eqn:E1.
  - intros H. injection H as <-. left. split; [reflexivity|].
    apply str_eqb_eq in E1. exists w. split; [assumption|]. now rewrite <- E1.
  - destruct (str_eqb (lstrip s) (fence ++ [10])) eqn:E2; [|discriminate].
    intros H. injection H as <-. right. split; [reflexivity|].
    apply str_eqb_eq in E2. exists w. split; [assumption|]. now rewrite <- E2.
Qed.

Lemma sub_fence_close_split s :
  no_trailing_space s ->
  exists q, s = sub_fence_close s ++ q /\ Forall (fun c => fence_close_char c = true) q.
Proof.
  induction s as [|c r IH]; intros Hs.
  - exists []. split; [reflexivity|constructor].
  - cbn [sub_fence_close]. destruct (fence_close_at (c :: r)) as [tail|] eqn:Ef.
    + apply fence_close_at_some in Ef as [(-> & w & Hw & E) | (-> & w & Hw & E)].
      * exists (c :: r). split; [reflexivity|]. rewrite E.
        apply Forall_app. split.
        -- now apply space_is_fence_close.
        -- repeat constructor.
      * exfalso. specialize (Hs (w ++ fence) 10). rewrite <- app_assoc in Hs.
        specialize (Hs E). discriminate Hs.
    + destruct (IH (no_trailing_tail _ _ Hs)) as (q & E & Hq).
      exists q. split; [|assumption]. cbn [app]. now f_equal.
Qed.

Lemma clean_markdown_json_split raw :
  exists pre post,
    raw = pre ++ clean_markdown_json raw ++ post /\
    Forall (fun c => fence_open_char c = true) pre /\
    Forall (fun c => fence_close_char c = true) post.
Proof.
  unfold clean_markdown_json.
  destruct (strip_split raw) as (a1 & b1 & Ha1 & Hb1 & E1).
  destruct (sub_fence_open_split (strip raw)) as (a2 & E2 & Ha2).
  set (t1 := sub_fence_open (strip raw)) in *.
  destruct (strip_split t1) as (a3 & b3 & Ha3 & Hb3 & E3).
  destruct (sub_fence_close_split (strip t1) (strip_no_trailing _)) as (b4 & E4 & Hb4).
  set (t2 := sub_fence_close (strip t1)) in *.
  destruct (strip_split t2) as (a5 & b5 & Ha5 & Hb5 & E5).
  exists (a1 ++ a2 ++ a3 ++ a5), (b5 ++ b4 ++ b3 ++ b1).
  split; [|split].
  - rewrite E1 at 1. rewrite E2 at 1. rewrite E3 at 1. rewrite E4 at 1. rewrite E5 at 1.
    now rewrite <- !app_assoc.
  - repeat (apply Forall_app; split); auto using space_is_fence_open.
  - repeat (apply Forall_app; split); auto using space_is_fence_close.
Qed.

(** X4.  Cleaning takes a prefix and a suffix off the text and nothing else:
    the prefix is made of blanks, backquotes and letters of [json], the
    suffix of blanks and backquotes, and what is left has no blank at
    either end. *)
Theorem cleaning_trims_both_ends raw :
  (exists pre post,
     raw = pre ++ clean_markdown_json raw ++ post /\
     Forall (fun c => fence_open_char c = true) pre /\
     Forall (fun c => fence_close_char c = true) post) /\
  strip (clean_markdown_json raw) = clean_markdown_json raw.
Proof.
  split; [apply clean_markdown_json_split|].
  unfold clean_markdown_json. apply strip_idem.
Qed.

(** *** Blanks around the text *)

Lemma strip_app_space_r s w : all_space w -> strip (s ++ w) = strip s.
Proof.
  intros Hw. unfold strip. induction s as [|c s IH].
  - cbn [app]. rewrite <- (app_nil_r w), lstrip_app_space by assumption. reflexivity.
  - cbn [app lstrip]. destruct (is_space c); [exact IH|].
    change (c :: s ++ w) with ((c :: s) ++ w). now apply rstrip_app_space.
Qed.

Lemma strip_padded w1 s w2 :
  all_space w1 -> all_space w2 -> strip (w1 ++ s ++ w2) = strip s.
Proof.
  intros H1 H2. rewrite app_assoc, strip_app_space_r by assumption.
  unfold strip. now rewrite lstrip_app_space.
Qed.

Lemma clean_padded w1 s w2 :
  all_space w1 -> all_space w2 ->
  clean_markdown_json (w1 ++ s ++ w2) = clean_markdown_json s.
Proof. intros H1 H2. unfold clean_markdown_json. now rewrite strip_padded. Qed.

(** The parser is a function of the cleaned text. *)
Lemma tolerant_parse_of_clean host a b :
  clean_markdown_json a = clean_markdown_json b ->
  tolerant_parse_json_from_text host a = tolerant_parse_json_from_text host b.
Proof.
  intros E. unfold tolerant_parse_json_from_text, try_json_loads,
    extract_first_json_candidate. rewrite E.
  destruct (json_loads (clean_markdown_json b)) as [v|] eqn:Ec; [reflexivity|].
  destruct (json_loads a) as [va|] eqn:Ea.
  { apply json_loads_clean in Ea. congruence. }
  destruct (json_loads b) as [vb|] eqn:Eb.
  { apply json_loads_clean in Eb. congruence. }
  reflexivity.
Qed.

(** X5.  Blanks before and after the text change nothing to what the
    tolerant parser returns or raises. *)
Theorem blanks_around_do_not_matter host w1 raw w2 :
  all_space w1 -> all_space w2 ->
  tolerant_parse_json_from_text host (w1 ++ raw ++ w2)
  = tolerant_parse_json_from_text host raw.
Proof. intros H1 H2. now apply tolerant_parse_of_clean, clean_padded. Qed.

Lemma blanks_around_do_not_matter_witness :
  all_space [32; 10] /\ all_space [9; 160] /\
  tolerant_parse_json_from_text ascii_host ([32; 10] ++ pyq "{~a~: 1,}" ++ [9; 160])
  = tolerant_parse_json_from_text ascii_host (pyq "{~a~: 1,}").
Proof.
  assert (H1 : all_space [32; 10]) by (repeat constructor).
  assert (H2 : all_space [9; 160]) by (repeat constructor).
  split; [exact H1|]. split; [exact H2|].
  exact (blanks_around_do_not_matter ascii_host [32; 10] (pyq "{~a~: 1,}") [9; 160] H1 H2).
Defined.

(** *** A JSON text inside other text *)

Lemma lstrip_app_solid u y v :
  is_space y = false -> lstrip (u ++ y :: v) = lstrip u ++ y :: v.
Proof.
  intros Hy. induction u as [|c u IH]; cbn [app lstrip].
  - now rewrite Hy.
  - destruct (is_space c); [exact IH|reflexivity].
Qed.

Lemma rstrip_app_solid a y q :
  is_space y = false -> rstrip (a ++ y :: q) = a ++ y :: rstrip q.
Proof.
  intros Hy. unfold rstrip. rewrite rev_app_distr. cbn [rev].
  rewrite <- app_assoc. cbn [app]. rewrite lstrip_app_solid by assumption.
  rewrite rev_app_distr. cbn [rev]. rewrite rev_involutive, <- app_assoc. reflexivity.
Qed.

Lemma Forall_lstrip (P : Z -> Prop) p : Forall P p -> Forall P (lstrip p).
Proof.
  intros H. destruct (lstrip_split p) as (w & _ & E). rewrite E in H.
  now apply Forall_app in H.
Qed.

Lemma Forall_rstrip (P : Z -> Prop) p : Forall P p -> Forall P (rstrip p).
Proof.
  intros H. destruct (rstrip_split p) as (w & _ & E). rewrite E in H.
  now apply Forall_app in H.
Qed.

Lemma sub_fence_close_past a y q :
  is_space y = false -> y <> 96 ->
  sub_fence_close (a ++ y :: q) = a ++ y :: sub_fence_close q.
Proof.
  intros Hy Hb.
  assert (Hnone : forall u, fence_close_at (u ++ y :: q) = None).
  { intros u. apply fence_close_at_none; [assumption| |].
    - intros q' E. assert (In y fence) as Hin.
      { rewrite <- E. apply in_or_app. right. now left. }
      unfold fence in Hin. simpl in Hin. lia.
    - intros q' E. assert (In y (fence ++ [10])) as Hin.
      { rewrite <- E. apply in_or_app. right. now left. }
      unfold fence in Hin. simpl in Hin.
      destruct Hin as [<-|[<-|[<-|[<-|[]]]]]; try lia. discriminate Hy. }
  induction a as [|x a IH]; cbn [app].
  - now rewrite (sub_fence_close_step y q (Hnone [])).
  - rewrite (sub_fence_close_step x (a ++ y :: q) (Hnone (x :: a))). now rewrite IH.
Qed.

Lemma sub_fence_close_incl q : incl (sub_fence_close q) q.
Proof.
  induction q as [|c r IH]; [easy|]. cbn [sub_fence_close].
  destruct (fence_close_at (c :: r)) as [tail|] eqn:Ef.
  - apply fence_close_at_some in Ef as [(-> & _) | (-> & w & _ & E)]; [easy|].
    rewrite E. intros x [<-|[]]. apply in_or_app. right. apply in_or_app. right. now left.
  - intros x [<-|Hx]; [now left|right; now apply IH].
Qed.

Lemma Forall_sub_fence_close (P : Z -> Prop) q :
  Forall P q -> Forall P (sub_fence_close q).
Proof.
  intros H. apply Forall_forall. intros x Hx.
  apply sub_fence_close_incl in Hx. revert x Hx. now apply Forall_forall.
Qed.

Section Inside.

(** [t] runs from an opener to a closer; [P] holds of what is before it
    and [Q] of what is after it. *)
Variables (P Q : Z -> Prop) (t : pystr).

Hypothesis t_head : exists x r, t = x :: r /\ is_opener x = true.
Hypothesis t_last : exists m y, t = m ++ [y] /\ is_closer y = true.

Lemma inside_strip s : inside P Q t s -> inside P Q t (strip s).
Proof.
  intros (p & q & -> & Hp & Hq).
  destruct t_head as (x & r & Et & Hx). destruct t_last as (m & y & Et' & Hy).
  assert (Hxs : is_space x = false) by (unfold is_opener, is_space in *; lia).
  apply is_closer_solid in Hy.
  exists (lstrip p), (rstrip q). unfold strip.
  rewrite Et at 1. cbn [app]. rewrite lstrip_app_solid by assumption.
  change (x :: r ++ q) with ((x :: r) ++ q). rewrite <- Et, Et'.
  rewrite <- !app_assoc. cbn [app]. rewrite app_assoc.
  rewrite rstrip_app_solid by assumption. rewrite <- app_assoc.
  auto using Forall_lstrip, Forall_rstrip.
Qed.

Lemma inside_sub_fence_open s : inside P Q t s -> inside P Q t (sub_fence_open s).
Proof.
  intros (p & q & -> & Hp & Hq).
  destruct t_head as (x & r & Et & Hx).
  assert (Hxs : is_space x = false) by (unfold is_opener, is_space in *; lia).
  unfold sub_fence_open.
  destruct (starts_with fence (p ++ t ++ q)) eqn:Ef; [|now exists p, q].
  assert (exists p1, p = fence ++ p1) as (p1 & ->).
  { rewrite Et in Ef. unfold fence, is_opener in *.
    destruct p as [|a [|b [|c p1]]]; cbn [app starts_with] in Ef;
      try (exfalso; lia).
    exists p1. cbn [app]. repeat f_equal; lia. }
  rewrite <- app_assoc. change (skipn 3 (fence ++ ?X)) with X.
  apply Forall_app in Hp as [_ Hp].
  destruct (starts_with_ci (py "json") (p1 ++ t ++ q)) eqn:Ej.
  - assert (exists j s o n p2, p1 = j :: s :: o :: n :: p2) as (j & s0 & o & n & p2 & ->).
    { rewrite Et in Ej. change (py "json") with [106; 115; 111; 110] in Ej.
      unfold is_opener in *.
      destruct p1 as [|j [|s0 [|o [|n p2]]]]; cbn [app starts_with_ci] in Ej;
        unfold matches_ci in Ej; try (exfalso; lia).
      now exists j, s0, o, n, p2. }
    cbn [app skipn]. exists (lstrip p2), q. split.
    + rewrite Et. cbn [app]. now rewrite lstrip_app_solid.
    + split; [|assumption]. apply Forall_lstrip.
      now do 4 apply Forall_inv_tail in Hp.
  - exists (lstrip p1), q. split.
    + rewrite Et. cbn [app]. now rewrite lstrip_app_solid.
    + split; [now apply Forall_lstrip|assumption].
Qed.

Lemma inside_sub_fence_close s : inside P Q t s -> inside P Q t (sub_fence_close s).
Proof.
  intros (p & q & -> & Hp & Hq).
  destruct t_last as (m & y & Et & Hy).
  exists p, (sub_fence_close q). split.
  - rewrite Et. rewrite <- !app_assoc. cbn [app]. rewrite app_assoc.
    rewrite sub_fence_close_past.
    + now rewrite <- app_assoc.
    + now apply is_closer_solid.
    + unfold is_closer in Hy. lia.
  - split; [assumption|now apply Forall_sub_fence_close].
Qed.

Lemma inside_clean s : inside P Q t s -> inside P Q t (clean_markdown_json s).
Proof.
  intros H. unfold clean_markdown_json.
  apply inside_strip, inside_sub_fence_close, inside_strip, inside_sub_fence_open,
    inside_strip, H.
Qed.

End Inside.

Lemma upto_last_none c q : contains c q = false -> upto_last c q = None.
Proof.
  induction q as [|x q IH]; [reflexivity|]. cbn [contains existsb upto_last].
  intros H. apply orb_false_iff in H as [H1 H2].
  rewrite (IH H2). rewrite Z.eqb_sym. now rewrite H1.
Qed.

Lemma upto_last_app c m q :
  contains c q = false -> upto_last c (m ++ c :: q) = Some (m ++ [c]).
Proof.
  intros H. induction m as [|x m IH]; cbn [app upto_last].
  - now rewrite (upto_last_none c q H), Z.eqb_refl.
  - now rewrite IH.
Qed.

Lemma contains_false_Forall c s :
  contains c s = false <-> Forall (fun x => x <> c) s.
Proof.
  unfold contains. induction s as [|x s IH]; cbn [existsb].
  - split; [constructor|reflexivity].
  - rewrite orb_false_iff, IH. split.
    + intros [H1 H2]. constructor; [lia|assumption].
    + intros H. inversion H; subst. split; [lia|assumption].
Qed.

Lemma search_candidate_skip p s :
  Forall (fun x => x <> 123 /\ x <> 91) p ->
  search_candidate (p ++ s) = search_candidate s.
Proof.
  induction 1 as [|x p [H1 H2] _ IH]; [reflexivity|].
  cbn [app search_candidate].
  replace (x =? 123) with false by lia. replace (x =? 91) with false by lia.
  exact IH.
Qed.

(** X6.  A JSON object or array between other text is found and parsed, when
    no brace or bracket stands before it, no closer of its kind after it,
    and the cleaned text as a whole is no JSON. *)
Theorem embedded_json_is_extracted host before t after o c m v :
  (o = 123 /\ c = 125) \/ (o = 91 /\ c = 93) ->
  t = o :: m ++ [c] ->
  contains 123 before = false -> contains 91 before = false ->
  contains c after = false ->
  json_loads t = Some v ->
  json_loads (clean_markdown_json (before ++ t ++ after)) = None ->
  tolerant_parse_json_from_text host (before ++ t ++ after) = Ok v.
Proof.
  intros Hoc Et Hb1 Hb2 Ha Hv Hnot.
  assert (Hhead : exists x r, t = x :: r /\ is_opener x = true).
  { exists o, (m ++ [c]). split; [assumption|]. destruct Hoc as [[-> _]|[-> _]]; reflexivity. }
  assert (Hlast : exists m' y, t = m' ++ [y] /\ is_closer y = true).
  { exists (o :: m), c. split; [assumption|]. destruct Hoc as [[_ ->]|[_ ->]]; reflexivity. }
  assert (Hin : inside (fun x => x <> 123 /\ x <> 91) (fun x => x <> c) t
                  (before ++ t ++ after)).
  { exists before, after. split; [reflexivity|]. split.
    - apply contains_false_Forall in Hb1, Hb2. apply Forall_forall. intros x Hx. split.
      + revert x Hx. now apply Forall_forall.
      + revert x Hx. now apply Forall_forall.
    - now apply contains_false_Forall. }
  apply (inside_clean _ _ t Hhead Hlast) in Hin as (p & q & Ec & Hp & Hq).
  unfold tolerant_parse_json_from_text, try_json_loads, extract_first_json_candidate.
  rewrite Hnot.
  destruct (json_loads (before ++ t ++ after)) as [v'|] eqn:Er.
  { apply json_loads_clean in Er. congruence. }
  assert (Hs : search_candidate (clean_markdown_json (before ++ t ++ after)) = Some t).
  { rewrite Ec, search_candidate_skip by assumption. rewrite Et.
    apply contains_false_Forall in Hq.
    norm_app. cbn [search_candidate].
    destruct Hoc as [[-> ->]|[-> ->]]; cbn [Z.eqb]; rewrite ?Z.eqb_refl;
      try replace (91 =? 123) with false by reflexivity;
      now rewrite upto_last_app. }
  rewrite Hs.
  assert (Ht : strip t = t).
  { apply strip_tight. split.
    - destruct Hhead as (x & r & E & Hx). exists x, r. split; [assumption|].
      unfold is_opener, is_space in *. lia.
    - destruct Hlast as (m' & y & E & Hy). exists m', y. split; [assumption|].
      now apply is_closer_solid. }
  rewrite Ht. cbn [first_success]. now rewrite Hv.
Qed.

Lemma embedded_json_is_extracted_witness :
  ((123 = 123 /\ 125 = 125) \/ (123 = 91 /\ 125 = 93)) /\
  pyq "{~items~: []}" = 123 :: pyq "~items~: []" ++ [125] /\
  contains 123 (py "Here is the order: ") = false /\
  contains 91 (py "Here is the order: ") = false /\
  contains 125 (py " Anything else? [y/n]") = false /\
  json_loads (pyq "{~items~: []}") = Some (PDict [(py "items", PList [])]) /\
  json_loads (clean_markdown_json
                (py "Here is the order: " ++ pyq "{~items~: []}"
                   ++ py " Anything else? [y/n]")) = None /\
  tolerant_parse_json_from_text ascii_host
    (py "Here is the order: " ++ pyq "{~items~: []}" ++ py " Anything else? [y/n]")
  = Ok (PDict [(py "items", PList [])]).
Proof.
  split; [left; split; reflexivity|].
  split; [vm_compute; reflexivity|]. split; [vm_compute; reflexivity|].
  split; [vm_compute; reflexivity|]. split; [vm_compute; reflexivity|].
  split; [vm_compute; reflexivity|]. split; [vm_compute; reflexivity|].
  apply (embedded_json_is_extracted ascii_host (py "Here is the order: ")
           (pyq "{~items~: []}") (py " Anything else? [y/n]") 123 125
           (pyq "~items~: []"));
    [left; split; reflexivity | vm_compute; reflexivity | vm_compute; reflexivity
    | vm_compute; reflexivity | vm_compute; reflexivity | vm_compute; reflexivity
    | vm_compute; reflexivity].
Defined.

(** *** The candidate *)

Lemma upto_last_spec c s :
  match upto_last c s with
  | Some p => exists m b, p = m ++ [c] /\ s = p ++ b /\ contains c b = false
  | None => contains c s = false
  end.
Proof.
  induction s as [|x s IH]; [reflexivity|]. cbn [upto_last].
  destruct (upto_last c s) as [p|].
  - destruct IH as (m & b & -> & -> & Hb). exists (x :: m), b. now repeat split.
  - destruct (x =? c) eqn:E.
    + exists [], s. assert (x = c) as -> by lia. now repeat split.
    + cbn [contains existsb]. rewrite Z.eqb_sym, E. exact IH.
Qed.

Lemma search_candidate_spec s cand :
  search_candidate s = Some cand ->
  exists a o m b,
    s = a ++ cand ++ b /\ cand = o :: m ++ [closer_of o] /\ is_opener o = true /\
    contains (closer_of o) b = false /\
    forall a1 x a2, a = a1 ++ x :: a2 -> is_opener x = true ->
      contains (closer_of x) (a2 ++ cand ++ b) = false.
Proof.
  induction s as [|x s IH]; [discriminate|]. cbn [search_candidate].
  assert (Hnext : search_candidate s = Some cand ->
                  (is_opener x = true -> contains (closer_of x) s = false) ->
    exists a o m b,
      x :: s = a ++ cand ++ b /\ cand = o :: m ++ [closer_of o] /\ is_opener o = true /\
      contains (closer_of o) b = false /\
      forall a1 y a2, a = a1 ++ y :: a2 -> is_opener y = true ->
        contains (closer_of y) (a2 ++ cand ++ b) = false).
  { intros Hs Hx. destruct (IH Hs) as (a & o & m & b & -> & Ec & Ho & Hb & Hfirst).
    exists (x :: a), o, m, b. repeat split; try assumption.
    intros [|z a1] y a2 E Hy; cbn [app] in E; injection E as -> E.
    - subst a2. now apply Hx.
    - now apply (Hfirst a1 y a2). }
  pose proof (upto_last_spec 125 s) as H125. pose proof (upto_last_spec 93 s) as H93.
  destruct (x =? 123) eqn:E1.
  { assert (x = 123) as -> by lia.
    destruct (upto_last 125 s) as [p|].
    - intros H. injection H as <-. destruct H125 as (m & b & -> & -> & Hb).
      exists [], 123, m, b. repeat split; try assumption.
      intros [|? ?] ? ? E; discriminate E.
    - intros H. apply (Hnext H). intros _. exact H125. }
  destruct (x =? 91) eqn:E2.
  { assert (x = 91) as -> by lia.
    destruct (upto_last 93 s) as [p|].
    - intros H. injection H as <-. destruct H93 as (m & b & -> & -> & Hb).
      exists [], 91, m, b. repeat split; try assumption.
      intros [|? ?] ? ? E; discriminate E.
    - intros H. apply (Hnext H). intros _. exact H93. }
  intros H. apply (Hnext H). unfold is_opener. lia.
Qed.

(** X7.  The candidate runs from the first opener that has its closer after
    it to the last such closer. *)
Theorem candidate_is_first_and_greedy raw cand :
  extract_first_json_candidate raw = Ok cand ->
  exists a o m b,
    clean_markdown_json raw = a ++ cand ++ b /\
    cand = o :: m ++ [closer_of o] /\ is_opener o = true /\
    contains (closer_of o) b = false /\
    forall a1 x a2, a = a1 ++ x :: a2 -> is_opener x = true ->
      contains (closer_of x) (a2 ++ cand ++ b) = false.
Proof.
  unfold extract_first_json_candidate.
  destruct (search_candidate (clean_markdown_json raw)) as [c0|] eqn:Es; [|discriminate].
  intros H. injection H as <-.
  destruct (search_candidate_spec _ _ Es) as (a & o & m & b & E & Ec & Ho & Hb & Hf).
  assert (Ht : strip c0 = c0).
  { apply strip_tight. rewrite Ec. split.
    - exists o, (m ++ [closer_of o]). split; [reflexivity|].
      unfold is_opener, is_space in *. lia.
    - exists (o :: m), (closer_of o). split; [reflexivity|].
      unfold is_opener, closer_of, is_space in *. destruct (o =? 123); lia. }
  rewrite Ht. now exists a, o, m, b.
Qed.

Lemma candidate_is_first_and_greedy_witness :
  extract_first_json_candidate (pyq "see {~a~: 1} and {~b~: 2}, ok")
  = Ok (pyq "{~a~: 1} and {~b~: 2}") /\
  exists a o m b,
    clean_markdown_json (pyq "see {~a~: 1} and {~b~: 2}, ok")
    = a ++ pyq "{~a~: 1} and {~b~: 2}" ++ b /\
    pyq "{~a~: 1} and {~b~: 2}" = o :: m ++ [closer_of o] /\ is_opener o = true /\
    contains (closer_of o) b = false /\
    forall a1 x a2, a = a1 ++ x :: a2 -> is_opener x = true ->
      contains (closer_of x) (a2 ++ pyq "{~a~: 1} and {~b~: 2}" ++ b) = false.
Proof.
  split; [vm_compute; reflexivity|].
  apply (candidate_is_first_and_greedy (pyq "see {~a~: 1} and {~b~: 2}, ok")).
  vm_compute. reflexivity.
Defined.

(** *** Failures of the parser *)

(** X8.  The parser raises one of its two [ValueError]s and nothing else: no
    JSON block found when the cleaned text has no candidate, failed to
    parse when it has one that [json.loads] rejects. *)
Theorem tolerant_parser_fails_with_value_errors host raw e :
  tolerant_parse_json_from_text host raw = Raise e ->
  class_of e = ClsValueError /\
  ((search_candidate (clean_markdown_json raw) = None /\
    e = no_json_block no_json_like_block) \/
   (exists candidate,
      extract_first_json_candidate raw = Ok candidate /\
      try_json_loads candidate = None /\
      e = failed_to_parse candidate)).
Proof.
  unfold tolerant_parse_json_from_text, extract_first_json_candidate.
  destruct (try_json_loads (clean_markdown_json raw)); [discriminate|].
  destruct (try_json_loads raw); [discriminate|].
  destruct (search_candidate (clean_markdown_json raw)) as [c|].
  - match goal with |- context [first_success ?l] =>
      destruct (first_success l) eqn:Ef end; [discriminate|].
    intros H. injection H as <-. split; [reflexivity|]. right. exists (strip c).
    split; [reflexivity|]. split; [|reflexivity].
    cbn [first_success] in Ef. destruct (try_json_loads (strip c)); [discriminate|reflexivity].
  - intros H. injection H as <-. split; [reflexivity|]. now left.
Qed.

Lemma tolerant_parser_fails_with_value_errors_witness :
  tolerant_parse_json_from_text ascii_host (pyq "{~a~: 1} {~b~: }")
  = Raise (failed_to_parse (pyq "{~a~: 1} {~b~: }")) /\
  class_of (failed_to_parse (pyq "{~a~: 1} {~b~: }")) = ClsValueError /\
  ((search_candidate (clean_markdown_json (pyq "{~a~: 1} {~b~: }")) = None /\
    failed_to_parse (pyq "{~a~: 1} {~b~: }") = no_json_block no_json_like_block) \/
   (exists candidate,
      extract_first_json_candidate (pyq "{~a~: 1} {~b~: }") = Ok candidate /\
      try_json_loads candidate = None /\
      failed_to_parse (pyq "{~a~: 1} {~b~: }") = failed_to_parse candidate)).
Proof.
  split; [vm_compute; reflexivity|].
  apply (tolerant_parser_fails_with_value_errors ascii_host (pyq "{~a~: 1} {~b~: }")).
  vm_compute. reflexivity.
Defined.

(** *** What the repair of trailing commas removes *)





(** *** The forms of a fence *)

(** No JSON text starts with a [j]. *)
Lemma json_head_not_j x r v : json_loads (x :: r) = Some v -> matches_ci 106 x = false.
Proof.
  intros H. destruct (matches_ci 106 x) eqn:E; [|reflexivity]. exfalso.
  assert (Hx : x = 106 \/ x = 74) by (unfold matches_ci in E; lia).
  revert H. destruct Hx as [-> | ->]; vm_compute; discriminate.
Qed.

Lemma starts_with_ci_tag tag rest :
  Forall2 (fun letter c => matches_ci letter c = true) (py "json") tag ->
  starts_with_ci (py "json") (tag ++ rest) = true /\ skipn 4 (tag ++ rest) = rest.
Proof.
  assert (Ej : py "json" = [106; 115; 111; 110]) by reflexivity.
  rewrite Ej. clear Ej. intros H.
  inversion H as [|? j ? t1 Hj H1]; subst. inversion H1 as [|? s ? t2 Hs H2]; subst.
  inversion H2 as [|? o ? t3 Ho H3]; subst. inversion H3 as [|? n ? t4 Hn H4]; subst.
  inversion H4; subst. cbn [app starts_with_ci skipn].
  rewrite Hj, Hs, Ho, Hn. split; reflexivity.
Qed.

Lemma sub_fence_open_fenced tag w x r :
  fence_tag tag -> all_space w -> is_space x = false -> matches_ci 106 x = false ->
  sub_fence_open (fence ++ tag ++ w ++ x :: r) = x :: r.
Proof.
  intros Ht Hw Hx Hj. unfold sub_fence_open. rewrite starts_with_app.
  change (skipn 3 (fence ++ ?X)) with X.
  destruct Ht as [-> | Ht].
  - cbn [app].
    assert (E : starts_with_ci (py "json") (w ++ x :: r) = false).
    { destruct Hw as [|y w' Hy _]; cbn [app].
      - change (py "json") with (106 :: py "son"). cbn [starts_with_ci]. now rewrite Hj.
      - change (py "json") with (106 :: py "son"). cbn [starts_with_ci].
        replace (matches_ci 106 y) with false; [reflexivity|].
        unfold matches_ci, is_space in *. lia. }
    rewrite E. rewrite lstrip_app_space by assumption. now apply lstrip_solid.
  - destruct (starts_with_ci_tag tag (w ++ x :: r) Ht) as [-> ->].
    rewrite lstrip_app_space by assumption. now apply lstrip_solid.
Qed.

Lemma clean_of_fence_forms tag w1 c w2 close :
  fence_tag tag -> fence_end close -> all_space w1 -> all_space w2 -> solid_ends c ->
  (forall x r, c = x :: r -> matches_ci 106 x = false) ->
  clean_markdown_json (fence ++ tag ++ w1 ++ c ++ w2 ++ close) = c.
Proof.
  intros Ht Hcl H1 H2 Hc Hj. pose proof (solid_ends_tight c Hc) as Htight.
  destruct Hc as [(x & r & E & Hx) (p & y & E' & Hy)].
  pose proof (solid_space _ Hx) as Hxs. pose proof (solid_space _ Hy) as Hys.
  specialize (Hj x r E).
  unfold clean_markdown_json.
  set (tail := match close with [] => [] | _ :: _ => w2 ++ close end).
  (* the blanks at the end go first, when no mark closes the text *)
  assert (HW : strip (fence ++ tag ++ w1 ++ c ++ w2 ++ close)
               = fence ++ tag ++ w1 ++ c ++ tail).
  { destruct Hcl as [-> | ->]; subst tail; cbn [fence].
    - apply strip_tight. split.
      + now exists 96, ([96; 96] ++ tag ++ w1 ++ c ++ w2 ++ fence).
      + exists (fence ++ tag ++ w1 ++ c ++ w2 ++ [96; 96]), 96.
        split; [|reflexivity]. unfold fence. norm_app. reflexivity.
    - rewrite !app_nil_r.
      replace (fence ++ tag ++ w1 ++ c ++ w2)
        with ([] ++ (fence ++ tag ++ w1 ++ c) ++ w2) by (norm_app; reflexivity).
      apply strip_core; [constructor|assumption|]. split.
      + now exists 96, ([96; 96] ++ tag ++ w1 ++ c).
      + exists (fence ++ tag ++ w1 ++ p), y. split; [|assumption].
        rewrite E'. norm_app. reflexivity. }
  rewrite HW.
  assert (Ho : sub_fence_open (fence ++ tag ++ w1 ++ c ++ tail) = c ++ tail).
  { rewrite E. cbn [app]. now apply sub_fence_open_fenced. }
  rewrite Ho.
  assert (HV : strip (c ++ tail) = c ++ tail).
  { destruct Hcl as [-> | ->]; subst tail; cbn [fence].
    - apply strip_tight. split.
      + exists x, (r ++ w2 ++ fence). split; [now rewrite E|assumption].
      + exists (c ++ w2 ++ [96; 96]), 96. split; [|reflexivity].
        unfold fence. norm_app. reflexivity.
    - rewrite app_nil_r. now apply strip_tight. }
  rewrite HV.
  assert (Hcut : sub_fence_close (c ++ tail) = c).
  { destruct Hcl as [-> | ->]; subst tail; cbn [fence].
    - rewrite E'. rewrite <- app_assoc. now apply sub_fence_close_cut.
    - rewrite app_nil_r, E'. apply sub_fence_close_keep; unfold solid in Hy; lia. }
  rewrite Hcut. now apply strip_tight.
Qed.

(** X10.  A fence in any of its forms.  For every text [t] that [json.loads]
    accepts, the tolerant parser returns the value of [t] when [t] stands
    after three backquotes, an optional [json] in any mix of cases and any
    blanks, and is followed by any blanks and the closing backquotes, or by
    blanks only. *)
Theorem fence_forms_parse_as_unwrapped (host : PyHost) tag w1 t w2 close v :
  fence_tag tag -> fence_end close -> all_space w1 -> all_space w2 ->
  json_loads t = Some v ->
  tolerant_parse_json_from_text host (fence ++ tag ++ w1 ++ t ++ w2 ++ close) = Ok v.
Proof.
  intros Ht Hcl H1 H2 H.
  destruct (json_loads_core t v H) as (a & c & b & -> & Ha & Hb & Hc & Hv).
  unfold tolerant_parse_json_from_text, try_json_loads.
  replace (fence ++ tag ++ w1 ++ (a ++ c ++ b) ++ w2 ++ close)
    with (fence ++ tag ++ (w1 ++ a) ++ c ++ (b ++ w2) ++ close) by (norm_app; reflexivity).
  rewrite clean_of_fence_forms; try assumption.
  - now rewrite Hv.
  - apply Forall_app. split; [exact H1|exact (json_blank_space a Ha)].
  - apply Forall_app. split; [exact (json_blank_space b Hb)|exact H2].
  - intros x r ->. exact (json_head_not_j x r v Hv).
Qed.

Lemma fence_forms_parse_as_unwrapped_witness :
  fence_tag (py "JSon") /\ fence_end [] /\ all_space [32] /\ all_space [10; 10] /\
  json_loads (pyq "{~a~: [1, null]}") = Some (PDict [(py "a", PList [PInt 1; PNone])]) /\
  tolerant_parse_json_from_text ascii_host
    (fence ++ py "JSon" ++ [32] ++ pyq "{~a~: [1, null]}" ++ [10; 10] ++ [])
  = Ok (PDict [(py "a", PList [PInt 1; PNone])]).
Proof.
  assert (Ht : fence_tag (py "JSon")) by (right; repeat constructor).
  assert (Hc : fence_end []) by now right.
  assert (H1 : all_space [32]) by (repeat constructor).
  assert (H2 : all_space [10; 10]) by (repeat constructor).
  assert (H : json_loads (pyq "{~a~: [1, null]}")
              = Some (PDict [(py "a", PList [PInt 1; PNone])])) by (vm_compute; reflexivity).
  repeat (split; [assumption|]).
  exact (fence_forms_parse_as_unwrapped ascii_host (py "JSon") [32]
           (pyq "{~a~: [1, null]}") [10; 10] [] _ Ht Hc H1 H2 H).
Defined.

(** ** The number normalizer *)

(** *** The text of a number *)

Section NumberText.

Variable host : PyHost.

Lemma is_decimal_ascii (c : Z) :
  c < 128 -> is_decimal host c = is_ascii_digit c.
Proof. intros H. unfold is_decimal. now replace (c <? 128) with true by lia. Qed.

Lemma keep_after_replace (both : bool) u :
  keep_number_chars host
    (if both then replace_char 44 [46] (replace_char 46 [] u)
     else replace_char 44 [46] u)
  = flat_map (number_char_text host both) u.
Proof.
  unfold keep_number_chars, replace_char.
  induction u as [|c u IH]; [now destruct both|].
  assert (H44 : is_decimal host 44 = false) by now rewrite is_decimal_ascii.
  assert (H46 : is_decimal host 46 = false) by now rewrite is_decimal_ascii.
  destruct both; cbn [flat_map]; unfold number_char_text at 1.
  - destruct (c =? 46) eqn:E46.
    + assert (c = 46) as -> by lia. cbn [app]. rewrite H46. cbn [orb]. exact IH.
    + cbn [app flat_map]. destruct (c =? 44) eqn:E44.
      * assert (c = 44) as -> by lia. rewrite H44. cbn [app filter orb].
        rewrite H46. cbn [orb]. now rewrite IH.
      * cbn [app filter]. rewrite E46, orb_false_r.
        destruct (is_decimal host c || (c =? 45)) eqn:Ed.
        -- replace (is_decimal host c || (c =? 46) || (c =? 45)) with true by lia.
           now rewrite IH.
        -- replace (is_decimal host c || (c =? 46) || (c =? 45)) with false by lia.
           exact IH.
  - destruct (c =? 44) eqn:E44.
    + assert (c = 44) as -> by lia. rewrite H44. cbn [app filter orb].
      rewrite H46. cbn [orb]. now rewrite IH.
    + cbn [app filter]. destruct (is_decimal host c || (c =? 45)) eqn:Ed.
      * replace (is_decimal host c || (c =? 46) || (c =? 45)) with true by lia.
        now rewrite IH.
      * destruct (c =? 46) eqn:E46.
        -- replace (is_decimal host c || true || (c =? 45)) with true by lia.
           assert (c = 46) as -> by lia. now rewrite IH.
        -- replace (is_decimal host c || false || (c =? 45)) with false by lia.
           exact IH.
Qed.

Lemma contains_replace_drop c x s :
  (c =? x) = false -> contains c (replace_char x [] s) = contains c s.
Proof. intros H. now apply contains_replace_other. Qed.

Lemma contains_despaced c s :
  is_space c = false -> contains c (despaced s) = contains c s.
Proof.
  intros Hc. unfold despaced.
  assert (c <> 32 /\ c <> 160) as [H1 H2] by (unfold is_space in Hc; lia).
  rewrite contains_replace_other, contains_replace_other, contains_strip;
    try assumption; try reflexivity; try lia.
  cbn [contains existsb]. lia.
Qed.

Lemma normalize_number_despaced s :
  normalize_number host (PStr s)
  = match flat_map (number_char_text host (contains 44 s && contains 46 s)) (despaced s) with
    | [] => Ok None
    | t => Ok (float_of_str host t)
    end.
Proof.
  unfold normalize_number, py_str. cbn [bind]. fold (despaced s).
  rewrite <- (contains_despaced 44 s), <- (contains_despaced 46 s) by reflexivity.
  rewrite <- keep_after_replace.
  destruct (contains 44 (despaced s) && contains 46 (despaced s));
    match goal with |- context [keep_number_chars host ?u] =>
      destruct (keep_number_chars host u) end; reflexivity.
Qed.

Section Blanks.

Hypothesis host_blanks : blanks_are_no_digits host.

Lemma number_char_text_blank both c :
  is_space c = true -> number_char_text host both c = [].
Proof.
  intros H. unfold number_char_text. rewrite (host_blanks c H).
  unfold is_space in H.
  replace (c =? 45) with false by lia. replace (c =? 44) with false by lia.
  replace (c =? 46) with false by lia. reflexivity.
Qed.

Lemma flat_map_blanks both w :
  all_space w -> flat_map (number_char_text host both) w = [].
Proof.
  induction 1 as [|c w Hc _ IH]; [reflexivity|]. cbn [flat_map].
  now rewrite number_char_text_blank, IH.
Qed.

Lemma flat_map_replace_char (g : Z -> pystr) x new u :
  flat_map g new = g x -> flat_map g (replace_char x new u) = flat_map g u.
Proof.
  intros H. unfold replace_char. induction u as [|c u IH]; [reflexivity|].
  cbn [flat_map]. rewrite flat_map_app, IH. f_equal.
  destruct (c =? x) eqn:E.
  - assert (c = x) as -> by lia. exact H.
  - cbn [flat_map]. apply app_nil_r.
Qed.

Lemma flat_map_despaced both s :
  flat_map (number_char_text host both) (despaced s)
  = flat_map (number_char_text host both) s.
Proof.
  unfold despaced.
  rewrite !flat_map_replace_char
    by (cbn [flat_map]; now rewrite !number_char_text_blank).
  destruct (strip_split s) as (w1 & w2 & H1 & H2 & E). rewrite E at 2.
  rewrite !flat_map_app, (flat_map_blanks both w1 H1), (flat_map_blanks both w2 H2).
  now rewrite app_nil_r.
Qed.

(** [normalize_number] on a text is [float] on its number text. *)
Lemma normalize_number_text s :
  normalize_number host (PStr s)
  = match number_text host s with
    | [] => Ok None
    | t => Ok (float_of_str host t)
    end.
Proof. rewrite normalize_number_despaced, flat_map_despaced. reflexivity. Qed.

End Blanks.

Lemma contains_filter (f : Z -> bool) c s :
  f c = true -> contains c (filter f s) = contains c s.
Proof.
  intros Hc. unfold contains. induction s as [|x s IH]; [reflexivity|]. cbn [filter].
  destruct (f x) eqn:Ex; cbn [existsb].
  - now rewrite IH.
  - rewrite IH. replace (c =? x) with false; [reflexivity|].
    symmetry. apply Z.eqb_neq. intros ->. congruence.
Qed.

Lemma number_text_filter s :
  number_text host (filter (is_number_char host) s) = number_text host s.
Proof.
  unfold number_text.
  rewrite !contains_filter
    by (unfold is_number_char; rewrite is_decimal_ascii by lia; reflexivity).
  generalize (contains 44 s && contains 46 s). intros both.
  induction s as [|c s IH]; [reflexivity|]. cbn [filter flat_map].
  destruct (is_number_char host c) eqn:E; cbn [flat_map]; rewrite IH; [reflexivity|].
  unfold number_char_text, is_number_char in *.
  replace (is_decimal host c || (c =? 45)) with false by lia.
  replace (c =? 44) with false by lia. replace (c =? 46) with false by lia. reflexivity.
Qed.

End NumberText.

(** X11.  In a text, [normalize_number] reads the decimal digits, commas,
    dots and minus signs only: all other characters can be taken out
    without changing what it returns, where no blank is a digit for the
    host. *)
Theorem normalize_number_reads_number_chars_only host s :
  blanks_are_no_digits host ->
  normalize_number host (PStr s)
  = normalize_number host (PStr (filter (is_number_char host) s)).
Proof.
  intros Hh. rewrite !normalize_number_text by assumption.
  now rewrite number_text_filter.
Qed.

Lemma ascii_host_blanks : blanks_are_no_digits ascii_host.
Proof.
  intros c H. unfold is_decimal, is_space, is_ascii_digit in *. cbn [unicode_decimal ascii_host].
  destruct (c <? 128) eqn:E; [lia|reflexivity].
Qed.

Lemma normalize_number_reads_number_chars_only_witness :
  blanks_are_no_digits ascii_host /\
  normalize_number ascii_host (PStr (py "EUR 1 234,50 HT"))
  = normalize_number ascii_host
      (PStr (filter (is_number_char ascii_host) (py "EUR 1 234,50 HT"))).
Proof.
  split; [exact ascii_host_blanks|].
  apply (normalize_number_reads_number_chars_only ascii_host (py "EUR 1 234,50 HT")).
  exact ascii_host_blanks.
Defined.

(** *** [float] on digits, dots and minus signs *)

Lemma plain_no_space c : is_plain c = true -> is_space c = false.
Proof. unfold is_plain, is_ascii_digit, is_space. lia. Qed.

Lemma drop_underscores_plain s : forall prev,
  prev <> 95 -> all_plain s -> drop_underscores prev s = Some s.
Proof.
  induction s as [|c s IH]; intros prev Hp Hs; cbn [drop_underscores].
  - now replace (prev =? 95) with false by lia.
  - inversion Hs as [|? ? Hc Hr]; subst.
    assert (c <> 95) by (unfold is_plain, is_ascii_digit in Hc; lia).
    replace (c =? 95) with false by lia. replace (prev =? 95) with false by lia.
    cbn [andb]. now rewrite IH.
Qed.

Lemma lstrip_c_plain c s : is_plain c = true -> lstrip_c (c :: s) = c :: s.
Proof.
  intros H. cbn [lstrip_c]. replace (is_c_space c) with false; [reflexivity|].
  unfold is_plain, is_ascii_digit, is_c_space in *. lia.
Qed.

Lemma float_of_str_plain host s :
  all_plain s -> s <> [] -> float_of_str host s = parse_float_ascii s.
Proof.
  intros Hs Hne. unfold float_of_str.
  assert (Hmap : List.map (to_ascii_digit_or_space host) s = s).
  { clear Hne. induction Hs as [|c s Hc _ IH]; [reflexivity|]. cbn [List.map].
    rewrite IH. f_equal. unfold to_ascii_digit_or_space.
    replace (c <? 127) with true; [reflexivity|].
    unfold is_plain, is_ascii_digit in Hc. lia. }
  rewrite Hmap, drop_underscores_plain by (assumption || lia).
  destruct s as [|c s]; [now destruct Hne|].
  inversion Hs as [|? ? Hc Hr]; subst.
  rewrite lstrip_c_plain by assumption.
  destruct (exists_last Hne) as (p & y & E). rewrite E.
  assert (Hy : is_plain y = true).
  { rewrite E in Hs. apply Forall_app in Hs as [_ Hy]. now inversion Hy. }
  rewrite rev_app_distr. cbn [rev app]. rewrite lstrip_c_plain by assumption.
  change (y :: rev p) with ([y] ++ rev p). rewrite rev_app_distr, rev_involutive.
  cbn [rev app]. destruct (p ++ [y]) eqn:Ep; [now destruct p|reflexivity].
Qed.

Lemma strip_no_space s : no_space s -> strip s = s.
Proof.
  intros H. destruct s as [|x r]; [reflexivity|].
  apply strip_tight. split.
  - exists x, r. split; [reflexivity|]. now inversion H.
  - assert (Hne : x :: r <> []) by discriminate.
    destruct (exists_last Hne) as (p & y & E). exists p, y. split; [assumption|].
    rewrite E in H. apply Forall_app in H as [_ H]. now inversion H.
Qed.

Lemma replace_char_absent x new s : contains x s = false -> replace_char x new s = s.
Proof.
  unfold contains, replace_char. induction s as [|c s IH]; [reflexivity|].
  cbn [existsb flat_map]. intros H. apply orb_false_iff in H as [H1 H2].
  rewrite (IH H2). rewrite Z.eqb_sym, H1. reflexivity.
Qed.

Lemma no_space_contains c s : is_space c = true -> no_space s -> contains c s = false.
Proof.
  intros Hc Hs. unfold contains. induction Hs as [|x s Hx _ IH]; [reflexivity|].
  cbn [existsb]. rewrite IH, orb_false_r. apply Z.eqb_neq. intros <-. congruence.
Qed.

Lemma despaced_no_space s : no_space s -> despaced s = s.
Proof.
  intros H. unfold despaced. rewrite strip_no_space by assumption.
  rewrite (replace_char_absent 160) by now apply no_space_contains.
  apply replace_char_absent. now apply no_space_contains.
Qed.

Lemma normalize_number_no_space host s :
  no_space s ->
  normalize_number host (PStr s)
  = match number_text host s with
    | [] => Ok None
    | t => Ok (float_of_str host t)
    end.
Proof. intros H. rewrite normalize_number_despaced, despaced_no_space; auto. Qed.

Lemma digits_no_space a : all_digits a -> no_space a.
Proof.
  intros H. eapply Forall_impl; [|exact H]. cbv beta. intros c.
  unfold is_ascii_digit, is_space. lia.
Qed.

Lemma digits_plain a : all_digits a -> all_plain a.
Proof.
  intros H. eapply Forall_impl; [|exact H]. cbv beta. intros c Hc.
  unfold is_plain. now rewrite Hc.
Qed.

Lemma contains_digits c a :
  is_ascii_digit c = false -> all_digits a -> contains c a = false.
Proof.
  intros Hc Ha. unfold contains. induction Ha as [|x a Hx _ IH]; [reflexivity|].
  cbn [existsb]. rewrite IH, orb_false_r. apply Z.eqb_neq. intros <-. congruence.
Qed.

Lemma flat_map_digits host both a :
  all_digits a -> flat_map (number_char_text host both) a = a.
Proof.
  induction 1 as [|c a Hc _ IH]; [reflexivity|]. cbn [flat_map]. rewrite IH.
  unfold number_char_text. rewrite is_decimal_ascii by (unfold is_ascii_digit in Hc; lia).
  now rewrite Hc.
Qed.

Lemma number_char_text_comma host both : number_char_text host both 44 = [46].
Proof. unfold number_char_text. now rewrite is_decimal_ascii. Qed.

Lemma number_char_text_dot host both :
  number_char_text host both 46 = if both then [] else [46].
Proof. unfold number_char_text. now rewrite is_decimal_ascii. Qed.

(** The number text of digits with two separators between them. *)
Lemma number_text_groups host a x b y c :
  all_digits a -> all_digits b -> all_digits c ->
  (x = 44 \/ x = 46) -> (y = 44 \/ y = 46) ->
  number_text host (a ++ [x] ++ b ++ [y] ++ c)
  = a ++ number_char_text host (negb (x =? y)) x
      ++ b ++ number_char_text host (negb (x =? y)) y ++ c.
Proof.
  intros Ha Hb Hc Hx Hy. unfold number_text.
  assert (Hboth : contains 44 (a ++ [x] ++ b ++ [y] ++ c)
                  && contains 46 (a ++ [x] ++ b ++ [y] ++ c) = negb (x =? y)).
  { rewrite !contains_app.
    rewrite (contains_digits 44 a), (contains_digits 44 b), (contains_digits 44 c),
      (contains_digits 46 a), (contains_digits 46 b), (contains_digits 46 c)
      by (assumption || reflexivity).
    cbn [contains existsb]. destruct Hx as [-> | ->], Hy as [-> | ->]; reflexivity. }
  rewrite Hboth, !flat_map_app.
  rewrite (flat_map_digits _ _ a Ha), (flat_map_digits _ _ b Hb), (flat_map_digits _ _ c Hc).
  cbn [flat_map]. now rewrite !app_nil_r.
Qed.

Lemma groups_no_space a x b y c :
  all_digits a -> all_digits b -> all_digits c ->
  (x = 44 \/ x = 46) -> (y = 44 \/ y = 46) ->
  no_space (a ++ [x] ++ b ++ [y] ++ c).
Proof.
  intros Ha Hb Hc Hx Hy. unfold no_space.
  repeat (apply Forall_app; split); try (now apply digits_no_space);
    constructor; try constructor; destruct Hx as [-> | ->], Hy as [-> | ->]; reflexivity.
Qed.

Lemma number_text_point host a b :
  all_digits a -> all_digits b ->
  number_text host (a ++ [46] ++ b) = a ++ [46] ++ b.
Proof.
  intros Ha Hb. unfold number_text. rewrite !contains_app.
  rewrite (contains_digits 44 a), (contains_digits 44 b) by (assumption || reflexivity).
  cbn [contains existsb orb andb].
  replace (44 =? 46) with false by reflexivity. cbn [orb andb].
  rewrite !flat_map_app, (flat_map_digits _ _ a Ha), (flat_map_digits _ _ b Hb).
  cbn [flat_map]. now rewrite number_char_text_dot, app_nil_r.
Qed.

Lemma point_no_space a b : all_digits a -> all_digits b -> no_space (a ++ [46] ++ b).
Proof.
  intros Ha Hb. unfold no_space.
  repeat (apply Forall_app; split); try (now apply digits_no_space).
  now repeat constructor.
Qed.

(** X12.  With a comma and a dot in the text, the comma is the decimal sign
    and the dots are dropped, whichever comes first. *)
Theorem comma_is_the_decimal_sign host a b c :
  all_digits a -> all_digits b -> all_digits c ->
  normalize_number host (PStr (a ++ [46] ++ b ++ [44] ++ c))
  = normalize_number host (PStr ((a ++ b) ++ [46] ++ c)) /\
  normalize_number host (PStr (a ++ [44] ++ b ++ [46] ++ c))
  = normalize_number host (PStr (a ++ [46] ++ (b ++ c))).
Proof.
  intros Ha Hb Hc.
  assert (Hab : all_digits (a ++ b)) by (apply Forall_app; now split).
  assert (Hbc : all_digits (b ++ c)) by (apply Forall_app; now split).
  rewrite !normalize_number_no_space
    by (apply groups_no_space || apply point_no_space; auto).
  rewrite !number_text_groups, !number_text_point by auto.
  rewrite number_char_text_comma, !number_char_text_dot.
  cbn [negb Z.eqb app]. replace (46 =? 44) with false by reflexivity.
  replace (44 =? 46) with false by reflexivity. cbn [negb app].
  now rewrite <- !app_assoc.
Qed.

Lemma comma_is_the_decimal_sign_witness :
  all_digits (py "1") /\ all_digits (py "234") /\ all_digits (py "56") /\
  normalize_number ascii_host (PStr (py "1" ++ [46] ++ py "234" ++ [44] ++ py "56"))
  = normalize_number ascii_host (PStr ((py "1" ++ py "234") ++ [46] ++ py "56")) /\
  normalize_number ascii_host (PStr (py "1" ++ [44] ++ py "234" ++ [46] ++ py "56"))
  = normalize_number ascii_host (PStr (py "1" ++ [46] ++ (py "234" ++ py "56"))).
Proof.
  split; [repeat constructor|]. split; [repeat constructor|]. split; [repeat constructor|].
  apply (comma_is_the_decimal_sign ascii_host (py "1") (py "234") (py "56"));
    repeat constructor.
Defined.

(** *** Parsing plain decimals *)

Lemma take_sign_none plus c r :
  c <> 45 -> c <> 43 -> take_sign plus (c :: r) = (false, c :: r).
Proof.
  intros H1 H2. unfold take_sign.
  replace (c =? 45) with false by lia. replace (c =? 43) with false by lia.
  now rewrite andb_false_r.
Qed.

Lemma plain_head_no_name c r :
  is_ascii_digit c = true \/ c = 46 ->
  str_eqb (List.map ascii_lower (c :: r)) (py "inf")
  || str_eqb (List.map ascii_lower (c :: r)) (py "infinity") = false /\
  str_eqb (List.map ascii_lower (c :: r)) (py "nan") = false.
Proof.
  intros H. cbn [List.map].
  assert (E : ascii_lower c = c).
  { unfold ascii_lower, is_ascii_digit in *.
    replace ((65 <=? c) && (c <=? 90)) with false by lia. reflexivity. }
  rewrite E.
  change (py "inf") with [105; 110; 102].
  change (py "infinity") with [105; 110; 102; 105; 110; 105; 116; 121].
  change (py "nan") with [110; 97; 110]. cbn [str_eqb].
  unfold is_ascii_digit in H.
  replace (c =? 105) with false by lia. replace (c =? 110) with false by lia.
  split; reflexivity.
Qed.

(** Digits, a dot, digits, and then nothing or another dot. *)
Lemma parse_float_ascii_point a b r2 :
  all_digits a -> all_digits b -> (r2 = [] \/ exists c, r2 = 46 :: c) ->
  parse_float_ascii (a ++ 46 :: b ++ r2)
  = match a ++ b, r2 with
    | _ :: _, [] =>
      Some (float_of_decimal false (digits_value 0 (a ++ b)) (- Z.of_nat (List.length b)))
    | _, _ => None
    end.
Proof.
  intros Ha Hb Hr. unfold parse_float_ascii.
  assert (Hhead : exists h t, a ++ 46 :: b ++ r2 = h :: t /\
                              (is_ascii_digit h = true \/ h = 46)).
  { destruct Ha as [|h a Hh Ha]; [exists 46, (b ++ r2)|exists h, (a ++ 46 :: b ++ r2)];
      (split; [reflexivity|auto]). }
  destruct Hhead as (h & t & E & Hh). rewrite E.
  rewrite take_sign_none by (unfold is_ascii_digit in Hh; lia).
  destruct (plain_head_no_name h t Hh) as [-> ->]. rewrite <- E.
  rewrite (span_digits_local a (46 :: b ++ r2) Ha eq_refl).
  replace (46 =? 46) with true by reflexivity.
  assert (Hnd : nondigit_head r2 = true) by (destruct Hr as [-> | [c ->]]; reflexivity).
  rewrite (span_digits_local b r2 Hb Hnd).
  destruct (a ++ b) as [|x l] eqn:Eab; [now destruct r2|].
  destruct Hr as [-> | [c ->]]; [reflexivity|].
  replace ((46 =? 101) || (46 =? 69)) with false by reflexivity. reflexivity.
Qed.

Lemma parse_float_ascii_digits a :
  all_digits a -> a <> [] ->
  parse_float_ascii a = Some (float_of_decimal false (digits_value 0 a) 0).
Proof.
  intros Ha Hne. unfold parse_float_ascii.
  destruct a as [|h t]; [now destruct Hne|].
  assert (Hh : is_ascii_digit h = true) by now inversion Ha.
  rewrite take_sign_none by (unfold is_ascii_digit in Hh; lia).
  destruct (plain_head_no_name h t (or_introl Hh)) as [-> ->].
  pose proof (span_digits_local (h :: t) [] Ha eq_refl) as Hs.
  rewrite app_nil_r in Hs. rewrite Hs. rewrite app_nil_r. reflexivity.
Qed.

(** X13.  Digits with two commas and no dot, or with two dots and no comma,
    are no number: [normalize_number] returns [None]. *)
Theorem repeated_separator_is_no_number host a b c sep :
  all_digits a -> all_digits b -> all_digits c -> sep = 44 \/ sep = 46 ->
  normalize_number host (PStr (a ++ [sep] ++ b ++ [sep] ++ c)) = Ok None.
Proof.
  intros Ha Hb Hc Hs.
  rewrite normalize_number_no_space by (apply groups_no_space; auto).
  rewrite number_text_groups by auto. rewrite Z.eqb_refl. cbn [negb].
  assert (E : number_char_text host false sep = [46]).
  { destruct Hs as [-> | ->];
      [apply number_char_text_comma|apply number_char_text_dot]. }
  rewrite E. cbn [app].
  assert (Hp : all_plain (a ++ 46 :: b ++ 46 :: c)).
  { unfold all_plain. apply Forall_app. split; [now apply digits_plain|].
    constructor; [reflexivity|]. apply Forall_app. split; [now apply digits_plain|].
    constructor; [reflexivity|now apply digits_plain]. }
  assert (Hne : a ++ 46 :: b ++ 46 :: c <> []) by (destruct a; discriminate).
  pose proof (float_of_str_plain host _ Hp Hne) as Hf.
  rewrite (parse_float_ascii_point a b (46 :: c) Ha Hb) in Hf by (right; now exists c).
  destruct (a ++ 46 :: b ++ 46 :: c) eqn:E'; [now destruct Hne|].
  rewrite Hf. now destruct (a ++ b).
Qed.

Lemma repeated_separator_is_no_number_witness :
  all_digits (py "1") /\ all_digits (py "234") /\ all_digits (py "567") /\
  (44 = 44 \/ 44 = 46) /\
  normalize_number ascii_host (PStr (py "1" ++ [44] ++ py "234" ++ [44] ++ py "567"))
  = Ok None.
Proof.
  split; [repeat constructor|]. split; [repeat constructor|]. split; [repeat constructor|].
  split; [now left|].
  apply (repeated_separator_is_no_number ascii_host (py "1") (py "234") (py "567") 44);
    [repeat constructor | repeat constructor | repeat constructor | now left].
Defined.

(** *** Integers below 2^53 are binary64 values *)

Lemma digits2_pos_lower p : 2 ^ (Zpos (digits2_pos p) - 1) <= Zpos p.
Proof.
  induction p as [p IH|p IH|]; cbn [digits2_pos].
  - rewrite Pos2Z.inj_succ. replace (Z.succ (Zpos (digits2_pos p)) - 1)
      with (Z.succ (Zpos (digits2_pos p) - 1)) by lia.
    rewrite Z.pow_succ_r by lia. lia.
  - rewrite Pos2Z.inj_succ. replace (Z.succ (Zpos (digits2_pos p)) - 1)
      with (Z.succ (Zpos (digits2_pos p) - 1)) by lia.
    rewrite Z.pow_succ_r by lia. lia.
  - reflexivity.
Qed.

Lemma digits2_pos_small p : Zpos p < 2 ^ 53 -> Zpos (digits2_pos p) <= 53.
Proof.
  intros H. pose proof (digits2_pos_lower p) as Hl.
  destruct (Z_le_gt_dec (Zpos (digits2_pos p)) 53) as [|Hgt]; [assumption|].
  assert (2 ^ 53 <= 2 ^ (Zpos (digits2_pos p) - 1)) by (apply Z.pow_le_mono_r; lia).
  lia.
Qed.

Lemma digits2_pos_shift k p :
  digits2_pos (Pos.iter xO p k) = (digits2_pos p + k)%positive.
Proof.
  induction k as [|k IH] using Pos.peano_ind.
  - cbn. lia.
  - rewrite Pos.iter_succ. cbn [digits2_pos]. rewrite IH. lia.
Qed.

Lemma shift_value k p : Zpos (Pos.iter xO p k) = Zpos p * 2 ^ Zpos k.
Proof.
  change (Pos.iter xO p k) with (shift_pos k p).
  rewrite shift_pos_correct. change (Z.pow_pos 2 k) with (2 ^ Zpos k). lia.
Qed.

Lemma binary_round_aux_canonical s m e :
  fexp prec emax (Zpos (digits2_pos m) + e) = e -> e <= emax - prec ->
  binary_round_aux prec emax s (Zpos m) e loc_Exact = S754_finite s m e.
Proof.
  intros Hc He. unfold binary_round_aux.
  assert (Hs : shr_fexp prec emax (Zpos m) e loc_Exact
               = ({| shr_m := Zpos m; shr_r := false; shr_s := false |}, e)).
  { unfold shr_fexp. cbn [Zdigits2]. rewrite Hc, Z.sub_diag. reflexivity. }
  rewrite Hs. cbn [shr_m loc_of_shr_record round_nearest_even]. rewrite Hs.
  cbn [shr_m]. now replace (e <=? emax - prec) with true by lia.
Qed.

(** [float(n)] for [0 < n < 2^53]: a float that is exactly [n]. *)
Lemma binary_round_small_int p :
  Zpos p < 2 ^ 53 ->
  exists m e,
    binary_round prec emax false p 0 = S754_finite false m e /\
    e <= 0 /\ Zpos m = Zpos p * 2 ^ (- e).
Proof.
  intros H. pose proof (digits2_pos_small p H) as Hd.
  unfold binary_round.
  assert (Hf : fexp prec emax (Zpos (digits2_pos p) + 0) = Zpos (digits2_pos p) - 53).
  { unfold fexp, emin, prec, emax. lia. }
  rewrite Hf. unfold shl_align. rewrite Z.sub_0_r.
  destruct (Zpos (digits2_pos p) - 53) as [|q|q] eqn:Eq; try lia.
  - exists p, 0. split; [|split; [lia|cbn; lia]].
    apply binary_round_aux_canonical; [|unfold prec, emax; lia].
    unfold fexp, emin, prec, emax. lia.
  - exists (Pos.iter xO p q), (Zneg q). split; [|split; [lia|]].
    + apply binary_round_aux_canonical; [|unfold prec, emax; lia].
      rewrite digits2_pos_shift. unfold fexp, emin, prec, emax. lia.
    + rewrite shift_value. reflexivity.
Qed.

Lemma float_of_decimal_small_int n :
  0 <= n < 2 ^ 53 ->
  float_exactly (float_of_decimal false n 0) n 1 = true /\
  float_trunc (float_of_decimal false n 0) = Some n.
Proof.
  intros [H0 H]. unfold float_of_decimal. destruct n as [|p|p]; [now split| |lia].
  replace (0 <=? 0) with true by reflexivity.
  replace (Zpos p * 10 ^ 0) with (Zpos p) by (cbn; lia).
  destruct (binary_round_small_int p H) as (m & e & -> & He & Hm).
  unfold float_exactly, float_trunc.
  destruct (0 <=? e) eqn:E0.
  - assert (e = 0) as -> by lia. rewrite Z.shiftl_0_r. cbn in Hm. split; [lia|f_equal; lia].
  - split; [lia|]. f_equal. rewrite Z.shiftr_div_pow2 by lia. rewrite Hm.
    apply Z.div_mul. assert (0 < 2 ^ (- e)) by (apply Z.pow_pos_nonneg; lia). lia.
Qed.

Lemma digits_value_nonneg ds : forall acc,
  all_digits ds -> 0 <= acc -> 0 <= digits_value acc ds.
Proof.
  induction ds as [|d ds IH]; intros acc Hd Ha; [exact Ha|].
  inversion Hd as [|? ? Hx Hr]; subst. cbn [digits_value]. apply IH; [assumption|].
  unfold is_ascii_digit in Hx. lia.
Qed.

(** What [normalize_number] returns for a text whose number characters
    are digits only. *)
Lemma normalize_number_digits host s ds :
  blanks_are_no_digits host ->
  filter (is_number_char host) s = ds -> ds <> [] -> all_digits ds ->
  normalize_number host (PStr s)
  = Ok (Some (float_of_decimal false (digits_value 0 ds) 0)).
Proof.
  intros Hh Hf Hne Hd.
  rewrite normalize_number_text by assumption.
  rewrite <- number_text_filter, Hf. unfold number_text.
  rewrite flat_map_digits by assumption.
  destruct ds as [|x l] eqn:E; [now destruct Hne|]. rewrite <- E in *.
  rewrite float_of_str_plain by (auto using digits_plain).
  now rewrite parse_float_ascii_digits.
Qed.

(** X14.  A whole number below 2^53 is read exactly, whatever stands between
    and around its digits that is no digit, comma, dot or minus sign. *)
Theorem whole_numbers_are_read_exactly host s ds :
  blanks_are_no_digits host ->
  filter (is_number_char host) s = ds -> ds <> [] -> all_digits ds ->
  digits_value 0 ds < 2 ^ 53 ->
  exists f, normalize_number host (PStr s) = Ok (Some f) /\
            float_exactly f (digits_value 0 ds) 1 = true.
Proof.
  intros Hh Hf Hne Hd Hlt.
  exists (float_of_decimal false (digits_value 0 ds) 0).
  split; [now apply normalize_number_digits|].
  apply float_of_decimal_small_int. split; [|assumption].
  now apply digits_value_nonneg.
Qed.

Lemma whole_numbers_are_read_exactly_witness :
  blanks_are_no_digits ascii_host /\
  filter (is_number_char ascii_host) (py "5 000 pcs") = py "5000" /\
  py "5000" <> [] /\ all_digits (py "5000") /\
  digits_value 0 (py "5000") < 2 ^ 53 /\
  exists f, normalize_number ascii_host (PStr (py "5 000 pcs")) = Ok (Some f) /\
            float_exactly f (digits_value 0 (py "5000")) 1 = true.
Proof.
  split; [exact ascii_host_blanks|]. split; [vm_compute; reflexivity|].
  split; [discriminate|]. split; [repeat constructor|]. split; [vm_compute; reflexivity|].
  apply (whole_numbers_are_read_exactly ascii_host (py "5 000 pcs") (py "5000"));
    [exact ascii_host_blanks | vm_compute; reflexivity | discriminate
    | repeat constructor | vm_compute; reflexivity].
Defined.

(** X15.  A quantity written as a whole number below 2^53 becomes that
    number. *)
Theorem quantity_in_digits_is_exact host d s ds :
  blanks_are_no_digits host ->
  dict_get d qty_key = Some (PStr s) ->
  filter (is_number_char host) s = ds -> ds <> [] -> all_digits ds ->
  digits_value 0 ds < 2 ^ 53 ->
  normalize_quantity host d = Ok (dict_set d qty_key (PInt (digits_value 0 ds))).
Proof.
  intros Hh Hg Hf Hne Hd Hlt. unfold normalize_quantity. rewrite Hg.
  rewrite (normalize_number_digits host s ds) by assumption. cbn [bind].
  assert (Hn : 0 <= digits_value 0 ds < 2 ^ 53)
    by (split; [now apply digits_value_nonneg|assumption]).
  destruct (float_of_decimal_small_int _ Hn) as [He Ht].
  assert (Hi : int_or_zero (Some (float_of_decimal false (digits_value 0 ds) 0))
               = Ok (digits_value 0 ds)).
  { unfold int_or_zero, int_of_float.
    destruct (float_of_decimal false (digits_value 0 ds) 0) as [sg|sg| |sg m e];
      cbn [float_is_zero]; try discriminate He.
    - cbn in Ht. now injection Ht as <-.
    - now rewrite Ht. }
  now rewrite Hi.
Qed.

Lemma quantity_in_digits_is_exact_witness :
  blanks_are_no_digits ascii_host /\
  dict_get [(py "Produit", PStr (py "Savon")); (qty_key, PStr (py "12 500"))] qty_key
  = Some (PStr (py "12 500")) /\
  filter (is_number_char ascii_host) (py "12 500") = py "12500" /\
  py "12500" <> [] /\ all_digits (py "12500") /\
  digits_value 0 (py "12500") < 2 ^ 53 /\
  normalize_quantity ascii_host
    [(py "Produit", PStr (py "Savon")); (qty_key, PStr (py "12 500"))]
  = Ok (dict_set [(py "Produit", PStr (py "Savon")); (qty_key, PStr (py "12 500"))]
          qty_key (PInt (digits_value 0 (py "12500")))).
Proof.
  split; [exact ascii_host_blanks|]. split; [vm_compute; reflexivity|].
  split; [vm_compute; reflexivity|].
  split; [discriminate|]. split; [repeat constructor|]. split; [vm_compute; reflexivity|].
  apply (quantity_in_digits_is_exact ascii_host _ (py "12 500") (py "12500"));
    [exact ascii_host_blanks | vm_compute; reflexivity | vm_compute; reflexivity
    | discriminate | repeat constructor | vm_compute; reflexivity].
Defined.

(** ** The mapper *)

(** *** The first choice *)

(** X16.  The text parsed is the content of the first choice: of its message,
    or of its delta when it has no message or an empty one; nothing else
    of the envelope is read. *)
Theorem first_choice_text_is_parsed host d f rest m s :
  dict_get d (py "choices") = Some (PList (PDict f :: rest)) ->
  (dict_get f (py "message") = Some (PDict m) /\ m <> []) \/
  ((dict_get f (py "message") = None \/ dict_get f (py "message") = Some PNone
    \/ dict_get f (py "message") = Some (PDict [])) /\
   dict_get f (py "delta") = Some (PDict m)) ->
  dict_get m (py "content") = Some (PStr s) ->
  parse_llm_response host (PDict d) = tolerant_parse_json_from_text host s.
Proof.
  intros Hc Hm Hs. unfold parse_llm_response, py_get_default.
  rewrite Hc. cbn [bind truthy negb first_item py_get].
  destruct Hm as [[Hm Hne] | [Hm Hd]].
  - rewrite Hm. destruct m as [|kv m']; [now destruct Hne|].
    cbn [truthy bind py_get]. now rewrite Hs.
  - assert (Hmsg : truthy (match dict_get f (py "message") with
                           | Some v => v | None => PNone end) = false).
    { destruct Hm as [-> | [-> | ->]]; reflexivity. }
    rewrite Hmsg, Hd. cbn [bind py_or].
    destruct m as [|kv m'].
    + cbn in Hs. discriminate Hs.
    + cbn [truthy bind py_get py_or]. now rewrite Hs.
Qed.

Lemma first_choice_text_is_parsed_witness :
  dict_get [(py "id", PStr (py "gen-1"));
            (py "choices",
             PList [PDict [(py "delta", PDict [(py "content", PStr (pyq "{~items~: []}"))])];
                    PDict [(py "message", PDict [(py "content", PStr (py "[1]"))])]])]
    (py "choices")
  = Some (PList (PDict [(py "delta", PDict [(py "content", PStr (pyq "{~items~: []}"))])]
                 :: [PDict [(py "message", PDict [(py "content", PStr (py "[1]"))])]])) /\
  parse_llm_response ascii_host
    (PDict [(py "id", PStr (py "gen-1"));
            (py "choices",
             PList [PDict [(py "delta", PDict [(py "content", PStr (pyq "{~items~: []}"))])];
                    PDict [(py "message", PDict [(py "content", PStr (py "[1]"))])]])])
  = tolerant_parse_json_from_text ascii_host (pyq "{~items~: []}").
Proof.
  split; [vm_compute; reflexivity|].
  apply (first_choice_text_is_parsed ascii_host _
           [(py "delta", PDict [(py "content", PStr (pyq "{~items~: []}"))])]
           [PDict [(py "message", PDict [(py "content", PStr (py "[1]"))])]]
           [(py "content", PStr (pyq "{~items~: []}"))] (pyq "{~items~: []}"));
    [vm_compute; reflexivity
    | right; split; [left; vm_compute; reflexivity | vm_compute; reflexivity]
    | vm_compute; reflexivity].
Defined.

(** *** The items keep their shape *)

Lemma dict_set_keys d k v v0 :
  dict_get d k = Some v0 -> List.map fst (dict_set d k v) = List.map fst d.
Proof.
  induction d as [|[k' v'] d IH]; [discriminate|]. cbn [dict_get dict_set].
  destruct (str_eqb k' k); [reflexivity|]. intros H. cbn [List.map fst].
  now rewrite IH.
Qed.

Section ShapeFacts.

Variable host : PyHost.

Lemma normalize_quantity_keys d d1 :
  normalize_quantity host d = Ok d1 -> List.map fst d1 = List.map fst d.
Proof.
  unfold normalize_quantity. destruct (dict_get d qty_key) as [v|] eqn:G.
  - destruct v; try (intros H; injection H as <-; reflexivity);
      (destruct (normalize_number host _); cbn [bind]; [|discriminate];
       destruct (int_or_zero _); cbn [bind]; [|discriminate];
       intros H; injection H as <-; eapply dict_set_keys; eassumption).
  - intros H. now injection H as <-.
Qed.

Lemma normalize_amount_keys field d d1 :
  normalize_amount host field d = Ok d1 -> List.map fst d1 = List.map fst d.
Proof.
  unfold normalize_amount. destruct (dict_get d field) as [v|] eqn:G.
  - destruct v; try (intros H; injection H as <-; reflexivity);
      (destruct (normalize_number host _); cbn [bind]; [|discriminate];
       intros H; injection H as <-; eapply dict_set_keys; eassumption).
  - intros H. now injection H as <-.
Qed.

Lemma normalize_vat_keys d : List.map fst (normalize_vat host d) = List.map fst d.
Proof.
  unfold normalize_vat. destruct (dict_get d vat_key) as [[| | | |t| |]|] eqn:G;
    try reflexivity.
  destruct (contains 37 _); eapply dict_set_keys; eassumption.
Qed.

Lemma normalised_key_split k :
  is_normalised_key k = false ->
  str_eqb qty_key k = false /\ str_eqb unit_price_key k = false /\
  str_eqb line_total_key k = false /\ str_eqb vat_key k = false.
Proof.
  unfold is_normalised_key. intros H.
  apply orb_false_iff in H as [H H4]. apply orb_false_iff in H as [H H3].
  apply orb_false_iff in H as [H1 H2]. auto.
Qed.

Lemma normalize_item_shape x y : normalize_item host x = Ok y -> same_shape x y.
Proof.
  destruct x as [| | | | | |d]; try discriminate. intros H.
  destruct (normalize_item_steps host d y H) as (d1 & d2 & d3 & H1 & H2 & H3 & ->).
  exists d, (normalize_vat host d3). split; [reflexivity|]. split; [reflexivity|]. split.
  - rewrite normalize_vat_keys, (normalize_amount_keys _ _ _ H3),
      (normalize_amount_keys _ _ _ H2). now apply normalize_quantity_keys.
  - intros k Hk. apply normalised_key_split in Hk as (K1 & K2 & K3 & K4).
    rewrite normalize_vat_other by assumption.
    rewrite (normalize_amount_other host _ _ _ _ H3) by assumption.
    rewrite (normalize_amount_other host _ _ _ _ H2) by assumption.
    now apply (normalize_quantity_other host _ _ _ H1).
Qed.

Lemma for_each_Forall2 (R : pyval -> pyval -> Prop) f :
  (forall x y, f x = Ok y -> R x y) ->
  forall l l', for_each f l = Ok l' -> Forall2 R l l'.
Proof.
  intros Hf. induction l as [|x l IH]; intros l' H; cbn [for_each] in H.
  - injection H as <-. constructor.
  - destruct (f x) as [y|] eqn:Ex; cbn [bind] in H; [|discriminate].
    destruct (for_each f l) as [ys|] eqn:El; cbn [bind] in H; [|discriminate].
    injection H as <-. constructor; auto.
Qed.

Lemma for_each_Forall (Q : pyval -> Prop) f :
  (forall x y, f x = Ok y -> Q y) ->
  forall l l', for_each f l = Ok l' -> Forall Q l'.
Proof.
  intros Hf. induction l as [|x l IH]; intros l' H; cbn [for_each] in H.
  - injection H as <-. constructor.
  - destruct (f x) as [y|] eqn:Ex; cbn [bind] in H; [|discriminate].
    destruct (for_each f l) as [ys|] eqn:El; cbn [bind] in H; [|discriminate].
    injection H as <-. constructor; eauto.
Qed.

(** What [extract_order_data] returns for a parsed object with a list of
    items: that object with the items the loop returned. *)
Lemma extract_order_data_items resp d l r :
  parse_llm_response host resp = Ok (PDict d) ->
  dict_get d (py "items") = Some (PList l) ->
  extract_order_data host resp = Ok r ->
  exists l', for_each (normalize_item host) l = Ok l' /\
             r = PDict (dict_set d (py "items") (PList l')).
Proof.
  intros Hp Hi. unfold extract_order_data. rewrite Hp.
  cbn [bind py_get_default]. rewrite Hi. cbn [py_iter bind].
  destruct (for_each (normalize_item host) l) as [l'|]; cbn [bind]; [|discriminate].
  intros H. injection H as <-. now exists l'.
Qed.

End ShapeFacts.

(** X17.  The loop keeps the items, their order, their fields and the order
    of their fields, and every value of a field it does not normalise. *)
Theorem extraction_keeps_the_shape host resp d l r :
  parse_llm_response host resp = Ok (PDict d) ->
  dict_get d (py "items") = Some (PList l) ->
  extract_order_data host resp = Ok r ->
  exists l',
    r = PDict (dict_set d (py "items") (PList l')) /\
    List.length l' = List.length l /\
    Forall2 same_shape l l'.
Proof.
  intros Hp Hi Hr.
  destruct (extract_order_data_items host resp d l r Hp Hi Hr) as (l' & Hl & ->).
  exists l'. split; [reflexivity|].
  assert (HF : Forall2 same_shape l l').
  { eapply for_each_Forall2; [|exact Hl]. apply normalize_item_shape. }
  split; [|exact HF]. symmetry. eapply Forall2_length. exact HF.
Qed.

Lemma extraction_keeps_the_shape_witness :
  parse_llm_response ascii_host
    (envelope (PStr (pyq "{~items~: [{~Produit~: ~Savon~, ~Qté~: ~2~}]}")))
  = Ok (PDict [(py "items",
                PList [PDict [(py "Produit", PStr (py "Savon"));
                              (qty_key, PStr (py "2"))]])]) /\
  dict_get [(py "items",
             PList [PDict [(py "Produit", PStr (py "Savon")); (qty_key, PStr (py "2"))]])]
    (py "items")
  = Some (PList [PDict [(py "Produit", PStr (py "Savon")); (qty_key, PStr (py "2"))]]) /\
  extract_order_data ascii_host
    (envelope (PStr (pyq "{~items~: [{~Produit~: ~Savon~, ~Qté~: ~2~}]}")))
  = Ok (PDict [(py "items",
                PList [PDict [(py "Produit", PStr (py "Savon")); (qty_key, PInt 2)]])]) /\
  exists l',
    PDict [(py "items",
            PList [PDict [(py "Produit", PStr (py "Savon")); (qty_key, PInt 2)]])]
    = PDict (dict_set
               [(py "items",
                 PList [PDict [(py "Produit", PStr (py "Savon"));
                               (qty_key, PStr (py "2"))]])]
               (py "items") (PList l')) /\
    List.length l' = 1%nat /\
    Forall2 same_shape
      [PDict [(py "Produit", PStr (py "Savon")); (qty_key, PStr (py "2"))]] l'.
Proof.
  split; [vm_compute; reflexivity|]. split; [vm_compute; reflexivity|].
  split; [vm_compute; reflexivity|].
  apply (extraction_keeps_the_shape ascii_host
           (envelope (PStr (pyq "{~items~: [{~Produit~: ~Savon~, ~Qté~: ~2~}]}")))
           [(py "items",
             PList [PDict [(py "Produit", PStr (py "Savon")); (qty_key, PStr (py "2"))]])]
           [PDict [(py "Produit", PStr (py "Savon")); (qty_key, PStr (py "2"))]]
           (PDict [(py "items",
                    PList [PDict [(py "Produit", PStr (py "Savon"));
                                  (qty_key, PInt 2)]])]));
    vm_compute; reflexivity.
Defined.

(** *** The types of the normalised fields *)

Section TypeFacts.

Variable host : PyHost.

Lemma normalize_quantity_typed d d1 :
  normalize_quantity host d = Ok d1 -> int_or_none (dict_get d1 qty_key).
Proof.
  unfold normalize_quantity, int_or_none.
  destruct (dict_get d qty_key) as [v|] eqn:G.
  - destruct v; try (intros H; injection H as <-; rewrite G; eauto; fail);
      (destruct (normalize_number host _); cbn [bind]; [|discriminate];
       destruct (int_or_zero _) as [q|]; cbn [bind]; [|discriminate];
       intros H; injection H as <-; rewrite dict_get_set_same; eauto).
  - intros H. injection H as <-. rewrite G. auto.
Qed.

Lemma normalize_amount_typed field d d1 :
  normalize_amount host field d = Ok d1 -> float_or_none (dict_get d1 field).
Proof.
  unfold normalize_amount, float_or_none.
  destruct (dict_get d field) as [v|] eqn:G.
  - destruct v; try (intros H; injection H as <-; rewrite G; eauto; fail);
      (destruct (normalize_number host _) as [[g|]|]; cbn [bind]; try discriminate;
       intros H; injection H as <-; rewrite dict_get_set_same; cbn [of_option_float];
       eauto).
  - intros H. injection H as <-. rewrite G. auto.
Qed.

Lemma normalize_vat_typed d t : dict_get (normalize_vat host d) vat_key <> Some (PStr t).
Proof.
  unfold normalize_vat. destruct (dict_get d vat_key) as [v|] eqn:G.
  - destruct v; try (rewrite G; discriminate).
    destruct (contains 37 _); rewrite dict_get_set_same;
      match goal with |- context [of_option_float ?o] => destruct o end; discriminate.
  - rewrite G. discriminate.
Qed.

Lemma normalize_item_typed x y : normalize_item host x = Ok y -> normalised_item y.
Proof.
  destruct x as [| | | | | |d]; try discriminate. intros H.
  destruct (normalize_item_steps host d y H) as (d1 & d2 & d3 & H1 & H2 & H3 & ->).
  exists (normalize_vat host d3). split; [reflexivity|].
  split; [|split; [|split]].
  - rewrite (normalize_vat_other host d3 qty_key) by reflexivity.
    rewrite (normalize_amount_other host _ _ _ qty_key H3) by reflexivity.
    rewrite (normalize_amount_other host _ _ _ qty_key H2) by reflexivity.
    exact (normalize_quantity_typed d d1 H1).
  - rewrite (normalize_vat_other host d3 unit_price_key) by reflexivity.
    rewrite (normalize_amount_other host _ _ _ unit_price_key H3) by reflexivity.
    eapply normalize_amount_typed; eassumption.
  - rewrite (normalize_vat_other host d3 line_total_key) by reflexivity.
    eapply normalize_amount_typed; eassumption.
  - intros t. apply normalize_vat_typed.
Qed.

End TypeFacts.

(** X18.  In what the extraction returns, every item of a list of items is a
    dict whose quantity is an [int] and whose amounts are [float]s, unless
    missing or [None], and whose VAT rate is no text. *)
Theorem extracted_items_are_typed host resp r :
  extract_order_data host resp = Ok r ->
  exists d', r = PDict d' /\
    forall l', dict_get d' (py "items") = Some (PList l') -> Forall normalised_item l'.
Proof.
  unfold extract_order_data.
  destruct (parse_llm_response host resp) as [extracted|]; cbn [bind]; [|discriminate].
  destruct (py_get_default extracted (py "items") (PList [])) as [items|];
    cbn [bind]; [|discriminate].
  destruct (py_iter items) as [elems|] eqn:Ei; cbn [bind]; [|discriminate].
  destruct (for_each (normalize_item host) elems) as [done|] eqn:Ef;
    cbn [bind]; [|discriminate].
  destruct extracted as [| | | | | |d]; try discriminate.
  intros H. injection H as <-. eexists. split; [reflexivity|].
  intros l'. rewrite dict_get_set_same. intros E.
  destruct items; try discriminate E. injection E as <-.
  cbn [py_iter] in Ei. injection Ei as <-.
  eapply for_each_Forall; [|exact Ef]. apply normalize_item_typed.
Qed.

Lemma extracted_items_are_typed_witness :
  extract_order_data ascii_host
    (envelope (PStr (pyq "{~items~: [{~Qté~: ~2~, ~P.U. H.T.~: ~abc~, ~Taux TVA~: ~n/a~}]}")))
  = Ok (PDict [(py "items",
                PList [PDict [(qty_key, PInt 2); (unit_price_key, PNone);
                              (vat_key, PNone)]])]) /\
  exists d',
    PDict [(py "items",
            PList [PDict [(qty_key, PInt 2); (unit_price_key, PNone); (vat_key, PNone)]])]
    = PDict d' /\
    forall l', dict_get d' (py "items") = Some (PList l') -> Forall normalised_item l'.
Proof.
  split; [vm_compute; reflexivity|].
  apply (extracted_items_are_typed ascii_host
           (envelope (PStr (pyq "{~items~: [{~Qté~: ~2~, ~P.U. H.T.~: ~abc~, ~Taux TVA~: ~n/a~}]}")))).
  vm_compute. reflexivity.
Defined.

(** *** Items that stop the extraction *)

(** X19.  A quantity that [json.loads] read as [NaN] or as an infinity stops
    the extraction at the first item: [int] raises on it. *)
Theorem non_finite_quantity_stops_the_extraction host resp d i rest f :
  parse_llm_response host resp = Ok (PDict d) ->
  dict_get d (py "items") = Some (PList (PDict i :: rest)) ->
  dict_get i qty_key = Some (PFloat f) ->
  (f = S754_nan ->
   extract_order_data host resp
   = Raise (ValueError (py "cannot convert float NaN to integer"))) /\
  (forall s, f = S754_infinity s -> extract_order_data host resp = Raise OverflowError).
Proof.
  intros Hp Hi Hq. unfold extract_order_data. rewrite Hp.
  cbn [bind py_get_default]. rewrite Hi. cbn [py_iter bind for_each normalize_item].
  unfold normalize_quantity. rewrite Hq.
  split; [intros ->|intros s ->]; reflexivity.
Qed.

Lemma non_finite_quantity_stops_the_extraction_witness :
  parse_llm_response ascii_host (envelope (PStr (pyq "{~items~: [{~Qté~: Infinity}]}")))
  = Ok (PDict [(py "items", PList [PDict [(qty_key, PFloat (S754_infinity false))]])]) /\
  dict_get [(py "items", PList [PDict [(qty_key, PFloat (S754_infinity false))]])]
    (py "items")
  = Some (PList (PDict [(qty_key, PFloat (S754_infinity false))] :: [])) /\
  dict_get [(qty_key, PFloat (S754_infinity false))] qty_key
  = Some (PFloat (S754_infinity false)) /\
  extract_order_data ascii_host (envelope (PStr (pyq "{~items~: [{~Qté~: Infinity}]}")))
  = Raise OverflowError.
Proof.
  split; [vm_compute; reflexivity|]. split; [vm_compute; reflexivity|].
  split; [vm_compute; reflexivity|].
  apply (proj2 (non_finite_quantity_stops_the_extraction ascii_host
                  (envelope (PStr (pyq "{~items~: [{~Qté~: Infinity}]}")))
                  [(py "items", PList [PDict [(qty_key, PFloat (S754_infinity false))]])]
                  [(qty_key, PFloat (S754_infinity false))] []
                  (S754_infinity false)
                  ltac:(vm_compute; reflexivity) ltac:(vm_compute; reflexivity)
                  ltac:(vm_compute; reflexivity)) false eq_refl).
Defined.

(** X20.  Items that are [None] or a number cannot be iterated, and a first
    item that is no dict has no [get]: the extraction raises. *)
Theorem malformed_items_stop_the_extraction host resp d v :
  parse_llm_response host resp = Ok (PDict d) ->
  dict_get d (py "items") = Some v ->
  (v = PNone \/ is_number v = true -> extract_order_data host resp = Raise TypeError) /\
  (forall x rest, v = PList (x :: rest) -> (forall i, x <> PDict i) ->
     extract_order_data host resp = Raise AttributeError).
Proof.
  intros Hp Hi. unfold extract_order_data. rewrite Hp.
  cbn [bind py_get_default]. rewrite Hi. split.
  - intros [-> | Hn]; [reflexivity|]. destruct v; try discriminate Hn; reflexivity.
  - intros x rest -> Hx. cbn [py_iter bind for_each].
    destruct x; try reflexivity. now destruct (Hx d0).
Qed.

Lemma malformed_items_stop_the_extraction_witness :
  parse_llm_response ascii_host (envelope (PStr (pyq "{~items~: null}")))
  = Ok (PDict [(py "items", PNone)]) /\
  dict_get [(py "items", PNone)] (py "items") = Some PNone /\
  extract_order_data ascii_host (envelope (PStr (pyq "{~items~: null}"))) = Raise TypeError.
Proof.
  split; [vm_compute; reflexivity|]. split; [vm_compute; reflexivity|].
  apply (proj1 (malformed_items_stop_the_extraction ascii_host
                  (envelope (PStr (pyq "{~items~: null}")))
                  [(py "items", PNone)] PNone
                  ltac:(vm_compute; reflexivity) ltac:(vm_compute; reflexivity))).
  now left.
Defined.

(** ** The uploaded file *)

(** *** File names *)

Lemma after_last_spec c s :
  match after_last c s with
  | Some t => exists h, s = h ++ c :: t /\ contains c t = false
  | None => contains c s = false
  end.
Proof.
  induction s as [|x s IH]; [reflexivity|]. cbn [after_last].
  destruct (after_last c s) as [t|].
  - destruct IH as (h & -> & Ht). now exists (x :: h).
  - destruct (x =? c) eqn:E.
    + assert (x = c) as -> by lia. now exists [].
    + cbn [contains existsb]. rewrite Z.eqb_sym, E. exact IH.
Qed.

Lemma after_last_app c h t :
  contains c t = false -> after_last c (h ++ c :: t) = Some t.
Proof.
  intros Ht. induction h as [|x h IH]; cbn [app after_last].
  - pose proof (after_last_spec c t) as Hs. destruct (after_last c t) as [t'|].
    + destruct Hs as (h' & E & _). rewrite E, contains_after in Ht. discriminate Ht.
    + now rewrite Z.eqb_refl.
  - now rewrite IH.
Qed.

Lemma in_set_In x s : in_set x s = true <-> In x s.
Proof.
  unfold in_set. rewrite existsb_exists. split.
  - intros (y & Hy & E). apply str_eqb_eq in E. now subst.
  - intros H. exists x. split; [assumption|apply str_eqb_refl].
Qed.

Lemma allowed_file_accepts unicode_lower stem ext :
  contains 46 ext = false ->
  In (str_lower unicode_lower ext) ALLOWED_EXTENSIONS ->
  allowed_file unicode_lower (stem ++ [46] ++ ext) = true.
Proof.
  intros Hext Hin. unfold allowed_file. cbn [app].
  rewrite contains_after, after_last_app by assumption. now apply in_set_In.
Qed.

(** X21.  A file name is allowed exactly when what follows its last dot is,
    in lower case, one of the five extensions. *)
Theorem allowed_file_reads_the_last_extension unicode_lower filename :
  allowed_file unicode_lower filename = true <->
  exists stem ext,
    filename = stem ++ [46] ++ ext /\ contains 46 ext = false /\
    In (str_lower unicode_lower ext) ALLOWED_EXTENSIONS.
Proof.
  split.
  - unfold allowed_file. intros H. apply andb_true_iff in H as [_ H].
    pose proof (after_last_spec 46 filename) as Hs.
    destruct (after_last 46 filename) as [ext|]; [|discriminate].
    destruct Hs as (stem & -> & Hext). exists stem, ext.
    split; [reflexivity|]. split; [assumption|]. now apply in_set_In.
  - intros (stem & ext & -> & Hext & Hin). now apply allowed_file_accepts.
Qed.

Lemma ascii_lower_ascii c : (ascii_lower c <? 128) = (c <? 128).
Proof. unfold ascii_lower. destruct ((65 <=? c) && (c <=? 90)) eqn:E; lia. Qed.

Lemma is_ascii_lower ext : is_ascii (List.map ascii_lower ext) = is_ascii ext.
Proof.
  unfold is_ascii. induction ext as [|c ext IH]; [reflexivity|].
  cbn [List.map forallb]. now rewrite ascii_lower_ascii, IH.
Qed.

Lemma ascii_lower_no_dot ext :
  contains 46 (List.map ascii_lower ext) = contains 46 ext.
Proof.
  unfold contains. induction ext as [|c ext IH]; [reflexivity|].
  cbn [List.map existsb]. rewrite IH. f_equal. unfold ascii_lower.
  destruct ((65 <=? c) && (c <=? 90)) eqn:E; lia.
Qed.

(** X22.  Whatever the stem and whatever the case of its letters, a name
    that ends with a dot and one of the five extensions is allowed. *)
Theorem allowed_extension_in_any_case unicode_lower stem ext :
  In (List.map ascii_lower ext) ALLOWED_EXTENSIONS ->
  allowed_file unicode_lower (stem ++ [46] ++ ext) = true.
Proof.
  intros Hin.
  assert (Hprop : is_ascii (List.map ascii_lower ext) = true /\
                  contains 46 (List.map ascii_lower ext) = false).
  { unfold ALLOWED_EXTENSIONS in Hin. cbn [In] in Hin.
    destruct Hin as [<-|[<-|[<-|[<-|[<-|[]]]]]]; split; reflexivity. }
  destruct Hprop as [Ha Hd]. rewrite is_ascii_lower in Ha. rewrite ascii_lower_no_dot in Hd.
  apply allowed_file_accepts; [assumption|].
  unfold str_lower. now rewrite Ha.
Qed.

Lemma allowed_extension_in_any_case_witness :
  In (List.map ascii_lower (py "PDF")) ALLOWED_EXTENSIONS /\
  allowed_file (fun s => s) (py "../bon.v2.exe" ++ [46] ++ py "PDF") = true.
Proof.
  split; [vm_compute; tauto|].
  apply (allowed_extension_in_any_case (fun s => s) (py "../bon.v2.exe") (py "PDF")).
  vm_compute. tauto.
Defined.

(** ** Numbers in French notation *)

(** *** Decimal digits *)

Lemma digits_rev_digits fuel : forall n, all_digits (digits_rev fuel n).
Proof.
  induction fuel as [|k IH]; intros n; cbn [digits_rev]; [constructor|].
  constructor.
  - pose proof (Z.mod_pos_bound n 10 ltac:(lia)). unfold is_ascii_digit. lia.
  - destruct (n <? 10); [constructor|apply IH].
Qed.

Lemma digits_value_app a : forall acc b,
  digits_value acc (a ++ b) = digits_value (digits_value acc a) b.
Proof. induction a as [|x a IH]; intros acc b; [reflexivity|]. cbn. apply IH. Qed.

Lemma digits_rev_value fuel : forall n,
  0 <= n < 10 ^ Z.of_nat fuel -> digits_value 0 (rev (digits_rev fuel n)) = n.
Proof.
  induction fuel as [|k IH]; intros n Hn.
  - change (10 ^ Z.of_nat 0) with 1 in Hn. cbn [digits_rev rev digits_value]. lia.
  - cbn [digits_rev rev]. rewrite digits_value_app. cbn [digits_value].
    rewrite Nat2Z.inj_succ, Z.pow_succ_r in Hn by lia.
    destruct (n <? 10) eqn:E.
    + cbn [rev digits_value]. rewrite Z.mod_small by lia. lia.
    + rewrite IH.
      * pose proof (Z.div_mod n 10 ltac:(lia)). lia.
      * split; [apply Z.div_pos; lia|]. apply Z.div_lt_upper_bound; lia.
Qed.

Lemma decimal_fuel n : 0 <= n -> n < 10 ^ Z.of_nat (S (Z.to_nat (Z.log2 n))).
Proof.
  intros Hn. rewrite Nat2Z.inj_succ, Z2Nat.id by apply Z.log2_nonneg.
  destruct (Z.eq_dec n 0) as [->|Hz]; [reflexivity|].
  pose proof (Z.log2_spec n ltac:(lia)) as [_ Hs].
  eapply Z.lt_le_trans; [exact Hs|].
  apply Z.pow_le_mono_l. pose proof (Z.log2_nonneg n). lia.
Qed.

Lemma int_digits_value n : 0 <= n -> digits_value 0 (int_digits n) = n.
Proof.
  intros Hn. unfold int_digits, decimal_rev. apply digits_rev_value.
  split; [assumption|now apply decimal_fuel].
Qed.

Lemma int_digits_digits n : all_digits (int_digits n).
Proof. unfold int_digits, decimal_rev. apply Forall_rev, digits_rev_digits. Qed.

Lemma int_digits_not_nil n : int_digits n <> [].
Proof.
  unfold int_digits, decimal_rev. cbn [digits_rev rev].
  intros E. now apply app_eq_nil in E as [_ E].
Qed.

Lemma fixed_digits_zero d : fixed_digits d 0 = repeat 48 d.
Proof.
  induction d as [|d IH]; [reflexivity|]. cbn [fixed_digits].
  change (0 / 10) with 0. rewrite IH. change (48 + 0 mod 10) with 48.
  symmetry. apply repeat_cons.
Qed.

Lemma fixed_digits_digits d : forall n, all_digits (fixed_digits d n).
Proof.
  induction d as [|d IH]; intros n; cbn [fixed_digits]; [constructor|].
  apply Forall_app. split; [apply IH|]. constructor; [|constructor].
  pose proof (Z.mod_pos_bound n 10 ltac:(lia)). unfold is_ascii_digit. lia.
Qed.

Lemma fixed_digits_length d : forall n, List.length (fixed_digits d n) = d.
Proof.
  induction d as [|d IH]; intros n; cbn [fixed_digits]; [reflexivity|].
  rewrite length_app, IH. cbn. lia.
Qed.

(** *** Groups of three *)

Lemma replace_char_app c new a b :
  replace_char c new (a ++ b) = replace_char c new a ++ replace_char c new b.
Proof. unfold replace_char. apply flat_map_app. Qed.

Lemma replace_char_rev_one c x a :
  replace_char c [x] (rev a) = rev (replace_char c [x] a).
Proof.
  induction a as [|y a IH]; [reflexivity|]. cbn [rev].
  rewrite replace_char_app, IH. unfold replace_char at 2 3. cbn [flat_map].
  rewrite app_nil_r. destruct (y =? c); cbn [app rev]; reflexivity.
Qed.

Lemma replace_char_rev_drop c a :
  replace_char c [] (rev a) = rev (replace_char c [] a).
Proof.
  induction a as [|y a IH]; [reflexivity|]. cbn [rev].
  rewrite replace_char_app, IH. unfold replace_char at 2 3. cbn [flat_map].
  rewrite app_nil_r. destruct (y =? c); cbn [app rev]; [now rewrite app_nil_r|reflexivity].
Qed.

(** Without its separators, a grouped number is its digits. *)
Lemma ungroup ds :
  all_digits ds ->
  replace_char 32 [] (replace_char 44 [32] (group3_rev ds)) = ds.
Proof.
  assert (Hd : forall x, is_ascii_digit x = true ->
                 forall r, replace_char 32 [] (replace_char 44 [32] (x :: r))
                           = x :: replace_char 32 [] (replace_char 44 [32] r)).
  { intros x Hx r. unfold replace_char. cbn [flat_map].
    unfold is_ascii_digit in Hx. replace (x =? 44) with false by lia.
    cbn [app flat_map]. now replace (x =? 32) with false by lia. }
  assert (Hc : forall r, replace_char 32 [] (replace_char 44 [32] (44 :: r))
                         = replace_char 32 [] (replace_char 44 [32] r)).
  { intros r. reflexivity. }
  assert (H : forall n ds, (List.length ds <= n)%nat -> all_digits ds ->
                replace_char 32 [] (replace_char 44 [32] (group3_rev ds)) = ds).
  { induction n as [|n IH]; intros l Hl Ha.
    - destruct l; [reflexivity|cbn in Hl; lia].
    - destruct l as [|a [|b [|c r]]]; [reflexivity| | |].
      + inversion Ha; subst. cbn [group3_rev]. now rewrite Hd.
      + inversion Ha as [|? ? Ha1 Ha2]; subst. inversion Ha2; subst.
        cbn [group3_rev]. now rewrite !Hd.
      + inversion Ha as [|? ? Ha1 Ha2]; subst. inversion Ha2 as [|? ? Hb1 Hb2]; subst.
        inversion Hb2 as [|? ? Hc1 Hc2]; subst. cbn [group3_rev].
        rewrite !Hd by assumption. do 3 f_equal.
        destruct r as [|x r]; [reflexivity|]. rewrite Hc. apply IH; [|assumption].
        cbn [List.length] in *. lia. }
  intros Ha. now apply (H (List.length ds)).
Qed.

Lemma format_int_grouped_ungroup n :
  replace_char 32 [] (spaced n)
  = (if n <? 0 then [45] else []) ++ int_digits (Z.abs n).
Proof.
  unfold spaced, format_int_grouped, int_digits.
  rewrite !replace_char_app. f_equal.
  - now destruct (n <? 0).
  - rewrite replace_char_rev_one, replace_char_rev_drop. f_equal.
    apply ungroup. unfold decimal_rev. apply digits_rev_digits.
Qed.

(** *** Decimals that are whole numbers below 2^53 are binary64 values *)

Lemma digits2_pos_upper p : Zpos p < 2 ^ Zpos (digits2_pos p).
Proof.
  induction p as [p IH|p IH|]; cbn [digits2_pos].
  - rewrite Pos2Z.inj_succ, Z.pow_succ_r by lia. lia.
  - rewrite Pos2Z.inj_succ, Z.pow_succ_r by lia. lia.
  - reflexivity.
Qed.

Lemma digits2_pos_le p k : 0 <= k -> Zpos p < 2 ^ k -> Zpos (digits2_pos p) <= k.
Proof.
  intros Hk H. pose proof (digits2_pos_lower p) as Hl.
  destruct (Z_le_gt_dec (Zpos (digits2_pos p)) k) as [|Hgt]; [assumption|].
  assert (2 ^ k <= 2 ^ (Zpos (digits2_pos p) - 1)) by (apply Z.pow_le_mono_r; lia).
  lia.
Qed.

Lemma digits2_pos_mul p q :
  Zpos (digits2_pos (p * q)) <= Zpos (digits2_pos p) + Zpos (digits2_pos q).
Proof.
  apply digits2_pos_le; [lia|]. rewrite Pos2Z.inj_mul, Z.pow_add_r by lia.
  pose proof (digits2_pos_upper p). pose proof (digits2_pos_upper q).
  apply Z.mul_lt_mono_nonneg; lia.
Qed.

Lemma iter_pos_nat {A : Type} (f : A -> A) p : forall x,
  iter_pos f p x = Nat.iter (Pos.to_nat p) f x.
Proof.
  induction p as [p IH|p IH|]; intros x; cbn [iter_pos].
  - rewrite !IH, Pos2Nat.inj_xI. cbn [Nat.mul]. rewrite Nat.add_0_r.
    rewrite Nat.iter_succ_r. now rewrite Nat.iter_add.
  - rewrite !IH, Pos2Nat.inj_xO. cbn [Nat.mul]. rewrite Nat.add_0_r.
    now rewrite Nat.iter_add.
  - reflexivity.
Qed.

Lemma shift_nat_iter p k : Pos.iter xO p k = Nat.iter (Pos.to_nat k) xO p.
Proof. apply Pos2Nat.inj_iter. Qed.

Lemma shr_zero_bits j : forall i p,
  Nat.iter j shr_1 {| shr_m := Zpos (Nat.iter (j + i) xO p); shr_r := false; shr_s := false |}
  = {| shr_m := Zpos (Nat.iter i xO p); shr_r := false; shr_s := false |}.
Proof.
  induction j as [|j IH]; intros i p; [reflexivity|].
  rewrite Nat.iter_succ_r. cbn [Nat.add]. rewrite Nat.iter_succ.
  cbn [shr_1 orb]. apply IH.
Qed.

Lemma binary_round_aux_exact s q e m' e' :
  shr_fexp prec emax q e loc_Exact
  = ({| shr_m := Zpos m'; shr_r := false; shr_s := false |}, e') ->
  fexp prec emax (Zpos (digits2_pos m') + e') = e' -> e' <= emax - prec ->
  binary_round_aux prec emax s q e loc_Exact = S754_finite s m' e'.
Proof.
  intros H1 Hc He. unfold binary_round_aux. rewrite H1.
  cbn [shr_m loc_of_shr_record round_nearest_even].
  assert (Hs : shr_fexp prec emax (Zpos m') e' loc_Exact
               = ({| shr_m := Zpos m'; shr_r := false; shr_s := false |}, e')).
  { unfold shr_fexp. cbn [Zdigits2]. rewrite Hc, Z.sub_diag. reflexivity. }
  rewrite Hs. cbn [shr_m]. now replace (e' <=? emax - prec) with true by lia.
Qed.

(** Rounding [p * 2^k] at exponent [-k], for [p] of no more than 53 bits
    and [p * 2^k] of no less: nothing is lost. *)
Lemma binary_round_aux_shifted s p k :
  Zpos (digits2_pos p) <= 53 -> 53 <= Zpos (digits2_pos p) + Zpos k ->
  exists m e,
    binary_round_aux prec emax s (Zpos (Pos.iter xO p k)) (Zneg k) loc_Exact
    = S754_finite s m e /\ e <= 0 /\ Zpos m = Zpos p * 2 ^ (- e).
Proof.
  intros Hd Hk.
  remember (Z.to_nat (Zpos (digits2_pos p) + Zpos k - 53)) as j eqn:Ej.
  remember (Z.to_nat (53 - Zpos (digits2_pos p))) as i eqn:Ei.
  assert (Hji : Pos.to_nat k = (j + i)%nat) by lia.
  exists (Nat.iter i xO p), (Zpos (digits2_pos p) - 53).
  assert (Hdi : forall n, Zpos (digits2_pos (Nat.iter n xO p))
                          = Zpos (digits2_pos p) + Z.of_nat n).
  { induction n as [|n IH]; [cbn; lia|]. rewrite Nat.iter_succ. cbn [digits2_pos].
    rewrite Pos2Z.inj_succ, IH. lia. }
  assert (Hvi : forall n, Zpos (Nat.iter n xO p) = Zpos p * 2 ^ Z.of_nat n).
  { induction n as [|n IH]; [cbn; lia|]. rewrite Nat.iter_succ, Pos2Z.inj_xO, IH.
    rewrite Nat2Z.inj_succ, Z.pow_succ_r by lia. lia. }
  split; [|split; [lia|]].
  - apply binary_round_aux_exact.
    + unfold shr_fexp. cbn [Zdigits2 shr_record_of_loc].
      rewrite shift_nat_iter, Hji, Hdi.
      replace (fexp prec emax (Zpos (digits2_pos p) + Z.of_nat (j + i) + Zneg k) - Zneg k)
        with (Z.of_nat j) by (unfold fexp, emin, prec, emax; lia).
      unfold shr. destruct (Z.of_nat j) as [|p0|p0] eqn:Ez; try lia.
      * assert (j = 0%nat) as E0 by lia. rewrite E0. cbn [Nat.add]. f_equal. lia.
      * assert (Pos.to_nat p0 = j) as Ep by lia.
        rewrite iter_pos_nat, Ep, shr_zero_bits.
        f_equal. unfold fexp, emin, prec, emax. lia.
    + rewrite Hdi. unfold fexp, emin, prec, emax. lia.
    + unfold prec, emax. lia.
  - rewrite Hvi. f_equal. f_equal. lia.
Qed.

(** The float of a decimal numeral of a whole number below 2^53 with
    [d] zeros after the point is that number. *)
Lemma float_of_decimal_zeros neg a d :
  0 < a < 2 ^ 53 -> 0 <= d ->
  exists m e,
    float_of_decimal neg (a * 10 ^ d) (- d) = S754_finite neg m e /\
    e <= 0 /\ Zpos m = a * 2 ^ (- e).
Proof.
  intros [Ha Hlt] Hd. destruct a as [|p|p]; try lia.
  destruct (Z.eq_dec d 0) as [->|Hd0].
  - unfold float_of_decimal. change (10 ^ 0) with 1. rewrite Z.mul_1_r.
    change (0 <=? - 0) with true. change (10 ^ (- 0)) with 1. rewrite Z.mul_1_r.
    pose proof (digits2_pos_small p Hlt) as Hdp.
    unfold binary_round.
    assert (Hf : fexp prec emax (Zpos (digits2_pos p) + 0) = Zpos (digits2_pos p) - 53).
    { unfold fexp, emin, prec, emax. lia. }
    rewrite Hf. unfold shl_align. rewrite Z.sub_0_r.
    destruct (Zpos (digits2_pos p) - 53) as [|q|q] eqn:Eq; try lia.
    + exists p, 0. split; [|split; [lia|cbn; lia]].
      apply binary_round_aux_canonical; [|unfold prec, emax; lia].
      unfold fexp, emin, prec, emax. lia.
    + exists (Pos.iter xO p q), (Zneg q). split; [|split; [lia|]].
      * apply binary_round_aux_canonical; [|unfold prec, emax; lia].
        rewrite digits2_pos_shift. unfold fexp, emin, prec, emax. lia.
      * rewrite shift_value. reflexivity.
  - assert (Hden : 0 < 10 ^ d) by (apply Z.pow_pos_nonneg; lia).
    destruct (10 ^ d) as [|pd|pd] eqn:Eden; try lia.
    unfold float_of_decimal. cbn [Z.mul].
    replace (0 <=? - d) with false by lia. rewrite Z.opp_involutive, Eden.
    set (s := Z.max 0 (Zdigits2 (Zpos pd) - Zdigits2 (Zpos (p * pd)) + 64)).
    pose proof (digits2_pos_small p Hlt) as Hdp.
    pose proof (digits2_pos_mul p pd) as Hmul.
    assert (Hs : 64 - Zpos (digits2_pos p) <= s) by (subst s; cbn [Zdigits2]; lia).
    destruct s as [|k|k] eqn:Es; try lia.
    assert (Hq : Z.div_eucl (Z.shiftl (Zpos (p * pd)) (Zpos k)) (Zpos pd)
                 = (Zpos (Pos.iter xO p k), 0)).
    { rewrite Z.shiftl_mul_pow2 by lia.
      assert (E : Zpos (p * pd) * 2 ^ Zpos k = Zpos (Pos.iter xO p k) * Zpos pd).
      { rewrite shift_value, Pos2Z.inj_mul. lia. }
      rewrite E.
      pose proof (Z.div_mul (Zpos (Pos.iter xO p k)) (Zpos pd) ltac:(lia)) as Hdiv.
      pose proof (Z.mod_mul (Zpos (Pos.iter xO p k)) (Zpos pd) ltac:(lia)) as Hmod.
      unfold Z.div, Z.modulo in Hdiv, Hmod.
      destruct (Z.div_eucl (Zpos (Pos.iter xO p k) * Zpos pd) (Zpos pd)) as [q r].
      now subst. }
    rewrite Hq. change (- Zpos k) with (Zneg k).
    replace (new_location (Zpos pd) 0) with loc_Exact
      by (unfold new_location, new_location_even, new_location_odd;
          destruct (Z.even (Zpos pd)); reflexivity).
    apply binary_round_aux_shifted; lia.
Qed.

(** *** A number in French notation, and the number read from it *)

Lemma take_sign_minus plus r : take_sign plus (45 :: r) = (true, r).
Proof. reflexivity. Qed.

(** An optional minus sign, digits, and then nothing or a dot and digits. *)
Lemma parse_float_ascii_signed (neg : bool) a b (point : bool) :
  all_digits a -> a <> [] -> all_digits b ->
  parse_float_ascii ((if neg then [45] else []) ++ a ++ (if point then 46 :: b else []))
  = Some (float_of_decimal neg (digits_value 0 (a ++ if point then b else []))
            (- Z.of_nat (List.length (if point then b else [])))).
Proof.
  intros Ha Hne Hb. unfold parse_float_ascii.
  destruct a as [|h t]; [now destruct Hne|].
  assert (Hh : is_ascii_digit h = true) by now inversion Ha.
  assert (Hsign : take_sign true ((if neg then [45] else []) ++ (h :: t)
                                    ++ (if point then 46 :: b else []))
                  = (neg, (h :: t) ++ (if point then 46 :: b else []))).
  { destruct neg; cbn [app]; [apply take_sign_minus|].
    apply take_sign_none; unfold is_ascii_digit in Hh; lia. }
  rewrite Hsign. cbn [app].
  destruct (plain_head_no_name h (t ++ if point then 46 :: b else []) (or_introl Hh))
    as [-> ->].
  change (h :: t ++ (if point then 46 :: b else []))
    with ((h :: t) ++ (if point then 46 :: b else [])).
  rewrite (span_digits_local (h :: t) _ Ha) by now destruct point.
  destruct point.
  - replace (46 =? 46) with true by reflexivity.
    pose proof (span_digits_local b [] Hb eq_refl) as Hs. rewrite app_nil_r in Hs.
    rewrite Hs. reflexivity.
  - cbn [app]. rewrite !app_nil_r. reflexivity.
Qed.

Lemma digits_value_zeros k : forall acc,
  digits_value acc (repeat 48 k) = acc * 10 ^ Z.of_nat k.
Proof.
  induction k as [|k IH]; intros acc; [cbn; lia|].
  cbn [repeat digits_value]. rewrite IH, Nat2Z.inj_succ, Z.pow_succ_r by lia. lia.
Qed.

Lemma split_on_absent c s : contains c s = false -> split_on c s = [s].
Proof.
  unfold contains. induction s as [|x s IH]; [reflexivity|]. cbn [existsb split_on].
  intros H. apply orb_false_iff in H as [H1 H2]. rewrite Z.eqb_sym, H1.
  now rewrite (IH H2).
Qed.

Lemma format_fr_pdf_int host n d :
  0 <= d <= 2147483647 ->
  format_fr_pdf host (PInt n) d = Ok (spaced n ++ zero_decimals d).
Proof.
  intros Hd. unfold format_fr_pdf, zero_decimals.
  destruct (d =? 0) eqn:E0; cbn [py_int bind]; [now rewrite app_nil_r|].
  cbn [py_divmod_1 bind py_int]. unfold py_format_fixed.
  replace (d <? 0) with false by lia.
  replace (9223372036854775807 <? d) with false by lia.
  replace (2147483647 <? d) with false by lia.
  change (float_of_int 0) with (@Ok pyfloat (S754_zero false)). cbn [bind].
  unfold format_fixed. rewrite E0, fixed_digits_zero. cbn [app split_on].
  replace (48 =? 46) with false by reflexivity. rewrite Z.eqb_refl.
  rewrite split_on_absent.
  - reflexivity.
  - apply contains_digits; [reflexivity|]. unfold all_digits.
    apply Forall_forall. intros x Hx. apply repeat_spec in Hx. now subst.
Qed.

Lemma group3_rev_last ds :
  all_digits ds -> ds <> [] ->
  exists p y, group3_rev ds = p ++ [y] /\ is_ascii_digit y = true.
Proof.
  assert (H : forall n ds, (List.length ds <= n)%nat -> all_digits ds -> ds <> [] ->
                exists p y, group3_rev ds = p ++ [y] /\ is_ascii_digit y = true).
  { induction n as [|n IH]; intros l Hl Ha Hne.
    - destruct l; [now destruct Hne|cbn in Hl; lia].
    - destruct l as [|a [|b [|c r]]]; [now destruct Hne| | |].
      + exists [], a. split; [reflexivity|now inversion Ha].
      + exists [a], b. split; [reflexivity|]. inversion Ha as [|? ? _ Ha2]; subst.
        now inversion Ha2.
      + inversion Ha as [|? ? Ha1 Ha2]; subst. inversion Ha2 as [|? ? Hb1 Hb2]; subst.
        inversion Hb2 as [|? ? Hc1 Hc2]; subst. cbn [group3_rev].
        destruct r as [|x r].
        * now exists [a; b], c.
        * destruct (IH (x :: r)) as (p & y & E & Hy);
            [cbn [List.length] in *; lia|assumption|discriminate|].
          rewrite E. now exists (a :: b :: c :: 44 :: p), y. }
  intros Ha Hne. now apply (H (List.length ds)).
Qed.

Lemma group3_rev_head a r : exists t, group3_rev (a :: r) = a :: t.
Proof. destruct r as [|b [|c r]]; cbn [group3_rev]; eauto. Qed.

Lemma group3_rev_french ds :
  all_digits ds -> Forall (fun c => is_french c = true) (group3_rev ds).
Proof.
  assert (Hdig : forall x, is_ascii_digit x = true -> is_french x = true).
  { intros x Hx. unfold is_french. now rewrite Hx. }
  assert (H : forall n ds, (List.length ds <= n)%nat -> all_digits ds ->
                Forall (fun c => is_french c = true) (group3_rev ds)).
  { induction n as [|n IH]; intros l Hl Ha.
    - destruct l; [constructor|cbn in Hl; lia].
    - destruct l as [|a [|b [|c r]]]; [constructor| | |].
      + inversion Ha; subst. repeat constructor. auto.
      + inversion Ha as [|? ? Ha1 Ha2]; subst. inversion Ha2; subst.
        repeat constructor; auto.
      + inversion Ha as [|? ? Ha1 Ha2]; subst. inversion Ha2 as [|? ? Hb1 Hb2]; subst.
        inversion Hb2 as [|? ? Hc1 Hc2]; subst. cbn [group3_rev].
        repeat (constructor; auto). destruct r as [|x r]; [constructor|].
        constructor; [reflexivity|]. apply IH; [cbn [List.length] in *; lia|assumption]. }
  intros Ha. now apply (H (List.length ds)).
Qed.

Lemma french_absent c s :
  is_french c = false -> Forall (fun x => is_french x = true) s -> contains c s = false.
Proof.
  intros Hc Hs. unfold contains. induction Hs as [|x s Hx _ IH]; [reflexivity|].
  cbn [existsb]. rewrite IH, orb_false_r. apply Z.eqb_neq. intros <-. congruence.
Qed.

Lemma replace_char_french s :
  Forall (fun x => is_french x = true) s ->
  Forall (fun x => is_french x = true) (replace_char 44 [32] s).
Proof.
  induction 1 as [|x s Hx _ IH]; [constructor|]. unfold replace_char in *.
  cbn [flat_map]. apply Forall_app. split; [|exact IH].
  destruct (x =? 44); repeat constructor. exact Hx.
Qed.

Section ReadBack.

Variables (host : PyHost) (n d : Z).

Lemma spaced_parts : spaced n = (sign_text n) ++ rev (grouped_rev n).
Proof.
  unfold spaced, format_int_grouped, sign_text, grouped_rev.
  rewrite replace_char_app, replace_char_rev_one. f_equal. now destruct (n <? 0).
Qed.

Lemma decimal_rev_not_nil a : decimal_rev a <> [].
Proof. unfold decimal_rev. cbn [digits_rev]. discriminate. Qed.

Lemma grouped_ends :
  (exists x t, (grouped_rev n) = x :: t /\ is_ascii_digit x = true) /\
  (exists p y, (grouped_rev n) = p ++ [y] /\ is_ascii_digit y = true).
Proof.
  unfold grouped_rev.
  pose proof (digits_rev_digits (S (Z.to_nat (Z.log2 (Z.abs n)))) (Z.abs n)) as Hd.
  fold (decimal_rev (Z.abs n)) in Hd.
  pose proof (decimal_rev_not_nil (Z.abs n)) as Hne. split.
  - destruct (decimal_rev (Z.abs n)) as [|a r]; [now destruct Hne|].
    destruct (group3_rev_head a r) as (t & ->).
    assert (Ha : is_ascii_digit a = true) by now inversion Hd.
    exists a, (replace_char 44 [32] t). split; [|assumption].
    unfold replace_char. cbn [flat_map].
    replace (a =? 44) with false by (unfold is_ascii_digit in Ha; lia). reflexivity.
  - destruct (group3_rev_last _ Hd Hne) as (p & y & -> & Hy).
    exists (replace_char 44 [32] p), y. split; [|assumption].
    rewrite replace_char_app. f_equal. unfold replace_char. cbn [flat_map].
    replace (y =? 44) with false by (unfold is_ascii_digit in Hy; lia). reflexivity.
Qed.

Lemma grouped_french : Forall (fun x => is_french x = true) (grouped_rev n).
Proof.
  unfold grouped_rev. apply replace_char_french, group3_rev_french.
  unfold decimal_rev. apply digits_rev_digits.
Qed.

Lemma zero_decimals_french : Forall (fun x => is_french x = true) (zero_decimals d).
Proof.
  unfold zero_decimals. destruct (d =? 0); constructor; [reflexivity|].
  apply Forall_forall. intros x Hx. apply repeat_spec in Hx. now subst.
Qed.

Lemma formatted_french : Forall (fun x => is_french x = true) (spaced n ++ zero_decimals d).
Proof.
  rewrite spaced_parts. rewrite <- app_assoc.
  apply Forall_app. split; [|apply Forall_app; split].
  - unfold sign_text. destruct (n <? 0); repeat constructor.
  - apply Forall_rev, grouped_french.
  - apply zero_decimals_french.
Qed.

Lemma formatted_tight : 0 <= d -> tight (spaced n ++ zero_decimals d).
Proof.
  intros Hd. rewrite spaced_parts.
  destruct grouped_ends as [(x & t & Eh & Hx) (p & y & El & Hy)].
  assert (Hds : forall c, is_ascii_digit c = true -> is_space c = false)
    by (intros c; unfold is_ascii_digit, is_space; lia).
  split.
  - unfold sign_text. destruct (n <? 0).
    + now exists 45, (rev (grouped_rev n) ++ zero_decimals d).
    + rewrite El, rev_app_distr. cbn [rev app].
      exists y, (rev p ++ zero_decimals d). split; [reflexivity|auto].
  - unfold zero_decimals. destruct (d =? 0) eqn:E0.
    + rewrite Eh. cbn [rev]. exists ((sign_text n) ++ rev t), x. split; [|auto].
      now rewrite app_nil_r, app_assoc.
    + destruct (Z.to_nat d) as [|k] eqn:Ek; [lia|].
      exists ((sign_text n) ++ rev (grouped_rev n) ++ 44 :: repeat 48 k), 48. split; [|reflexivity].
      rewrite <- !app_assoc. cbn [app]. do 3 f_equal. apply repeat_cons.
Qed.

Lemma formatted_despaced :
  0 <= d ->
  despaced (spaced n ++ zero_decimals d)
  = (sign_text n) ++ int_digits (Z.abs n) ++ zero_decimals d.
Proof.
  intros Hd. unfold despaced. rewrite strip_tight by now apply formatted_tight.
  rewrite (replace_char_absent 160)
    by (apply french_absent; [reflexivity|apply formatted_french]).
  rewrite replace_char_app, format_int_grouped_ungroup. fold (sign_text n).
  rewrite <- app_assoc. do 2 f_equal.
  apply replace_char_absent. unfold zero_decimals. destruct (d =? 0); [reflexivity|].
  cbn [contains existsb]. replace (32 =? 44) with false by reflexivity. cbn [orb].
  apply contains_digits; [reflexivity|].
  apply Forall_forall. intros x Hx. apply repeat_spec in Hx. now subst.
Qed.

(** What [normalize_number] reads from a whole number in French
    notation. *)
Lemma normalize_number_formatted :
  0 <= d ->
  normalize_number host (PStr (spaced n ++ zero_decimals d))
  = Ok (Some (float_of_decimal (n <? 0) (Z.abs n * 10 ^ d) (- d))).
Proof.
  intros Hd. rewrite normalize_number_despaced, formatted_despaced by assumption.
  replace (contains 46 (spaced n ++ zero_decimals d)) with false
    by (symmetry; apply french_absent; [reflexivity|apply formatted_french]).
  rewrite andb_false_r.
  pose proof (int_digits_digits (Z.abs n)) as Hds.
  pose proof (int_digits_not_nil (Z.abs n)) as Hne.
  assert (Hz : all_digits (repeat 48 (Z.to_nat d))).
  { apply Forall_forall. intros x Hx. apply repeat_spec in Hx. now subst. }
  assert (Htext : flat_map (number_char_text host false)
                    ((sign_text n) ++ int_digits (Z.abs n) ++ zero_decimals d)
                  = (if n <? 0 then [45] else []) ++ int_digits (Z.abs n)
                      ++ (if negb (d =? 0) then 46 :: repeat 48 (Z.to_nat d) else [])).
  { rewrite !flat_map_app, (flat_map_digits host false _ Hds). f_equal; [|f_equal].
    - unfold sign_text. destruct (n <? 0); [|reflexivity].
      cbn [flat_map]. unfold number_char_text.
      replace (is_decimal host 45 || (45 =? 45)) with true by lia. reflexivity.
    - unfold zero_decimals. destruct (d =? 0); [reflexivity|]. cbn [flat_map negb].
      now rewrite number_char_text_comma, (flat_map_digits host false _ Hz). }
  rewrite Htext.
  assert (Hplain : all_plain ((if n <? 0 then [45] else []) ++ int_digits (Z.abs n)
                      ++ (if negb (d =? 0) then 46 :: repeat 48 (Z.to_nat d) else []))).
  { unfold all_plain. apply Forall_app. split; [|apply Forall_app; split].
    - destruct (n <? 0); repeat constructor.
    - now apply digits_plain.
    - destruct (negb (d =? 0)); constructor; [reflexivity|now apply digits_plain]. }
  assert (Hnn : (if n <? 0 then [45] else []) ++ int_digits (Z.abs n)
                  ++ (if negb (d =? 0) then 46 :: repeat 48 (Z.to_nat d) else []) <> []).
  { destruct (n <? 0); [discriminate|]. cbn [app].
    destruct (int_digits (Z.abs n)); [now destruct Hne|discriminate]. }
  pose proof (float_of_str_plain host _ Hplain Hnn) as Hf.
  rewrite (parse_float_ascii_signed (n <? 0) _ (repeat 48 (Z.to_nat d)) (negb (d =? 0))
             Hds Hne Hz) in Hf.
  match goal with |- match ?t with _ => _ end = _ => destruct t eqn:Et end;
    [now destruct Hnn|].
  rewrite Hf. do 3 f_equal.
  - destruct (d =? 0) eqn:E0; cbn [negb].
    + assert (d = 0) as -> by lia. rewrite app_nil_r, int_digits_value by lia.
      change (10 ^ 0) with 1. lia.
    + rewrite digits_value_app, int_digits_value, digits_value_zeros by lia.
      now rewrite Z2Nat.id.
  - destruct (d =? 0) eqn:E0; cbn [negb].
    + cbn [List.length Z.of_nat]. lia.
    + rewrite repeat_length, Z2Nat.id; lia.
Qed.

End ReadBack.

(** X23.  A whole number below 2^53 printed in French notation, with any
    number of decimals, is read back by [normalize_number] as that
    number. *)
Theorem french_notation_is_read_back host n d :
  - 2 ^ 53 < n < 2 ^ 53 -> 0 <= d <= 2147483647 ->
  exists s f,
    format_fr_pdf host (PInt n) d = Ok s /\
    normalize_number host (PStr s) = Ok (Some f) /\
    float_exactly f n 1 = true.
Proof.
  intros Hn Hd.
  exists (spaced n ++ zero_decimals d),
         (float_of_decimal (n <? 0) (Z.abs n * 10 ^ d) (- d)).
  split; [now apply format_fr_pdf_int|].
  split; [apply normalize_number_formatted; lia|].
  destruct (Z.eq_dec n 0) as [->|Hz]; [reflexivity|].
  destruct (float_of_decimal_zeros (n <? 0) (Z.abs n) d ltac:(lia) ltac:(lia))
    as (m & e & -> & He & Hm).
  unfold float_exactly. destruct (n <? 0) eqn:Es.
  - destruct (0 <=? e) eqn:E0.
    + assert (e = 0) as -> by lia. change (2 ^ (- 0)) with 1 in Hm. lia.
    + lia.
  - destruct (0 <=? e) eqn:E0.
    + assert (e = 0) as -> by lia. change (2 ^ (- 0)) with 1 in Hm. lia.
    + lia.
Qed.

Lemma french_notation_is_read_back_witness :
  (- 2 ^ 53 < -1234567 < 2 ^ 53) /\ (0 <= 1 <= 2147483647) /\
  exists s f,
    format_fr_pdf ascii_host (PInt (-1234567)) 1 = Ok s /\
    normalize_number ascii_host (PStr s) = Ok (Some f) /\
    float_exactly f (-1234567) 1 = true.
Proof.
  split; [lia|]. split; [lia|].
  apply (french_notation_is_read_back ascii_host (-1234567) 1); lia.
Defined.

(** *** The whole part and the decimals of a float *)

(** [p * 2^e] with [p] of no more than 53 bits and [e] from the least
    exponent to 0 is a binary64 value. *)
Lemma binary_round_fits s p e :
  Zpos p < 2 ^ 53 -> -1074 <= e <= 0 ->
  exists m' e',
    binary_round prec emax s p e = S754_finite s m' e' /\
    e' <= e /\ Zpos m' = Zpos p * 2 ^ (e - e').
Proof.
  intros Hp He. pose proof (digits2_pos_small p Hp) as Hd.
  unfold binary_round.
  set (t := fexp prec emax (Zpos (digits2_pos p) + e)).
  assert (Ht : t <= e /\ t = Z.max (Zpos (digits2_pos p) + e - 53) (-1074)).
  { subst t. unfold fexp, emin, prec, emax. lia. }
  destruct Ht as [Hte Ht]. unfold shl_align.
  destruct (t - e) as [|q|q] eqn:Eq; try lia.
  - exists p, e. split; [|split; [lia|rewrite Z.sub_diag; cbn; lia]].
    apply binary_round_aux_canonical; [|unfold prec, emax; lia].
    assert (t = e) by lia. subst t. congruence.
  - exists (Pos.iter xO p q), t. split; [|split; [lia|]].
    + apply binary_round_aux_canonical; [|unfold prec, emax; lia].
      rewrite digits2_pos_shift. unfold fexp, emin, prec, emax. lia.
    + rewrite shift_value. f_equal. f_equal. lia.
Qed.

Lemma float_of_scaled_positive a e :
  0 < a < 2 ^ 53 -> -1074 <= e <= 0 ->
  exists m' e',
    float_of_scaled a e = S754_finite false m' e' /\
    e' <= e /\ Zpos m' = a * 2 ^ (e - e').
Proof.
  intros Ha He. destruct a as [|p|p]; try lia.
  unfold float_of_scaled, binary_normalize. apply binary_round_fits; lia.
Qed.

(** [int(float(n))] for a whole number of less than 2^53. *)
Lemma int_of_float_of_scaled z :
  - 2 ^ 53 < z < 2 ^ 53 -> int_of_float (float_of_scaled z 0) = Ok z.
Proof.
  intros Hz. unfold float_of_scaled, binary_normalize.
  destruct z as [|p|p]; [reflexivity| |].
  - destruct (binary_round_fits false p 0 ltac:(lia) ltac:(lia))
      as (m' & e' & -> & He & Hm).
    unfold int_of_float, float_trunc. f_equal.
    destruct (0 <=? e') eqn:E0.
    + assert (e' = 0) as -> by lia. rewrite Z.shiftl_0_r. cbn in Hm. lia.
    + rewrite Z.shiftr_div_pow2 by lia. rewrite Hm. replace (0 - e') with (- e') by lia.
      apply Z.div_mul. assert (0 < 2 ^ (- e')) by (apply Z.pow_pos_nonneg; lia). lia.
  - destruct (binary_round_fits true p 0 ltac:(lia) ltac:(lia))
      as (m' & e' & -> & He & Hm).
    unfold int_of_float, float_trunc. f_equal.
    destruct (0 <=? e') eqn:E0.
    + assert (e' = 0) as -> by lia. rewrite Z.shiftl_0_r. cbn in Hm. lia.
    + rewrite Z.shiftr_div_pow2 by lia. rewrite Hm. replace (0 - e') with (- e') by lia.
      rewrite Z.div_mul; [lia|].
      assert (0 < 2 ^ (- e')) by (apply Z.pow_pos_nonneg; lia). lia.
Qed.

Lemma split_decimals a b :
  all_digits a -> all_digits b ->
  nth_error (split_on 46 (a ++ 46 :: b)) 1 = Some b.
Proof.
  intros Ha Hb. induction Ha as [|x a Hx _ IH]; cbn [app split_on].
  - rewrite Z.eqb_refl. rewrite split_on_absent by now apply contains_digits.
    reflexivity.
  - replace (x =? 46) with false by (unfold is_ascii_digit in Hx; lia).
    destruct (split_on 46 (a ++ 46 :: b)) as [|h [|h' t]]; try discriminate IH.
    exact IH.
Qed.

(** The decimals printed for a float that is positive. *)
Lemma decimals_of_positive m e d :
  0 < d <= 2147483647 ->
  exists n,
    py_format_fixed (PFloat (S754_finite false m e)) d
    = Ok (int_digits (n / 10 ^ d) ++ 46 :: fixed_digits (Z.to_nat d) (n mod 10 ^ d)) /\
    n = (if 0 <=? e then Zpos m * 2 ^ e * 10 ^ d
         else round_half_even (Zpos m * 10 ^ d) (2 ^ (- e))).
Proof.
  intros Hd. eexists. split; [|reflexivity].
  unfold py_format_fixed. replace (d <? 0) with false by lia.
  replace (9223372036854775807 <? d) with false by lia.
  replace (2147483647 <? d) with false by lia.
  unfold format_fixed. replace (d =? 0) with false by lia. reflexivity.
Qed.

Lemma whole_part_small m k : Zpos m < 2 ^ 53 -> 0 < k -> 0 <= Zpos m / 2 ^ k < 2 ^ 52.
Proof.
  intros Hm Hk. assert (H2 : 2 <= 2 ^ k).
  { change 2 with (2 ^ 1) at 1. apply Z.pow_le_mono_r; lia. }
  split; [apply Z.div_pos; lia|].
  apply Z.div_lt_upper_bound; [lia|]. change (2 ^ 53) with (2 * 2 ^ 52) in Hm. nia.
Qed.

(** X24.  A negative float of magnitude 0.5 or more (its exponent is -53 at
    least) that is no whole number is printed with its whole part one
    lower when decimals are asked for: the whole part is the floor of the
    number then, and its truncation otherwise. *)
Theorem negative_fractions_are_floored host m e d :
  Zpos m < 2 ^ 53 -> -53 <= e < 0 -> Zpos m mod 2 ^ (- e) <> 0 ->
  0 < d <= 2147483647 ->
  format_fr_pdf host (PFloat (S754_finite true m e)) 0
  = Ok (spaced (- (Zpos m / 2 ^ (- e)))) /\
  exists decimals,
    format_fr_pdf host (PFloat (S754_finite true m e)) d
    = Ok (spaced (- (Zpos m / 2 ^ (- e)) - 1) ++ [44] ++ decimals) /\
    List.length decimals = Z.to_nat d /\ all_digits decimals.
Proof.
  intros Hm He Hpart Hd.
  pose proof (whole_part_small m (- e) Hm ltac:(lia)) as Hw.
  assert (Hpow : 0 < 2 ^ (- e)) by (apply Z.pow_pos_nonneg; lia).
  pose proof (Z.mod_pos_bound (Zpos m) (2 ^ (- e)) Hpow) as Hb.
  split.
  - unfold format_fr_pdf. replace (0 =? 0) with true by reflexivity.
    cbn [py_int int_of_float float_trunc]. replace (0 <=? e) with false by lia.
    cbn [bind]. now rewrite Z.shiftr_div_pow2 by lia.
  - unfold format_fr_pdf. replace (d =? 0) with false by lia.
    cbn [py_divmod_1 float_divmod_1]. replace (0 <=? e) with false by lia.
    replace (Zpos m mod 2 ^ (- e) =? 0) with false by lia. cbn [bind py_int].
    rewrite Z.shiftr_div_pow2 by lia.
    rewrite int_of_float_of_scaled by lia. cbn [bind].
    assert (H53 : 2 ^ (- e) <= 2 ^ 53) by (apply Z.pow_le_mono_r; lia).
    destruct (float_of_scaled_positive (2 ^ (- e) - Zpos m mod 2 ^ (- e)) e
                ltac:(lia) ltac:(lia)) as (m' & e' & -> & _ & _).
    destruct (decimals_of_positive m' e' d Hd) as (n & -> & _). cbn [bind].
    rewrite split_decimals by (apply int_digits_digits || apply fixed_digits_digits).
    eexists. split; [reflexivity|]. split;
      [apply fixed_digits_length|apply fixed_digits_digits].
Qed.

Lemma negative_fractions_are_floored_witness :
  Zpos 6755399441055744 < 2 ^ 53 /\ (-53 <= -52 < 0) /\
  Zpos 6755399441055744 mod 2 ^ (- -52) <> 0 /\ (0 < 1 <= 2147483647) /\
  format_fr_pdf ascii_host (PFloat (S754_finite true 6755399441055744 (-52))) 0
  = Ok (py "-1") /\
  format_fr_pdf ascii_host (PFloat (S754_finite true 6755399441055744 (-52))) 1
  = Ok (py "-2,5").
Proof.
  split; [reflexivity|]. split; [lia|]. split; [vm_compute; discriminate|].
  split; [lia|].
  destruct (negative_fractions_are_floored ascii_host 6755399441055744 (-52) 1)
    as [H0 (decimals & H1 & _)];
    [reflexivity | lia | vm_compute; discriminate | lia |].
  split; [exact H0|]. vm_compute. reflexivity.
Defined.

(** *** Decimals that round up *)

Lemma round_half_even_scale a b c :
  0 < b -> 0 < c -> round_half_even (a * c) (b * c) = round_half_even a b.
Proof.
  intros Hb Hc. unfold round_half_even.
  rewrite Z.div_mul_cancel_r by lia. rewrite Z.mul_mod_distr_r by lia.
  replace (b * c <? 2 * (a mod b * c)) with (b <? 2 * (a mod b)) by nia.
  replace (2 * (a mod b * c) =? b * c) with (2 * (a mod b) =? b) by nia.
  reflexivity.
Qed.

Lemma round_half_even_up part b t :
  0 <= part < b -> 0 < t -> Z.even t = true ->
  (2 * t - 1) * b <= 2 * part * t ->
  round_half_even (part * t) b = t.
Proof.
  intros Hp Ht Hev H. unfold round_half_even.
  assert (Hq : part * t / b = t - 1).
  { symmetry. apply (Z.div_unique_pos _ _ _ (part * t - b * (t - 1))); nia. }
  assert (Hr : (part * t) mod b = part * t - b * (t - 1)).
  { pose proof (Z.div_mod (part * t) b ltac:(lia)). rewrite Hq in *. lia. }
  rewrite Hq, Hr.
  assert (Hodd : Z.odd (t - 1) = true).
  { rewrite Z.odd_sub, <- Z.negb_even, Hev. reflexivity. }
  rewrite Hodd, andb_true_r.
  replace ((b <? 2 * (part * t - b * (t - 1))) || (2 * (part * t - b * (t - 1)) =? b))
    with true by nia.
  lia.
Qed.

Lemma int_digits_one : int_digits 1 = [49].
Proof. reflexivity. Qed.

(** X25.  Decimals that round up to the next whole number are printed as
    zeros, and the whole part stays as it was. *)
Theorem rounded_up_decimals_are_not_carried host m e d :
  Zpos m < 2 ^ 53 -> -1074 <= e < 0 -> 0 < d <= 2147483647 ->
  (2 * 10 ^ d - 1) * 2 ^ (- e) <= 2 * (Zpos m mod 2 ^ (- e)) * 10 ^ d ->
  format_fr_pdf host (PFloat (S754_finite false m e)) d
  = Ok (spaced (Zpos m / 2 ^ (- e)) ++ [44] ++ repeat 48 (Z.to_nat d)).
Proof.
  intros Hm He Hd Hup.
  pose proof (whole_part_small m (- e) Hm ltac:(lia)) as Hw.
  assert (Hpow : 0 < 2 ^ (- e)) by (apply Z.pow_pos_nonneg; lia).
  assert (Hten : 0 < 10 ^ d) by (apply Z.pow_pos_nonneg; lia).
  pose proof (Z.mod_pos_bound (Zpos m) (2 ^ (- e)) Hpow) as Hb.
  assert (Hpart : 0 < Zpos m mod 2 ^ (- e)) by nia.
  assert (Hlt : Zpos m mod 2 ^ (- e) < 2 ^ 53).
  { pose proof (Z.mod_le (Zpos m) (2 ^ (- e)) ltac:(lia) Hpow). lia. }
  unfold format_fr_pdf. replace (d =? 0) with false by lia.
  cbn [py_divmod_1 float_divmod_1]. replace (0 <=? e) with false by lia.
  replace (Zpos m mod 2 ^ (- e) =? 0) with false by lia. cbn [bind py_int].
  rewrite Z.shiftr_div_pow2 by lia.
  rewrite int_of_float_of_scaled by lia. cbn [bind].
  destruct (float_of_scaled_positive (Zpos m mod 2 ^ (- e)) e ltac:(lia) ltac:(lia))
    as (m' & e' & -> & He' & Hm').
  destruct (decimals_of_positive m' e' d Hd) as (n & -> & Hn). cbn [bind].
  rewrite split_decimals by (apply int_digits_digits || apply fixed_digits_digits).
  assert (En : n = 10 ^ d).
  { rewrite Hn. replace (0 <=? e') with false by lia. rewrite Hm'.
    assert (Hc : 0 < 2 ^ (e - e')) by (apply Z.pow_pos_nonneg; lia).
    replace (2 ^ (- e')) with (2 ^ (- e) * 2 ^ (e - e'))
      by (rewrite <- Z.pow_add_r by lia; f_equal; lia).
    replace (Zpos m mod 2 ^ (- e) * 2 ^ (e - e') * 10 ^ d)
      with (Zpos m mod 2 ^ (- e) * 10 ^ d * 2 ^ (e - e')) by lia.
    rewrite round_half_even_scale by lia.
    apply round_half_even_up; try lia.
    replace d with (Z.succ (d - 1)) by lia. rewrite Z.pow_succ_r by lia.
    rewrite Z.even_mul. reflexivity. }
  rewrite En, Z.mod_same, fixed_digits_zero by lia. reflexivity.
Qed.

Lemma rounded_up_decimals_are_not_carried_witness :
  Zpos 8646911284551352 < 2 ^ 53 /\ (-1074 <= -53 < 0) /\ (0 < 1 <= 2147483647) /\
  (2 * 10 ^ 1 - 1) * 2 ^ (- -53)
  <= 2 * (Zpos 8646911284551352 mod 2 ^ (- -53)) * 10 ^ 1 /\
  float_rounds (S754_finite false 8646911284551352 (-53)) 96 100 = true /\
  format_fr_pdf ascii_host (PFloat (S754_finite false 8646911284551352 (-53))) 1
  = Ok (py "0,0").
Proof.
  split; [reflexivity|]. split; [lia|]. split; [lia|].
  split; [vm_compute; discriminate|]. split; [vm_compute; reflexivity|].
  apply (rounded_up_decimals_are_not_carried ascii_host 8646911284551352 (-53) 1);
    [reflexivity | lia | lia | vm_compute; discriminate].
Defined.

(** *** Decimals that do not round up *)

Lemma fixed_digits_value d : forall n,
  0 <= n -> digits_value 0 (fixed_digits d n) = n mod 10 ^ Z.of_nat d.
Proof.
  induction d as [|d IH]; intros n Hn.
  - cbn [fixed_digits digits_value]. change (10 ^ Z.of_nat 0) with 1.
    now rewrite Z.mod_1_r.
  - cbn [fixed_digits]. rewrite digits_value_app, IH by (apply Z.div_pos; lia).
    cbn [digits_value]. rewrite Nat2Z.inj_succ, Z.pow_succ_r by lia.
    assert (Hp : 0 < 10 ^ Z.of_nat d) by (apply Z.pow_pos_nonneg; lia).
    rewrite Z.rem_mul_r by lia. lia.
Qed.

(** Rounding to nearest is off by half a unit at most. *)
Lemma round_half_even_near a b :
  0 < b -> 2 * Z.abs (round_half_even a b * b - a) <= b.
Proof.
  intros Hb. unfold round_half_even.
  pose proof (Z.div_mod a b ltac:(lia)) as Hd.
  pose proof (Z.mod_pos_bound a b Hb) as Hr.
  destruct ((b <? 2 * (a mod b)) || ((2 * (a mod b) =? b) && Z.odd (a / b))) eqn:E; nia.
Qed.

Lemma round_half_even_below part b t :
  0 <= part -> 0 < b -> 0 < t ->
  2 * part * t < (2 * t - 1) * b ->
  0 <= round_half_even (part * t) b < t.
Proof.
  intros Hp Hb Ht H. unfold round_half_even.
  pose proof (Z.div_mod (part * t) b ltac:(lia)) as Hd.
  pose proof (Z.mod_pos_bound (part * t) b Hb) as Hr.
  assert (Hq : 0 <= part * t / b) by (apply Z.div_pos; nia).
  destruct ((b <? 2 * ((part * t) mod b))
            || ((2 * ((part * t) mod b) =? b) && Z.odd (part * t / b))) eqn:E; nia.
Qed.

(** X26.  The decimals of a positive float.  Unless its fraction rounds up
    to one at the number of decimals asked for, the float is printed as
    its whole part in groups of three, a comma, and as many digits as
    asked for: those of the integer nearest to the fraction times the
    power of ten, the even one of two. *)
Theorem positive_decimals_are_rounded_to_nearest host m e d :
  Zpos m < 2 ^ 53 -> -1074 <= e < 0 -> 0 < d <= 2147483647 ->
  2 * (Zpos m mod 2 ^ (- e)) * 10 ^ d < (2 * 10 ^ d - 1) * 2 ^ (- e) ->
  exists decimals,
    format_fr_pdf host (PFloat (S754_finite false m e)) d
    = Ok (spaced (Zpos m / 2 ^ (- e)) ++ [44] ++ decimals) /\
    List.length decimals = Z.to_nat d /\ all_digits decimals /\
    digits_value 0 decimals = round_half_even (Zpos m mod 2 ^ (- e) * 10 ^ d) (2 ^ (- e)) /\
    2 * Z.abs (digits_value 0 decimals * 2 ^ (- e) - Zpos m mod 2 ^ (- e) * 10 ^ d)
    <= 2 ^ (- e).
Proof.
  intros Hm He Hd Hlow.
  pose proof (whole_part_small m (- e) Hm ltac:(lia)) as Hw.
  assert (Hpow : 0 < 2 ^ (- e)) by (apply Z.pow_pos_nonneg; lia).
  assert (Hten : 0 < 10 ^ d) by (apply Z.pow_pos_nonneg; lia).
  pose proof (Z.mod_pos_bound (Zpos m) (2 ^ (- e)) Hpow) as Hb.
  assert (Hlt : Zpos m mod 2 ^ (- e) < 2 ^ 53).
  { pose proof (Z.mod_le (Zpos m) (2 ^ (- e)) ltac:(lia) Hpow). lia. }
  set (part := Zpos m mod 2 ^ (- e)) in *.
  set (n := round_half_even (part * 10 ^ d) (2 ^ (- e))).
  assert (Hn : 0 <= n < 10 ^ d) by (apply round_half_even_below; lia).
  exists (fixed_digits (Z.to_nat d) n).
  assert (Hval : digits_value 0 (fixed_digits (Z.to_nat d) n) = n).
  { rewrite fixed_digits_value, Z2Nat.id by lia. apply Z.mod_small. lia. }
  split; [|split; [apply fixed_digits_length|split; [apply fixed_digits_digits|]]].
  - unfold format_fr_pdf. replace (d =? 0) with false by lia.
    cbn [py_divmod_1 float_divmod_1]. replace (0 <=? e) with false by lia.
    fold part. destruct (part =? 0) eqn:E0.
    + (* a whole number *)
      assert (part = 0) as Ep by lia.
      cbn [bind py_int int_of_float float_trunc]. replace (0 <=? e) with false by lia.
      rewrite Z.shiftr_div_pow2 by lia. cbn [bind].
      unfold py_format_fixed. replace (d <? 0) with false by lia.
      replace (9223372036854775807 <? d) with false by lia.
      replace (2147483647 <? d) with false by lia.
      unfold format_fixed. replace (d =? 0) with false by lia. cbn [bind app].
      change (48 :: 46 :: ?t) with ([48] ++ 46 :: t).
      rewrite (split_decimals [48]) by (repeat constructor || apply fixed_digits_digits).
      replace n with 0; [reflexivity|].
      subst n. rewrite Ep. unfold round_half_even.
      rewrite Z.mul_0_l, Zdiv_0_l, Zmod_0_l.
      destruct ((2 ^ (- e) <? 2 * 0) || ((2 * 0 =? 2 ^ (- e)) && Z.odd 0)) eqn:E; lia.
    + cbn [bind py_int]. rewrite Z.shiftr_div_pow2 by lia.
      rewrite int_of_float_of_scaled by lia. cbn [bind].
      destruct (float_of_scaled_positive part e ltac:(lia) ltac:(lia))
        as (m' & e' & -> & He' & Hm').
      destruct (decimals_of_positive m' e' d Hd) as (n' & -> & Hn'). cbn [bind].
      rewrite split_decimals by (apply int_digits_digits || apply fixed_digits_digits).
      assert (En : n' = n).
      { rewrite Hn'. replace (0 <=? e') with false by lia. rewrite Hm'.
        assert (Hc : 0 < 2 ^ (e - e')) by (apply Z.pow_pos_nonneg; lia).
        replace (2 ^ (- e')) with (2 ^ (- e) * 2 ^ (e - e'))
          by (rewrite <- Z.pow_add_r by lia; f_equal; lia).
        replace (part * 2 ^ (e - e') * 10 ^ d) with (part * 10 ^ d * 2 ^ (e - e')) by lia.
        now rewrite round_half_even_scale by lia. }
      rewrite En, Z.mod_small by lia. reflexivity.
  - rewrite Hval. split; [reflexivity|]. apply round_half_even_near. lia.
Qed.

Lemma positive_decimals_are_rounded_to_nearest_witness :
  Zpos 5530631448643502 < 2 ^ 53 /\ (-1074 <= -42 < 0) /\ (0 < 2 <= 2147483647) /\
  2 * (Zpos 5530631448643502 mod 2 ^ (- -42)) * 10 ^ 2 < (2 * 10 ^ 2 - 1) * 2 ^ (- -42) /\
  float_rounds (S754_finite false 5530631448643502 (-42)) 125752 100 = true /\
  exists decimals,
    format_fr_pdf ascii_host (PFloat (S754_finite false 5530631448643502 (-42))) 2
    = Ok (py "1 257," ++ decimals) /\
    List.length decimals = 2%nat /\ all_digits decimals /\
    digits_value 0 decimals = 52.
Proof.
  split; [reflexivity|]. split; [lia|]. split; [lia|].
  split; [vm_compute; reflexivity|]. split; [vm_compute; reflexivity|].
  destruct (positive_decimals_are_rounded_to_nearest ascii_host 5530631448643502 (-42) 2)
    as (decimals & E & Hl & Hd & Hv & _);
    [reflexivity | lia | lia | vm_compute; reflexivity |].
  exists decimals. split; [exact E|]. split; [exact Hl|]. split; [exact Hd|].
  rewrite Hv. vm_compute. reflexivity.
Defined.

(** ** Data URLs *)

(** *** Base64 *)

Lemma byte_value_range b : 0 <= byte_value b < 256.
Proof.
  unfold byte_value. pose proof (Byte.to_N_bounded b). lia.
Qed.

Lemma byte_of_value_of b : byte_of_value (byte_value b) = b.
Proof.
  unfold byte_of_value, byte_value. rewrite N2Z.id. now rewrite Byte.of_to_N.
Qed.

Lemma b64_index_char i : 0 <= i < 64 -> b64_index (b64_char i) = i.
Proof.
  intros H. unfold b64_char.
  destruct (i <? 26) eqn:E1; [|destruct (i <? 52) eqn:E2;
    [|destruct (i <? 62) eqn:E3; [|destruct (i =? 62) eqn:E4]]];
    unfold b64_index; by_cases.
Qed.

Lemma b64_char_no_pad i : 0 <= i < 64 -> (b64_char i =? 61) = false.
Proof. intros H. unfold b64_char. by_cases. Qed.

Lemma b64_char_is_b64 i : 0 <= i < 64 -> is_b64 (b64_char i) = true.
Proof.
  intros H. unfold b64_char.
  destruct (i <? 26) eqn:E1; [|destruct (i <? 52) eqn:E2;
    [|destruct (i <? 62) eqn:E3; [|destruct (i =? 62) eqn:E4]]];
    unfold is_b64; lia.
Qed.

Lemma b64decode_encode b : b64decode (b64encode b) = b.
Proof.
  assert (H : forall n b, (List.length b <= n)%nat -> b64decode (b64encode b) = b).
  { induction n as [|n IH]; intros l Hl.
    - destruct l; [reflexivity|cbn in Hl; lia].
    - destruct l as [|x [|y [|z r]]]; [reflexivity| | |].
      + pose proof (byte_value_range x) as Hx.
        cbn [b64encode b64decode]. replace (61 =? 61) with true by reflexivity.
        rewrite !b64_index_char by sextets.
        replace (byte_value x / 4 * 4 + byte_value x mod 4 * 16 / 16)
          with (byte_value x) by sextets.
        now rewrite byte_of_value_of.
      + pose proof (byte_value_range x) as Hx. pose proof (byte_value_range y) as Hy.
        cbn [b64encode b64decode]. replace (61 =? 61) with true by reflexivity.
        rewrite b64_char_no_pad by sextets.
        rewrite !b64_index_char by sextets.
        replace (byte_value x / 4 * 4 + (byte_value x mod 4 * 16 + byte_value y / 16) / 16)
          with (byte_value x) by sextets.
        replace ((byte_value x mod 4 * 16 + byte_value y / 16) mod 16 * 16
                 + byte_value y mod 16 * 4 / 4)
          with (byte_value y) by sextets.
        now rewrite !byte_of_value_of.
      + pose proof (byte_value_range x) as Hx. pose proof (byte_value_range y) as Hy.
        pose proof (byte_value_range z) as Hz.
        cbn [b64encode b64decode].
        rewrite !b64_char_no_pad by sextets.
        rewrite !b64_index_char by sextets.
        replace (byte_value x / 4 * 4 + (byte_value x mod 4 * 16 + byte_value y / 16) / 16)
          with (byte_value x) by sextets.
        replace ((byte_value x mod 4 * 16 + byte_value y / 16) mod 16 * 16
                 + (byte_value y mod 16 * 4 + byte_value z / 64) / 4)
          with (byte_value y) by sextets.
        replace ((byte_value y mod 16 * 4 + byte_value z / 64) mod 4 * 64
                 + byte_value z mod 64)
          with (byte_value z) by sextets.
        rewrite !byte_of_value_of. do 3 f_equal. apply IH. cbn [List.length] in Hl. lia. }
  now apply (H (List.length b)).
Qed.

Lemma b64encode_inj b1 b2 : b64encode b1 = b64encode b2 -> b1 = b2.
Proof.
  intros H. rewrite <- (b64decode_encode b1), <- (b64decode_encode b2). now rewrite H.
Qed.

Lemma b64encode_shape b :
  Z.of_nat (List.length (b64encode b)) = 4 * ((Z.of_nat (List.length b) + 2) / 3) /\
  Forall (fun c => is_b64 c = true) (b64encode b).
Proof.
  assert (H : forall n b, (List.length b <= n)%nat ->
                Z.of_nat (List.length (b64encode b))
                = 4 * ((Z.of_nat (List.length b) + 2) / 3) /\
                Forall (fun c => is_b64 c = true) (b64encode b)).
  { induction n as [|n IH]; intros l Hl.
    - destruct l; [split; [reflexivity|constructor]|cbn in Hl; lia].
    - destruct l as [|x [|y [|z r]]]; [split; [reflexivity|constructor]| | |].
      + pose proof (byte_value_range x) as Hx. cbn [b64encode]. split; [reflexivity|].
        repeat constructor; apply b64_char_is_b64; sextets.
      + pose proof (byte_value_range x) as Hx. pose proof (byte_value_range y) as Hy.
        cbn [b64encode]. split; [reflexivity|].
        repeat constructor; apply b64_char_is_b64; sextets.
      + pose proof (byte_value_range x) as Hx. pose proof (byte_value_range y) as Hy.
        pose proof (byte_value_range z) as Hz.
        destruct (IH r) as [Hlen Hall]; [cbn [List.length] in Hl; lia|].
        cbn [b64encode List.length]. split.
        * rewrite !Nat2Z.inj_succ, Hlen. Z.div_mod_to_equations. lia.
        * repeat (constructor; [apply b64_char_is_b64; sextets|]). exact Hall. }
  now apply (H (List.length b)).
Qed.

(** *** The MIME type *)

Lemma mime_of_values unicode_lower file_path :
  In (mime_of unicode_lower file_path) mime_values.
Proof.
  unfold mime_of, mime_types. generalize (str_lower unicode_lower (path_suffix file_path)).
  intros k. cbn [lookup].
  repeat match goal with
         | |- context [if str_eqb ?a k then _ else _] => destruct (str_eqb a k)
         end; vm_compute; tauto.
Qed.

(** X27.  The data URL of a file has the standard form: one of five MIME
    types, and the base64 text of the bytes, four characters for every
    three bytes or fewer. *)
Theorem data_url_has_the_standard_form unicode_lower fs file_path url :
  encode_file_to_dataurl unicode_lower fs file_path = inl url ->
  exists mime b payload,
    fs file_path = Regular b /\
    url = py "data:" ++ mime ++ py ";base64," ++ payload /\
    In mime mime_values /\
    Z.of_nat (List.length payload) = 4 * ((Z.of_nat (List.length b) + 2) / 3) /\
    Forall (fun c => is_b64 c = true) payload.
Proof.
  unfold encode_file_to_dataurl. destruct (fs file_path) as [|b|]; try discriminate.
  intros H. injection H as <-.
  exists (mime_of unicode_lower file_path), b, (b64encode b).
  split; [reflexivity|]. split; [reflexivity|]. split; [apply mime_of_values|].
  apply b64encode_shape.
Qed.

Lemma data_url_has_the_standard_form_witness :
  encode_file_to_dataurl (fun s => s)
    (fun _ => Regular [Byte.x25; Byte.x50; Byte.x44; Byte.x46]) (py "uploads/bon.PDF")
  = inl (py "data:application/pdf;base64,JVBERg==") /\
  exists mime b payload,
    (fun _ : pystr => Regular [Byte.x25; Byte.x50; Byte.x44; Byte.x46]) (py "uploads/bon.PDF")
    = Regular b /\
    py "data:application/pdf;base64,JVBERg==" = py "data:" ++ mime ++ py ";base64," ++ payload /\
    In mime mime_values /\
    Z.of_nat (List.length payload) = 4 * ((Z.of_nat (List.length b) + 2) / 3) /\
    Forall (fun c => is_b64 c = true) payload.
Proof.
  split; [vm_compute; reflexivity|].
  apply (data_url_has_the_standard_form (fun s => s)
           (fun _ => Regular [Byte.x25; Byte.x50; Byte.x44; Byte.x46])
           (py "uploads/bon.PDF")).
  vm_compute. reflexivity.
Defined.

Lemma mime_prefix_free m1 m2 (r1 r2 : pystr) :
  In m1 mime_values -> In m2 mime_values ->
  m1 ++ py ";base64," ++ r1 = m2 ++ py ";base64," ++ r2 -> m1 = m2 /\ r1 = r2.
Proof.
  unfold mime_values. cbn [In]. intros H1 H2.
  change (py ";base64,") with [59; 98; 97; 115; 101; 54; 52; 44].
  destruct H1 as [<-|[<-|[<-|[<-|[<-|[]]]]]];
    destruct H2 as [<-|[<-|[<-|[<-|[<-|[]]]]]];
    vm_compute py; cbn [app]; intros E;
    try discriminate E; (split; [reflexivity|]); now injection E.
Qed.

(** X28.  The data URL determines the bytes of the file and its MIME type. *)
Theorem data_url_determines_the_file unicode_lower fs1 fs2 p1 p2 b1 b2 url :
  fs1 p1 = Regular b1 -> fs2 p2 = Regular b2 ->
  encode_file_to_dataurl unicode_lower fs1 p1 = inl url ->
  encode_file_to_dataurl unicode_lower fs2 p2 = inl url ->
  b1 = b2 /\ mime_of unicode_lower p1 = mime_of unicode_lower p2.
Proof.
  unfold encode_file_to_dataurl. intros -> -> H1 H2.
  assert (E : py "data:" ++ mime_of unicode_lower p1 ++ py ";base64," ++ b64encode b1
              = py "data:" ++ mime_of unicode_lower p2 ++ py ";base64," ++ b64encode b2)
    by congruence.
  apply app_inv_head in E.
  apply mime_prefix_free in E as [Hm Hb]; try apply mime_of_values.
  split; [|assumption]. now apply b64encode_inj.
Qed.

Lemma data_url_determines_the_file_witness :
  (fun _ : pystr => Regular [Byte.x25; Byte.x50]) (py "a.pdf") = Regular [Byte.x25; Byte.x50] /\
  (fun _ : pystr => Regular [Byte.x25; Byte.x50]) (py "b/c.PDF") = Regular [Byte.x25; Byte.x50] /\
  encode_file_to_dataurl (fun s => s) (fun _ => Regular [Byte.x25; Byte.x50]) (py "a.pdf")
  = inl (py "data:application/pdf;base64,JVA=") /\
  encode_file_to_dataurl (fun s => s) (fun _ => Regular [Byte.x25; Byte.x50]) (py "b/c.PDF")
  = inl (py "data:application/pdf;base64,JVA=") /\
  [Byte.x25; Byte.x50] = [Byte.x25; Byte.x50] /\
  mime_of (fun s => s) (py "a.pdf") = mime_of (fun s => s) (py "b/c.PDF").
Proof.
  split; [reflexivity|]. split; [reflexivity|].
  split; [vm_compute; reflexivity|]. split; [vm_compute; reflexivity|].
  apply (data_url_determines_the_file (fun s => s)
           (fun _ => Regular [Byte.x25; Byte.x50]) (fun _ => Regular [Byte.x25; Byte.x50])
           (py "a.pdf") (py "b/c.PDF") _ _ (py "data:application/pdf;base64,JVA="));
    try reflexivity; vm_compute; reflexivity.
Defined.

(** *** The MIME type of an allowed name *)

Lemma split_on_last c a b :
  contains c b = false -> split_on c (a ++ c :: b) = split_on c a ++ [b].
Proof.
  intros Hb. induction a as [|x a IH]; cbn [app split_on].
  - rewrite Z.eqb_refl. now rewrite split_on_absent.
  - destruct (x =? c); [now rewrite IH|]. rewrite IH.
    destruct (split_on c a) as [|h t] eqn:E; [|reflexivity].
    destruct a as [|y a']; [discriminate E|]. cbn [split_on] in E.
    destruct (y =? c); [discriminate E|]. now destruct (split_on c a').
Qed.

Lemma path_name_of_file dir name :
  contains 47 name = false -> name <> [] -> name <> [46] ->
  path_name (dir ++ [47] ++ name) = name.
Proof.
  intros Hs Hn Hd. unfold path_name, path_parts. cbn [app].
  rewrite split_on_last by assumption. rewrite filter_app. cbn [filter].
  assert (E1 : str_eqb name [] = false).
  { destruct (str_eqb name []) eqn:E; [|reflexivity]. apply str_eqb_eq in E. contradiction. }
  assert (E2 : str_eqb name [46] = false).
  { destruct (str_eqb name [46]) eqn:E; [|reflexivity]. apply str_eqb_eq in E.
    contradiction. }
  rewrite E1, E2. cbn [negb andb]. apply last_last.
Qed.

Lemma path_suffix_of_name stem ext :
  stem <> [] -> ext <> [] -> contains 46 ext = false ->
  contains 47 stem = false -> contains 47 ext = false ->
  forall dir, path_suffix (dir ++ [47] ++ stem ++ [46] ++ ext) = 46 :: ext.
Proof.
  intros Hs He Hd Hs1 Hs2 dir. unfold path_suffix.
  rewrite path_name_of_file.
  - cbn [app]. rewrite after_last_app by assumption.
    rewrite length_app. cbn [List.length].
    destruct stem; [now destruct Hs|]. destruct ext; [now destruct He|].
    cbn [List.length].
    match goal with |- (if ?c then _ else _) = _ => replace c with true by lia end.
    reflexivity.
  - rewrite !contains_app, Hs1, Hs2. reflexivity.
  - destruct stem; [now destruct Hs|discriminate].
  - destruct stem as [|x [|y stem]]; [now destruct Hs| |discriminate].
    destruct ext; [now destruct He|discriminate].
Qed.

(** X29.  A file whose name has a stem and one of the five allowed
    extensions, in any case, gets the MIME type of that extension. *)
Theorem allowed_names_get_their_mime_type unicode_lower fs dir stem ext b :
  In (List.map ascii_lower ext) ALLOWED_EXTENSIONS ->
  stem <> [] -> contains 47 stem = false ->
  fs (dir ++ [47] ++ stem ++ [46] ++ ext) = Regular b ->
  allowed_file unicode_lower (stem ++ [46] ++ ext) = true /\
  exists mime,
    In (46 :: List.map ascii_lower ext, mime) mime_types /\
    encode_file_to_dataurl unicode_lower fs (dir ++ [47] ++ stem ++ [46] ++ ext)
    = inl (py "data:" ++ mime ++ py ";base64," ++ b64encode b).
Proof.
  intros Hin Hs Hslash Hfs.
  assert (Hprop : is_ascii (List.map ascii_lower ext) = true /\
                  contains 46 (List.map ascii_lower ext) = false /\
                  contains 47 (List.map ascii_lower ext) = false /\
                  List.map ascii_lower ext <> []).
  { unfold ALLOWED_EXTENSIONS in Hin. cbn [In] in Hin.
    destruct Hin as [<-|[<-|[<-|[<-|[<-|[]]]]]];
      (split; [reflexivity|split; [reflexivity|split; [reflexivity|discriminate]]]). }
  destruct Hprop as (Ha & Hd & Hsl & Hne).
  rewrite is_ascii_lower in Ha. rewrite ascii_lower_no_dot in Hd.
  assert (Hsl' : contains 47 ext = false).
  { rewrite <- Hsl. unfold contains. clear. induction ext as [|c ext IH]; [reflexivity|].
    cbn [List.map existsb]. rewrite IH. f_equal. unfold ascii_lower.
    destruct ((65 <=? c) && (c <=? 90)) eqn:E; lia. }
  assert (Hne' : ext <> []) by (intros ->; now apply Hne).
  split.
  - apply allowed_file_accepts; [assumption|]. unfold str_lower. now rewrite Ha.
  - unfold encode_file_to_dataurl. rewrite Hfs. unfold mime_of.
    rewrite path_suffix_of_name by assumption.
    assert (El : str_lower unicode_lower (46 :: ext) = 46 :: List.map ascii_lower ext).
    { unfold str_lower. cbn [is_ascii forallb]. fold (is_ascii ext). rewrite Ha.
      reflexivity. }
    rewrite El. unfold ALLOWED_EXTENSIONS in Hin. cbn [In] in Hin.
    destruct Hin as [<-|[<-|[<-|[<-|[<-|[]]]]]];
      eexists; (split; [|reflexivity]); vm_compute; tauto.
Qed.

Lemma allowed_names_get_their_mime_type_witness :
  In (List.map ascii_lower (py "PNG")) ALLOWED_EXTENSIONS /\
  py "scan.v2" <> [] /\ contains 47 (py "scan.v2") = false /\
  (fun _ : pystr => Regular [Byte.x89]) (py "uploads" ++ [47] ++ py "scan.v2" ++ [46] ++ py "PNG")
  = Regular [Byte.x89] /\
  allowed_file (fun s => s) (py "scan.v2" ++ [46] ++ py "PNG") = true /\
  encode_file_to_dataurl (fun s => s) (fun _ => Regular [Byte.x89])
    (py "uploads" ++ [47] ++ py "scan.v2" ++ [46] ++ py "PNG")
  = inl (py "data:image/png;base64,iQ==").
Proof.
  split; [vm_compute; tauto|]. split; [discriminate|]. split; [reflexivity|].
  split; [reflexivity|].
  destruct (allowed_names_get_their_mime_type (fun s => s) (fun _ => Regular [Byte.x89])
              (py "uploads") (py "scan.v2") (py "PNG") [Byte.x89])
    as [Ha _]; [vm_compute; tauto | discriminate | reflexivity | reflexivity |].
  split; [exact Ha|]. vm_compute. reflexivity.
Defined.
